(** * Batch email validation and its progress broadcaster

    A shallow embedding of [server/xlsxProcessor.ts] (the batch run) and of
    the Express server that owns the [sseConnections] registry, together
    with the properties of the batch pipeline that follow from the code.

    Conventions of the embedding:
    - a JavaScript object used as a record of spreadsheet columns is an
      association list in [Object.keys] order; a property read [o[k]] also
      finds what the object inherits from [Object.prototype], and, on a
      row, the properties that are not enumerable;
    - code that can throw runs in a state-and-exception monad [M]; a local
      array that is mutated inside a [try] block is part of the state, so
      that a [push] made before a throw is still there in the [catch];
    - [console.log] and the timing code around it have no effect on any
      value and are left out;
    - inside the batch functions an [await] is sequencing; in the server
      process, the requests handled while the upload handler is suspended
      at an [await] are explicit steps on the registry
      ([post_validate_emails_live]); [post_validate_emails] is the same
      handler when no request arrives in the meantime. *)

From stdpp Require Import gmap strings list.
From Stdlib Require Import Lia.

Set Default Proof Using "Type".
Open Scope string_scope.
Open Scope list_scope.
Open Scope stdpp_scope.

(** ** JavaScript values held by rows and results *)

(** One validator's verdict, [{ valid: boolean; reason?: string }]. *)
Record StageVerdict := {
  sv_valid : bool;
  sv_reason : option string;
}.

(** The [validators] object of a result (every member optional). *)
Record Validators := {
  v_regex : option StageVerdict;
  v_typo : option StageVerdict;
  v_disposable : option StageVerdict;
  v_mx : option StageVerdict;
  v_smtp : option StageVerdict;
}.

(** The values a cell or a result field can hold.  Numbers are observed
    only through truthiness and [typeof]; [JDate] stands for a cell the
    workbook reader returns as an object; [JBuiltin name] is the function
    or object that [Object.prototype] holds under [name]. *)
Inductive JsVal :=
| JUndefined
| JNull
| JBool (b : bool)
| JNum (n : Z)
| JNaN
| JStr (s : string)
| JDate (t : Z)
| JValidators (v : Validators)
| JBuiltin (name : string).

(** [!!v] of JavaScript. *)
Definition truthy (v : JsVal) : bool :=
  match v with
  | JUndefined | JNull | JNaN => false
  | JBool b => b
  | JNum n => negb (n =? 0)%Z
  | JStr s => negb (String.eqb s "")
  | JDate _ | JValidators _ | JBuiltin _ => true
  end.

(** [typeof v === 'string']. *)
Definition is_string (v : JsVal) : bool :=
  match v with JStr _ => true | _ => false end.

(** [a || b]. *)
Definition js_or (a b : JsVal) : JsVal := if truthy a then a else b.

(** The characters of a value already known to be a string. *)
Definition str_of (v : JsVal) : string :=
  match v with JStr s => s | _ => "" end.

(** An optional string field as a JavaScript value ([undefined] if absent). *)
Definition of_opt_string (o : option string) : JsVal :=
  match o with Some s => JStr s | None => JUndefined end.

Definition of_opt_validators (o : option Validators) : JsVal :=
  match o with Some v => JValidators v | None => JUndefined end.

(** ** Objects as ordered property lists *)

(** The own enumerable properties of an object, in [Object.keys] order. *)
Definition JsObject := list (string * JsVal).

(** [Object.keys(o)]. *)
Definition Object_keys (o : JsObject) : list string := map fst o.

(** The names of the properties of [Object.prototype], which every object
    literal and every row of a sheet inherits: eleven functions, and the
    prototype itself under [__proto__]. *)
Definition Object_prototype : list string :=
  [ "constructor"; "__defineGetter__"; "__defineSetter__"; "hasOwnProperty";
    "__lookupGetter__"; "__lookupSetter__"; "isPrototypeOf";
    "propertyIsEnumerable"; "toString"; "valueOf"; "__proto__";
    "toLocaleString" ].

(** What a property read finds on the prototype: a function or an object
    for the names above, [undefined] for any other name. *)
Definition inherited (k : string) : JsVal :=
  if existsb (String.eqb k) Object_prototype then JBuiltin k else JUndefined.

(** [o[k]] for a property name [k]: the object's own property of that
    name, else what it inherits. *)
Fixpoint get (o : JsObject) (k : string) : JsVal :=
  match o with
  | [] => inherited k
  | (k', v) :: o' => if String.eqb k' k then v else get o' k
  end.

(** [{ ...o, k: v }]: an existing property keeps its place and takes the
    new value, a new one is added at the end. *)
Fixpoint set (o : JsObject) (k : string) (v : JsVal) : JsObject :=
  match o with
  | [] => [(k, v)]
  | (k', v') :: o' =>
      if String.eqb k' k then (k', v) :: o' else (k', v') :: set o' k v
  end.

Definition has (o : JsObject) (k : string) : bool :=
  existsb (String.eqb k) (Object_keys o).

(** A row as [validateEmails] receives it.  [cells] are its columns, the
    own enumerable properties that [Object.keys] lists and that a spread
    [{ ...row }] copies.  [hidden] are its own properties that are not
    enumerable, which neither lists nor copies but [row[k]] finds (the
    workbook reader marks every row with one, [__rowNum__]). *)
Record EmailRow := {
  cells :> JsObject;
  hidden : JsObject;
}.

(** [row[k]]: a column, else a property that is not enumerable, else what
    the row inherits from [Object.prototype]. *)
Definition row_get (row : EmailRow) (k : string) : JsVal :=
  get (cells row ++ hidden row) k.

(** [row[k]] where [k] is the result of indexing an array of names: an
    index out of range gives [undefined], which names the property
    "undefined". *)
Definition get_computed (row : EmailRow) (k : option string) : JsVal :=
  row_get row (default "undefined" k).

(** A row with columns only, and a row as the workbook reader makes it,
    marked with its position in the sheet. *)
Definition plain (columns : JsObject) : EmailRow :=
  {| cells := columns; hidden := [] |}.

Definition sheet_row (rowNum : Z) (columns : JsObject) : EmailRow :=
  {| cells := columns; hidden := [("__rowNum__", JNum rowNum)] |}.

(** A result is an object literal: own enumerable properties only. *)
Definition ValidationResult := JsObject.

(** ** Exceptions and the monad of effectful code *)

(** What a [catch (error)] can receive: an [Error] with its message, or any
    other thrown value. *)
Inductive Thrown :=
| ThrownError (message : string)
| ThrownOther (v : JsVal).

(** [error instanceof Error ? error.message : 'Unknown error']. *)
Definition errorMessage_of (error : Thrown) : string :=
  match error with
  | ThrownError m => m
  | ThrownOther _ => "Unknown error"
  end.

Inductive Outcome (A : Type) :=
| Returned (a : A)
| Threw (e : Thrown).
Arguments Returned {A} a.
Arguments Threw {A} e.

Definition M (St A : Type) : Type := St → Outcome A * St.

Definition ret {St A} (a : A) : M St A := λ s, (Returned a, s).

Definition throw {St A} (e : Thrown) : M St A := λ s, (Threw e, s).

Definition bind {St A B} (c : M St A) (k : A → M St B) : M St B :=
  λ s, match c s with
       | (Returned a, s') => k a s'
       | (Threw e, s') => (Threw e, s')
       end.

(** [try { c } catch (error) { h error }]: the state reached when [c]
    threw is the state the handler starts from. *)
Definition try_catch {St A} (c : M St A) (h : Thrown → M St A) : M St A :=
  λ s, match c s with
       | (Returned a, s') => (Returned a, s')
       | (Threw e, s') => h e s'
       end.

Notation "x <~ c ;; k" := (bind c (λ x, k))
  (at level 100, c at next level, right associativity, only parsing).
Notation "c ;;; k" := (bind c (λ _, k))
  (at level 100, right associativity, only parsing).

(** Running a computation on one component of a pair of states. *)
Definition on_fst {S1 S2 A} (c : M S1 A) : M (S1 * S2) A :=
  λ s, let '(o, s1) := c s.1 in (o, (s1, s.2)).

Definition on_snd {S1 S2 A} (c : M S2 A) : M (S1 * S2) A :=
  λ s, let '(o, s2) := c s.2 in (o, (s.1, s2)).

(** [results.push(r)] on a local array kept in the first component. *)
Definition push {W} (r : ValidationResult) : M (list ValidationResult * W) unit :=
  λ s, (Returned tt, (s.1 ++ [r], s.2)).

(** A function body with a local [results] array, started empty and
    returned at the end ([return results]). *)
Definition with_results {W} (body : M (list ValidationResult * W) unit)
  : M W (list ValidationResult) :=
  λ w, match body ([], w) with
       | (Returned _, (results, w')) => (Returned results, w')
       | (Threw e, (_, w')) => (Threw e, w')
       end.

(** ** The validation library *)

(** Modelled from the spec: [OutputFormat], the result type of [validate],
    is declared in [../src/output/output], which is not among the sources;
    it has the three fields that [xlsxProcessor.ts] reads ([valid],
    [reason], [validators]), typed as in its own [ValidationResult]
    interface. *)
Record OutputFormat := {
  of_valid : bool;
  of_reason : option string;
  of_validators : option Validators;
}.

(** The argument object of [validate]. *)
Record ValidateOptions := {
  vo_email : string;
  vo_sender : string;
  vo_validateRegex : bool;
  vo_validateMx : bool;
  vo_validateTypo : bool;
  vo_validateDisposable : bool;
  vo_validateSMTP : bool;
}.

(** [senderEmail || emailToValidate] for an optional string. *)
Definition sender_or (senderEmail : option string) (emailToValidate : string) : string :=
  match senderEmail with
  | Some s => if String.eqb s "" then emailToValidate else s
  | None => emailToValidate
  end.

(** The summary returned by a batch run. *)
Record Stats := {
  total : nat;
  valid : nat;
  invalid : nat;
}.

(** ** Progress events

    The objects handed to [sendSSE] and written, as JSON, on a subscriber's
    response.  The [email] of an [email] event is whatever the row held
    when it was rejected, hence a value and not only a string. *)
Inductive SSEData :=
| EvConnected (sessionId : string)
| EvStart (total : nat)
| EvEmail (email : JsVal) (valid : bool) (reason : option string)
| EvComplete (stats : Stats) (downloadUrl filename : string)
| EvError (message : string).

(** ** xlsxProcessor.ts *)

Section XlsxProcessor.
(** The world the external collaborators act on (network, file system). *)
Context {World : Type}.
(** [String.prototype.trim]. *)
Variable trim : string → string.
(** [validate] of the validation library: returns a verdict or throws. *)
Variable validate : ValidateOptions → M World OutputFormat.
(** [XLSX.readFile] followed by [sheet_to_json] on the first sheet. *)
Variable readEmailsFromXLSX : string → M World (list EmailRow).
(** [json_to_sheet] followed by [XLSX.writeFile]. *)
Variable writeResultsToXLSX : list ValidationResult → string → M World unit.

(** [row[emailColumn] || row[Object.keys(row)[0]]]. *)
Definition extract_email (row : EmailRow) (emailColumn : string) : JsVal :=
  js_or (row_get row emailColumn) (get_computed row (head (Object_keys row))).

(** The guard [!email || typeof email !== 'string']. *)
Definition rejected (email : JsVal) : bool :=
  negb (truthy email) || negb (is_string email).

Definition validate_options (emailToValidate : string) (senderEmail : option string)
  : ValidateOptions :=
  {| vo_email := emailToValidate;
     vo_sender := sender_or senderEmail emailToValidate;
     vo_validateRegex := true;
     vo_validateMx := true;
     vo_validateTypo := true;
     vo_validateDisposable := true;
     vo_validateSMTP := true |}.

(** The three object literals pushed to [results]. *)
Definition invalid_format_result (row : EmailRow) (email : JsVal) : ValidationResult :=
  set (set (set row "email" (js_or email (JStr "")))
           "valid" (JBool false))
      "reason" (JStr "Invalid email format").

Definition verdict_result (row : EmailRow) (emailToValidate : string)
    (validationResult : OutputFormat) : ValidationResult :=
  set (set (set (set row "email" (JStr emailToValidate))
                "valid" (JBool (of_valid validationResult)))
           "reason" (of_opt_string (of_reason validationResult)))
      "validators" (of_opt_validators (of_validators validationResult)).

Definition error_reason (error : Thrown) : string :=
  "Validation error: " +:+ errorMessage_of error.

Definition error_result (row : EmailRow) (emailToValidate : string)
    (error : Thrown) : ValidationResult :=
  set (set (set row "email" (JStr emailToValidate))
           "valid" (JBool false))
      "reason" (JStr (error_reason error)).

(** One iteration of the [for] loop of [validateEmails]. *)
Definition validateEmails_row (emailColumn : string) (senderEmail : option string)
    (row : EmailRow) : M (list ValidationResult * World) unit :=
  let email := extract_email row emailColumn in
  if rejected email then
    push (invalid_format_result row email)
  else
    let emailToValidate := trim (str_of email) in
    try_catch
      (validationResult <~ on_snd (validate (validate_options emailToValidate senderEmail)) ;;
       push (verdict_result row emailToValidate validationResult))
      (λ error, push (error_result row emailToValidate error)).

(** [for (let i = 0; i < emails.length; i++) body(emails[i])]. *)
Fixpoint for_each {St} (body : EmailRow → M St unit) (emails : list EmailRow)
  : M St unit :=
  match emails with
  | [] => ret tt
  | row :: rest => body row ;;; for_each body rest
  end.

Definition validateEmails (emails : list EmailRow) (emailColumn : string)
    (senderEmail : option string) : M World (list ValidationResult) :=
  with_results (for_each (validateEmails_row emailColumn senderEmail) emails).

(** [results.filter((r) => r.valid).length] and its negation. *)
Definition count_valid (results : list ValidationResult) : nat :=
  length (List.filter (λ r, truthy (get r "valid")) results).

Definition count_invalid (results : list ValidationResult) : nat :=
  length (List.filter (λ r, negb (truthy (get r "valid"))) results).

Definition processXLSXFile (inputPath outputPath emailColumn : string)
    (senderEmail : option string) : M World Stats :=
  emails <~ readEmailsFromXLSX inputPath ;;
  if (length emails =? 0)%nat then
    ret {| total := 0; valid := 0; invalid := 0 |}
  else
    results <~ validateEmails emails emailColumn senderEmail ;;
    let valid := count_valid results in
    let invalid := count_invalid results in
    writeResultsToXLSX results outputPath ;;;
    ret {| total := length results; valid := valid; invalid := invalid |}.

(** The optional progress callback of [validateEmailsWithSSE]. *)
Definition Callback := JsVal → bool → option string → M World unit.

(** [if (onEmailValidated) { onEmailValidated(email, valid, reason) }],
    run next to the local [results] array. *)
Definition notify (onEmailValidated : option Callback)
    (email : JsVal) (valid : bool) (reason : option string)
  : M (list ValidationResult * World) unit :=
  match onEmailValidated with
  | Some f => on_snd (f email valid reason)
  | None => ret tt
  end.

(** One iteration of the [for] loop of [validateEmailsWithSSE]. *)
Definition validateEmailsWithSSE_row (emailColumn : string)
    (senderEmail : option string) (onEmailValidated : option Callback)
    (row : EmailRow) : M (list ValidationResult * World) unit :=
  let email := extract_email row emailColumn in
  if rejected email then
    push (invalid_format_result row email) ;;;
    notify onEmailValidated (js_or email (JStr "")) false (Some "Invalid email format")
  else
    let emailToValidate := trim (str_of email) in
    try_catch
      (validationResult <~ on_snd (validate (validate_options emailToValidate senderEmail)) ;;
       push (verdict_result row emailToValidate validationResult) ;;;
       notify onEmailValidated (JStr emailToValidate) (of_valid validationResult)
              (of_reason validationResult))
      (λ error,
         push (error_result row emailToValidate error) ;;;
         notify onEmailValidated (JStr emailToValidate) false (Some (error_reason error))).

Definition validateEmailsWithSSE (emails : list EmailRow) (emailColumn : string)
    (senderEmail : option string) (onEmailValidated : option Callback)
  : M World (list ValidationResult) :=
  with_results
    (for_each (validateEmailsWithSSE_row emailColumn senderEmail onEmailValidated) emails).

(** [if (sendSSE) { sendSSE(data) }]. *)
Definition send_if (sendSSE : option (SSEData → M World unit)) (data : SSEData)
  : M World unit :=
  match sendSSE with
  | Some f => f data
  | None => ret tt
  end.

Definition processXLSXFileWithSSE (inputPath outputPath emailColumn : string)
    (senderEmail : option string) (sessionId : string)
    (sendSSE : option (SSEData → M World unit)) : M World Stats :=
  emails <~ readEmailsFromXLSX inputPath ;;
  if (length emails =? 0)%nat then
    send_if sendSSE (EvError "No emails found in the file") ;;;
    ret {| total := 0; valid := 0; invalid := 0 |}
  else
    send_if sendSSE (EvStart (length emails)) ;;;
    results <~ validateEmailsWithSSE emails emailColumn senderEmail
                 (Some (λ email valid reason,
                          send_if sendSSE (EvEmail email valid reason))) ;;
    let valid := count_valid results in
    let invalid := count_invalid results in
    writeResultsToXLSX results outputPath ;;;
    ret {| total := length results; valid := valid; invalid := invalid |}.

End XlsxProcessor.

(** ** The server: registry of subscribers and request handlers *)

(** An Express response object, as far as the handlers use one.  [chunks]
    are the events whose [write] returned, in order; [wr] and [flush] are
    the behaviour of the underlying connection: [wr written data] is the
    value [write] throws for [data] after [written] (or [None] when it
    returns), and [flush] is [None] when the object has no such method. *)
Record Response := {
  headers : list (string * string);
  chunks : list SSEData;
  ended : bool;
  status : option nat;
  wr : list SSEData → SSEData → option Thrown;
  flush : option (list SSEData → option Thrown);
}.

(** The module-level [sseConnections] map and the response objects it
    refers to; a response is named by its position in [responses]. *)
Record ServerState := {
  sseConnections : gmap string nat;
  responses : list Response;
}.

Definition update_response (res : nat) (f : Response → Response) (st : ServerState)
  : ServerState :=
  {| sseConnections := sseConnections st;
     responses := match responses st !! res with
                  | Some r => <[res := f r]> (responses st)
                  | None => responses st
                  end |}.

Definition set_connections (c : gmap string nat) (st : ServerState) : ServerState :=
  {| sseConnections := c; responses := responses st |}.

(** A response object created for an incoming request. *)
Definition fresh_response (wr : list SSEData → SSEData → option Thrown)
    (flush : option (list SSEData → option Thrown)) : Response :=
  {| headers := []; chunks := []; ended := false; status := None;
     wr := wr; flush := flush |}.

Definition accept (wr : list SSEData → SSEData → option Thrown)
    (flush : option (list SSEData → option Thrown)) (st : ServerState)
  : nat * ServerState :=
  (length (responses st),
   {| sseConnections := sseConnections st;
      responses := responses st ++ [fresh_response wr flush] |}).

(** The four ways a handler changes a response object. *)
Definition add_header (name value : string) (r : Response) : Response :=
  {| headers := headers r ++ [(name, value)]; chunks := chunks r;
     ended := ended r; status := status r; wr := wr r; flush := flush r |}.

Definition add_chunk (data : SSEData) (r : Response) : Response :=
  {| headers := headers r; chunks := chunks r ++ [data];
     ended := ended r; status := status r; wr := wr r; flush := flush r |}.

Definition mark_ended (r : Response) : Response :=
  {| headers := headers r; chunks := chunks r;
     ended := true; status := status r; wr := wr r; flush := flush r |}.

Definition reply_with (code : nat) (r : Response) : Response :=
  {| headers := headers r; chunks := chunks r;
     ended := true; status := Some code; wr := wr r; flush := flush r |}.

Definition setHeader (res : nat) (name value : string) : M ServerState unit :=
  λ st, (Returned tt, update_response res (add_header name value) st).

(** [res.write(...)] with the event's JSON text as an SSE [data:] line. *)
Definition res_write (res : nat) (data : SSEData) : M ServerState unit :=
  λ st, match responses st !! res with
        | Some r =>
            match wr r (chunks r) data with
            | Some e => (Threw e, st)
            | None => (Returned tt, update_response res (add_chunk data) st)
            end
        | None => (Returned tt, st)
        end.

(** [if (connection.flush) { connection.flush() }]. *)
Definition res_flush_if_available (res : nat) : M ServerState unit :=
  λ st, match responses st !! res with
        | Some r =>
            match flush r with
            | Some fl =>
                match fl (chunks r) with
                | Some e => (Threw e, st)
                | None => (Returned tt, st)
                end
            | None => (Returned tt, st)
            end
        | None => (Returned tt, st)
        end.

(** [res.end()]. *)
Definition res_end (res : nat) : M ServerState unit :=
  λ st, (Returned tt, update_response res mark_ended st).

(** [res.status(code).json(...)]. *)
Definition res_status_json (res : nat) (code : nat) : M ServerState unit :=
  λ st, (Returned tt, update_response res (reply_with code) st).

Definition connections_set (sessionId : string) (res : nat) : M ServerState unit :=
  λ st, (Returned tt, set_connections (<[sessionId := res]> (sseConnections st)) st).

Definition connections_delete (sessionId : string) : M ServerState unit :=
  λ st, (Returned tt, set_connections (delete sessionId (sseConnections st)) st).

(** A query or body field as a condition: absent and empty are falsy. *)
Definition nonempty (o : option string) : option string :=
  match o with
  | Some s => if String.eqb s "" then None else Some s
  | None => None
  end.

(** [app.get('/api/validate-emails-stream', ...)]: [session] is the query
    parameter, [res] the response object of this request. *)
Definition validate_emails_stream (session : option string) (res : nat)
  : M ServerState unit :=
  match nonempty session with
  | None => res_status_json res 400
  | Some sessionId =>
      setHeader res "Content-Type" "text/event-stream" ;;;
      setHeader res "Cache-Control" "no-cache" ;;;
      setHeader res "Connection" "keep-alive" ;;;
      setHeader res "Access-Control-Allow-Origin" "*" ;;;
      connections_set sessionId res ;;;
      res_write res (EvConnected sessionId)
  end.

(** The listener installed by the stream handler with [req.on('close')],
    for the [sessionId] and response of that request. *)
Definition on_close (sessionId : string) (res : nat) : M ServerState unit :=
  connections_delete sessionId ;;;
  res_end res.

Definition sendSSEMessage (sessionId : string) (data : SSEData) : M ServerState unit :=
  λ st, match sseConnections st !! sessionId with
        | Some connection =>
            try_catch
              (res_write connection data ;;;
               res_flush_if_available connection)
              (λ error, connections_delete sessionId) st
        | None => (Returned tt, st)
        end.

(** The block that closes the subscriber's connection after the terminal
    event: [const connection = sseConnections.get(sessionId); if
    (connection) { connection.end(); sseConnections.delete(sessionId) }]. *)
Definition close_connection (sessionId : string) : M ServerState unit :=
  λ st, match sseConnections st !! sessionId with
        | Some connection =>
            (res_end connection ;;; connections_delete sessionId) st
        | None => (Returned tt, st)
        end.

(** The upload as multer leaves it in [req.file], and the form fields. *)
Record UploadedFile := {
  originalname : string;
  path : string;
}.

Record Request := {
  file : option UploadedFile;
  body_emailColumn : option string;
  body_senderEmail : option string;
  body_sessionId : option string;
}.

(** What the upload handler answers on its own response. *)
Inductive Reply :=
| BadRequest (error : string)
| Completed (stats : Stats) (downloadUrl filename : string) (complete : bool)
| Failed (message : string).

Section Server.
(** The world outside the process: network and file system. *)
Context {E : Type}.
Variable trim : string → string.
Variable validate : ValidateOptions → M E OutputFormat.
Variable readEmailsFromXLSX : string → M E (list EmailRow).
Variable writeResultsToXLSX : list ValidationResult → string → M E unit.
Variable fs_unlinkSync : string → M E unit.
Variable fs_existsSync : string → E → bool.
(** [path.join(outputDir, name)]. *)
Variable output_path : string → string.

(** The batch functions at the state of the server process, when no other
    request is handled while [validate] is awaited. *)
Definition run_with_sse (inputPath outputPath emailColumn : string)
    (senderEmail : option string) (sessionId : string) : M (E * ServerState) Stats :=
  processXLSXFileWithSSE trim
    (λ o, on_fst (validate o))
    (λ p, on_fst (readEmailsFromXLSX p))
    (λ r p, on_fst (writeResultsToXLSX r p))
    inputPath outputPath emailColumn senderEmail sessionId
    (Some (λ data, on_snd (sendSSEMessage sessionId data))).

Definition run_without_sse (inputPath outputPath emailColumn : string)
    (senderEmail : option string) : M (E * ServerState) Stats :=
  processXLSXFile trim
    (λ o, on_fst (validate o))
    (λ p, on_fst (readEmailsFromXLSX p))
    (λ r p, on_fst (writeResultsToXLSX r p))
    inputPath outputPath emailColumn senderEmail.

(** [if (sessionId) { sendSSEMessage(sessionId, data); close }], the
    shape shared by the completion and the failure path. *)
Definition publish_terminal (sessionId : option string) (data : SSEData)
  : M (E * ServerState) unit :=
  match sessionId with
  | Some sid =>
      on_snd (sendSSEMessage sid data) ;;;
      on_snd (close_connection sid)
  | None => ret tt
  end.

(** The second handler of [app.post('/api/validate-emails', ...)], run
    once multer has accepted the upload, when no other request is handled
    while it is suspended: nothing arrives during the 500 ms pause it takes
    when the session has no subscriber yet, nor while [validate] is
    awaited.  [now] is the text of [Date.now()] used in the output file
    name.  [post_validate_emails_live] below is the handler with the
    requests that arrive in the meantime. *)
Definition post_validate_emails (req : Request) (now : string)
  : M (E * ServerState) Reply :=
  try_catch
    (match file req with
     | None => ret (BadRequest "No file uploaded")
     | Some f =>
         let emailColumn := default "email" (nonempty (body_emailColumn req)) in
         let senderEmail := body_senderEmail req in
         let inputPath := path f in
         let outputFilename := "validated-" +:+ now +:+ "-" +:+ originalname f in
         let outputPath := output_path outputFilename in
         let sessionId := nonempty (body_sessionId req) in
         stats <~ match sessionId with
                  | Some sid =>
                      run_with_sse inputPath outputPath emailColumn senderEmail sid
                  | None =>
                      run_without_sse inputPath outputPath emailColumn senderEmail
                  end ;;
         on_fst (fs_unlinkSync inputPath) ;;;
         publish_terminal sessionId
           (EvComplete {| total := total stats; valid := valid stats;
                          invalid := invalid stats |}
                       ("/api/download/" +:+ outputFilename) outputFilename) ;;;
         ret (Completed {| total := total stats; valid := valid stats;
                           invalid := invalid stats |}
                        ("/api/download/" +:+ outputFilename) outputFilename
                        (bool_decide (is_Some sessionId)))
     end)
    (λ error,
       let sessionId := nonempty (body_sessionId req) in
       let errorMessage := errorMessage_of error in
       publish_terminal sessionId (EvError errorMessage) ;;;
       match file req with
       | Some f =>
           (λ s, if fs_existsSync (path f) s.1
                 then on_fst (fs_unlinkSync (path f)) s
                 else (Returned tt, s))
       | None => ret tt
       end ;;;
       ret (Failed errorMessage)).

End Server.

(** * Definitions used to state the properties *)

(** The names of the fields a result adds to, or overwrites in, its row. *)
Definition result_field (k : string) : bool :=
  String.eqb k "email" || String.eqb k "valid" || String.eqb k "reason"
  || String.eqb k "validators".

Section RowModel.
Context {World : Type}.
Variable trim : string → string.
Variable validate : ValidateOptions → M World OutputFormat.

(** The result pushed for [row] from world [w], and the world after. *)
Definition row_step (emailColumn : string) (senderEmail : option string)
    (row : EmailRow) (w : World) : ValidationResult * World :=
  let email := extract_email row emailColumn in
  if rejected email then (invalid_format_result row email, w)
  else
    let emailToValidate := trim (str_of email) in
    match validate (validate_options emailToValidate senderEmail) w with
    | (Returned validationResult, w') =>
        (verdict_result row emailToValidate validationResult, w')
    | (Threw error, w') => (error_result row emailToValidate error, w')
    end.

Fixpoint run_rows (emailColumn : string) (senderEmail : option string)
    (emails : list EmailRow) (w : World) : list ValidationResult * World :=
  match emails with
  | [] => ([], w)
  | row :: rest =>
      let '(r, w1) := row_step emailColumn senderEmail row w in
      let '(rs, w2) := run_rows emailColumn senderEmail rest w1 in
      (r :: rs, w2)
  end.

End RowModel.

(** The arguments a result is reported with: in every branch of
    [validateEmailsWithSSE] the callback receives the [email], [valid] and
    [reason] just stored in the pushed result. *)
Definition reason_of (r : ValidationResult) : option string :=
  match get r "reason" with JStr s => Some s | _ => None end.

Definition event_of (r : ValidationResult) : SSEData :=
  EvEmail (get r "email") (truthy (get r "valid")) (reason_of r).

(** A callback that returns normally whenever it is called. *)
Definition returns_normally {World} (cb : option (@Callback World)) : Prop :=
  ∀ f, cb = Some f → ∀ e v r w, (f e v r w).1 = Returned tt.

Section RowModelSSE.
Context {World : Type}.
Variable trim : string → string.
Variable validate : ValidateOptions → M World OutputFormat.
Variable onEmailValidated : option (@Callback World).

(** The world after the callback has been told about result [r]. *)
Definition notified (r : ValidationResult) (w : World) : World :=
  match onEmailValidated with
  | Some f => (f (get r "email") (truthy (get r "valid")) (reason_of r) w).2
  | None => w
  end.

Definition row_step_sse (emailColumn : string) (senderEmail : option string)
    (row : EmailRow) (w : World) : ValidationResult * World :=
  let '(r, w1) := row_step trim validate emailColumn senderEmail row w in
  (r, notified r w1).

Fixpoint run_rows_sse (emailColumn : string) (senderEmail : option string)
    (emails : list EmailRow) (w : World) : list ValidationResult * World :=
  match emails with
  | [] => ([], w)
  | row :: rest =>
      let '(r, w1) := row_step_sse emailColumn senderEmail row w in
      let '(rs, w2) := run_rows_sse emailColumn senderEmail rest w1 in
      (r :: rs, w2)
  end.

End RowModelSSE.

Global Instance StageVerdict_eq_dec : EqDecision StageVerdict.
Proof. solve_decision. Defined.
Global Instance Validators_eq_dec : EqDecision Validators.
Proof. solve_decision. Defined.
Global Instance JsVal_eq_dec : EqDecision JsVal.
Proof. solve_decision. Defined.

(** The number of results whose [valid] field is the boolean [b]. *)
Definition count_flag (b : bool) (results : list ValidationResult) : nat :=
  length (List.filter (λ r, bool_decide (get r "valid" = JBool b)) results).

(** Column [k] of [row] is found again in [r], with the same value. *)
Definition passes_through (row : EmailRow) (r : ValidationResult) : Prop :=
  ∀ k, result_field k = false →
       get r k = get row k ∧ (has row k = true → has r k = true).

(** The extracted value is empty, missing ([undefined]), or not a string:
    anything but a non-empty string. *)
Definition unusable (email : JsVal) : Prop :=
  match email with
  | JStr s => s = ""
  | _ => True
  end.

(** [validate] instrumented to record every call it receives. *)
Definition logged {World} (validate : ValidateOptions → M World OutputFormat)
    (o : ValidateOptions) : M (list ValidateOptions * World) OutputFormat :=
  λ s, let '(out, w') := validate o s.2 in (out, (s.1 ++ [o], w')).

Section ProductModel.
Context {W S : Type}.
Variable validate : ValidateOptions → M W OutputFormat.
Variable cb : JsVal → bool → option string → M S unit.

Definition lifted_validate (o : ValidateOptions) : M (W * S) OutputFormat :=
  on_fst (validate o).

Definition lifted_callback : @Callback (W * S) :=
  λ email valid reason, on_snd (cb email valid reason).

(** The callback's state after it has been told about result [r]. *)
Definition told (s : S) (r : ValidationResult) : S :=
  (cb (get r "email") (truthy (get r "valid")) (reason_of r) s).2.

End ProductModel.

(** The value of the row's first field; for a row without fields,
    [row[undefined]], the property named "undefined". *)
Definition first_field (row : EmailRow) : JsVal :=
  match cells row with
  | [] => row_get row "undefined"
  | (_, v) :: _ => v
  end.

(** [row[k]] finds no property: [k] names no column, no property that is
    not enumerable, and nothing the row inherits. *)
Definition absent (row : EmailRow) (k : string) : bool :=
  negb (has row k || has (hidden row) k || existsb (String.eqb k) Object_prototype).

(** The call [validate] receives for a row, if any. *)
Definition submitted (trim : string → string) (col : string) (sender : option string)
    (row : EmailRow) : option ValidateOptions :=
  let email := extract_email row col in
  if rejected email then None
  else Some (validate_options (trim (str_of email)) sender).

(** The [email] field recorded for a row. *)
Definition recorded_email (trim : string → string) (col : string) (row : EmailRow)
  : JsVal :=
  let email := extract_email row col in
  if rejected email then js_or email (JStr "") else JStr (trim (str_of email)).

(** The state after the entry of [sessionId] has been removed. *)
Definition without (sessionId : string) (st : ServerState) : ServerState :=
  set_connections (delete sessionId (sseConnections st)) st.

Definition sse_headers (r : Response) : Response :=
  add_header "Access-Control-Allow-Origin" "*"
    (add_header "Connection" "keep-alive"
       (add_header "Cache-Control" "no-cache"
          (add_header "Content-Type" "text/event-stream" r))).

(** The state a successful registration of [res] under [sessionId] leads
    to. *)
Definition registered (sessionId : string) (res : nat) (resp : Response)
    (st : ServerState) : ServerState :=
  {| sseConnections := <[sessionId := res]> (sseConnections st);
     responses := <[res := add_chunk (EvConnected sessionId) (sse_headers resp)]>
                    (responses st) |}.

(** The steps by which the server state changes: Express creates the
    response object of a new request, the stream handler runs, a
    subscriber's request closes, a batch publishes an event, a batch closes
    the connection of its session. *)
Inductive ServerOp :=
| OpAccept (wr : list SSEData → SSEData → option Thrown)
           (flush : option (list SSEData → option Thrown))
| OpStream (session : option string) (res : nat)
| OpClose (sessionId : string) (res : nat)
| OpPublish (sessionId : string) (data : SSEData)
| OpEnd (sessionId : string).

Definition step (st : ServerState) (op : ServerOp) : ServerState :=
  match op with
  | OpAccept wr flush => (accept wr flush st).2
  | OpStream session res => (validate_emails_stream session res st).2
  | OpClose sessionId res => (on_close sessionId res st).2
  | OpPublish sessionId data => (sendSSEMessage sessionId data st).2
  | OpEnd sessionId => (close_connection sessionId st).2
  end.

Definition run_ops (ops : list ServerOp) (st : ServerState) : ServerState :=
  fold_left step ops st.

(** Response [res] exists in [st'] if it did in [st], and what was written
    on it in [st] is the beginning of what is written on it in [st']. *)
Definition extends (res : nat) (st st' : ServerState) : Prop :=
  ∀ r, responses st !! res = Some r →
       ∃ r', responses st' !! res = Some r' ∧ chunks r `prefix_of` chunks r'.

Definition monotone {A} (c : M ServerState A) : Prop :=
  ∀ res st, extends res st (c st).2.

(** Writing and flushing never throw on this connection. *)
Definition reliable (r : Response) : Prop :=
  (∀ written data, wr r written data = None) ∧
  (∀ fl, flush r = Some fl → ∀ written, fl written = None).

Definition add_chunks (evs : list SSEData) (r : Response) : Response :=
  {| headers := headers r; chunks := chunks r ++ evs;
     ended := ended r; status := status r; wr := wr r; flush := flush r |}.

(** Session [sessionId] is registered to response [c], which works. *)
Definition healthy (sessionId : string) (c : nat) (st : ServerState) : Prop :=
  sseConnections st !! sessionId = Some c ∧
  ∃ r, responses st !! c = Some r ∧ reliable r.

Section TerminalModel.
Context {E : Type}.
Variable writeResultsToXLSX : list ValidationResult → string → M E unit.
Variable fs_unlinkSync : string → M E unit.
Variable output_path : string → string.


End TerminalModel.

(** ** The upload handler and the requests that arrive while it waits

    The handler gives up control where it waits for a timer or for the
    network: at the 500 ms pause it takes when the session has no
    subscriber yet, and at every [await validate(...)].  The event loop
    then runs the handlers of the requests that have arrived: stream
    requests, closed connections, the steps of other uploads.  Reading and
    writing the workbook and removing the upload are synchronous. *)

Section LiveServer.
Context {E : Type}.
Variable trim : string → string.
Variable validate : ValidateOptions → M E OutputFormat.
Variable readEmailsFromXLSX : string → M E (list EmailRow).
Variable writeResultsToXLSX : list ValidationResult → string → M E unit.
Variable fs_unlinkSync : string → M E unit.
Variable fs_existsSync : string → E → bool.
Variable output_path : string → string.
(** What the outside world brings while the handler is suspended: the
    steps the event loop runs on the server state, in order, and the world
    afterwards. *)
Variable arrivals : E → list ServerOp * E.

(** [await new Promise(resolve => setTimeout(resolve, 500))]. *)
Definition suspended : M (E * ServerState) unit :=
  λ s, let '(ops, e') := arrivals s.1 in (Returned tt, (e', run_ops ops s.2)).

(** [await c] for a call [c] that waits for the network: the call acts on
    the world, and the handler resumes, with the call's value or
    exception, after the event loop has run what arrived. *)
Definition awaited {A} (c : M E A) : M (E * ServerState) A :=
  λ s, let '(o, e1) := c s.1 in
       let '(ops, e2) := arrivals e1 in
       (o, (e2, run_ops ops s.2)).

(** The same call as the world alone sees it. *)
Definition then_arrivals {A} (c : M E A) : M E A :=
  λ e, let '(o, e1) := c e in (o, (arrivals e1).2).

Definition run_with_sse_live (inputPath outputPath emailColumn : string)
    (senderEmail : option string) (sessionId : string) : M (E * ServerState) Stats :=
  processXLSXFileWithSSE trim
    (λ o, awaited (validate o))
    (λ p, on_fst (readEmailsFromXLSX p))
    (λ r p, on_fst (writeResultsToXLSX r p))
    inputPath outputPath emailColumn senderEmail sessionId
    (Some (λ data, on_snd (sendSSEMessage sessionId data))).

Definition run_without_sse_live (inputPath outputPath emailColumn : string)
    (senderEmail : option string) : M (E * ServerState) Stats :=
  processXLSXFile trim
    (λ o, awaited (validate o))
    (λ p, on_fst (readEmailsFromXLSX p))
    (λ r p, on_fst (writeResultsToXLSX r p))
    inputPath outputPath emailColumn senderEmail.

(** [if (sessionId && !sseConnections.has(sessionId)) { await ... }]. *)
Definition wait_for_subscriber (sessionId : option string) : M (E * ServerState) unit :=
  λ s, match sessionId with
       | Some sid =>
           match sseConnections s.2 !! sid with
           | Some _ => (Returned tt, s)
           | None => suspended s
           end
       | None => (Returned tt, s)
       end.

(** The second handler of [app.post('/api/validate-emails', ...)]. *)
Definition post_validate_emails_live (req : Request) (now : string)
  : M (E * ServerState) Reply :=
  try_catch
    (match file req with
     | None => ret (BadRequest "No file uploaded")
     | Some f =>
         let emailColumn := default "email" (nonempty (body_emailColumn req)) in
         let senderEmail := body_senderEmail req in
         let inputPath := path f in
         let outputFilename := "validated-" +:+ now +:+ "-" +:+ originalname f in
         let outputPath := output_path outputFilename in
         let sessionId := nonempty (body_sessionId req) in
         wait_for_subscriber sessionId ;;;
         stats <~ match sessionId with
                  | Some sid =>
                      run_with_sse_live inputPath outputPath emailColumn senderEmail sid
                  | None =>
                      run_without_sse_live inputPath outputPath emailColumn senderEmail
                  end ;;
         on_fst (fs_unlinkSync inputPath) ;;;
         publish_terminal sessionId
           (EvComplete {| total := total stats; valid := valid stats;
                          invalid := invalid stats |}
                       ("/api/download/" +:+ outputFilename) outputFilename) ;;;
         ret (Completed {| total := total stats; valid := valid stats;
                           invalid := invalid stats |}
                        ("/api/download/" +:+ outputFilename) outputFilename
                        (bool_decide (is_Some sessionId)))
     end)
    (λ error,
       let sessionId := nonempty (body_sessionId req) in
       let errorMessage := errorMessage_of error in
       publish_terminal sessionId (EvError errorMessage) ;;;
       match file req with
       | Some f =>
           (λ s, if fs_existsSync (path f) s.1
                 then on_fst (fs_unlinkSync (path f)) s
                 else (Returned tt, s))
       | None => ret tt
       end ;;;
       ret (Failed errorMessage)).

End LiveServer.

(** Nothing arrives. *)
Definition no_arrivals {E} (e : E) : list ServerOp * E := ([], e).


(** A step that is not a registration for [sessionId]. *)
Definition does_not_register (sessionId : string) (op : ServerOp) : Prop :=
  match op with
  | OpStream session _ => nonempty session ≠ Some sessionId
  | _ => True
  end.


(** ** A concrete run used to exercise the statements

    The world is the list of calls [validate] has received.  The library is
    replaced by a table: one address is deliverable, one is malformed, one
    is disposable, and one makes the probe fail with an exception. *)

Fixpoint drop_spaces (s : string) : string :=
  match s with
  | String c s' => if Ascii.eqb c (Ascii.ascii_of_nat 32) then drop_spaces s' else s
  | EmptyString => s
  end.

Definition demo_trim (s : string) : string :=
  String.rev (drop_spaces (String.rev (drop_spaces s))).

Definition all_pass : Validators :=
  let ok := Some {| sv_valid := true; sv_reason := None |} in
  {| v_regex := ok; v_typo := ok; v_disposable := ok; v_mx := ok; v_smtp := ok |}.

Definition fails_regex : Validators :=
  {| v_regex := Some {| sv_valid := false; sv_reason := Some "Invalid regex" |};
     v_typo := None; v_disposable := None; v_mx := None; v_smtp := None |}.

Definition fails_disposable : Validators :=
  let ok := Some {| sv_valid := true; sv_reason := None |} in
  {| v_regex := ok; v_typo := ok;
     v_disposable := Some {| sv_valid := false; sv_reason := Some "Email was created using a disposable email service" |};
     v_mx := None; v_smtp := None |}.

Definition demo_validate (o : ValidateOptions) : M (list ValidateOptions) OutputFormat :=
  λ calls,
    let calls' := calls ++ [o] in
    if String.eqb (vo_email o) "a@good.com" then
      (Returned {| of_valid := true; of_reason := None; of_validators := Some all_pass |}, calls')
    else if String.eqb (vo_email o) "user@disposable.test" then
      (Returned {| of_valid := false; of_reason := Some "disposable";
                   of_validators := Some fails_disposable |}, calls')
    else if String.eqb (vo_email o) "boom@slow.test" then
      (Threw (ThrownError "connect ETIMEDOUT"), calls')
    else
      (Returned {| of_valid := false; of_reason := Some "regex";
                   of_validators := Some fails_regex |}, calls').

Definition demo_rows : list EmailRow :=
  [ sheet_row 1 [("email", JStr "a@good.com"); ("name", JStr "Ann")];
    sheet_row 2 [("email", JStr "bad"); ("name", JStr "Bob")];
    sheet_row 3 [("email", JStr " user@disposable.test "); ("name", JStr "Cy")];
    sheet_row 4 [("name", JNum 7); ("email", JStr "")];
    sheet_row 5 [("email", JStr "boom@slow.test"); ("name", JStr "Di")] ].

Definition demo_read (p : string) : M (list ValidateOptions) (list EmailRow) :=
  ret demo_rows.

Definition demo_write (results : list ValidationResult) (p : string)
  : M (list ValidateOptions) unit :=
  ret tt.

Definition demo_callback : @Callback (list ValidateOptions * list SSEData) :=
  λ email valid reason, on_snd (λ log, (Returned tt, log ++ [EvEmail email valid reason])).

Definition demo_validate_sse (o : ValidateOptions)
  : M (list ValidateOptions * list SSEData) OutputFormat :=
  on_fst (demo_validate o).

Definition demo_log_callback (email : JsVal) (valid : bool) (reason : option string)
  : M (list SSEData) unit :=
  λ log, (Returned tt, log ++ [EvEmail email valid reason]).

(** A callback that throws when it is told of a valid address. *)
Definition picky_callback (email : JsVal) (valid : bool) (reason : option string)
  : M (list SSEData) unit :=
  λ log, if valid then (Threw (ThrownError "subscriber gone"), log)
         else (Returned tt, log ++ [EvEmail email valid reason]).

(** A connection whose writes always throw, and one that always works. *)
Definition broken_wr (written : list SSEData) (data : SSEData) : option Thrown :=
  Some (ThrownError "write EPIPE").

Definition working_wr (written : list SSEData) (data : SSEData) : option Thrown :=
  None.

Definition empty_server : ServerState :=
  {| sseConnections := ∅; responses := [] |}.

(** Two requests for the same session, one after the other. *)
Definition two_subscribers : ServerState :=
  let st0 := (accept working_wr None empty_server).2 in
  let st1 := (validate_emails_stream (Some "s1") 0 st0).2 in
  (accept working_wr None st1).2.

(** A server with one subscriber, registered for session "s1" through the
    stream handler, and an upload for that session. *)
Definition one_subscriber : ServerState :=
  (validate_emails_stream (Some "s1") 0 (accept working_wr None empty_server).2).2.

Definition demo_request : Request :=
  {| file := Some {| originalname := "list.xlsx"; path := "uploads/upload-1.xlsx" |};
     body_emailColumn := None;
     body_senderEmail := None;
     body_sessionId := Some "s1" |}.

Definition demo_unlink (p : string) : M (list ValidateOptions) unit := ret tt.

Definition demo_exists (p : string) (e : list ValidateOptions) : bool := true.

Definition demo_output_path (name : string) : string := "output/" +:+ name.

Definition demo_post : M (list ValidateOptions * ServerState) Reply :=
  post_validate_emails demo_trim demo_validate demo_read demo_write
    demo_unlink demo_exists demo_output_path demo_request "1700000000000".

(** Arrivals over the demo world, the calls [validate] has received.
    While the first address is validated a second subscriber registers
    for "s1"; or a subscriber for "s2" registers then and leaves while the
    third address is validated; or a subscriber for "s2" registers before
    any address is validated. *)
Definition demo_reconnect (calls : list ValidateOptions)
  : list ServerOp * list ValidateOptions :=
  (if (length calls =? 1)%nat
   then [OpAccept working_wr None; OpStream (Some "s1") 1] else [], calls).


Definition demo_latecomer (calls : list ValidateOptions)
  : list ServerOp * list ValidateOptions :=
  (if (length calls =? 0)%nat
   then [OpAccept working_wr None; OpStream (Some "s2") 1] else [], calls).

Definition demo_post_live (arrivals : list ValidateOptions → list ServerOp * list ValidateOptions)
    (req : Request) : M (list ValidateOptions * ServerState) Reply :=
  post_validate_emails_live demo_trim demo_validate demo_read demo_write
    demo_unlink demo_exists demo_output_path arrivals req "1700000000000".

(** * Further definitions *)

(** A workbook writer that fails, and a reader that finds no rows. *)
Definition demo_failing_write (results : list ValidationResult) (p : string)
  : M (list ValidateOptions) unit :=
  throw (ThrownError "ENOSPC: no space left on device").

Definition demo_read_empty (p : string) : M (list ValidateOptions) (list EmailRow) :=
  ret [].

(** A callback that fails when the reported address is not a string, and
    one that fails only when it is told of a valid address (both on the
    state of [validate]'s calls). *)
Definition picky_callback_aborting : @Callback (list ValidateOptions) :=
  λ email valid reason,
    match email with
    | JStr _ => ret tt
    | _ => throw (ThrownError "subscriber gone")
    end.

Definition picky_callback_here : @Callback (list ValidateOptions) :=
  λ email valid reason,
    if valid then throw (ThrownError "subscriber gone") else ret tt.


Section PublishedModel.
Context {World : Type}.
Variable trim : string → string.
Variable validate : ValidateOptions → M World OutputFormat.
Variable readEmailsFromXLSX : string → M World (list EmailRow).

(** The events [processXLSXFileWithSSE] hands to [sendSSE] when it is run
    on [inputPath] from world [w]: none when the workbook cannot be read,
    one [error] when it has no rows, and otherwise [start] followed by one
    [email] event per result. *)
Definition published (inputPath col : string) (sender : option string) (w : World)
  : list SSEData :=
  match readEmailsFromXLSX inputPath w with
  | (Returned emails, w1) =>
      if (length emails =? 0)%nat then [EvError "No emails found in the file"]
      else
        match validateEmails trim validate emails col sender w1 with
        | (Returned results, _) => EvStart (length emails) :: (event_of <$> results)
        | (Threw _, _) => [EvStart (length emails)]
        end
  | (Threw _, _) => []
  end.

End PublishedModel.

(** A [sendSSE] that records what it is given. *)
Definition demo_send (data : SSEData) : M (list SSEData) unit :=
  λ log, (Returned tt, log ++ [data]).


Section UploadCore.
Context {E : Type}.
Variable trim : string → string.
Variable validate : ValidateOptions → M E OutputFormat.
Variable readEmailsFromXLSX : string → M E (list EmailRow).
Variable writeResultsToXLSX : list ValidationResult → string → M E unit.
Variable fs_unlinkSync : string → M E unit.
Variable fs_existsSync : string → E → bool.
Variable output_path : string → string.

(** What the upload handler does outside the registry when no event of
    the run reaches a subscriber: the batch, the removal of the upload,
    the answer, with [complete] as the value of the answer's flag. *)
Definition upload_core (complete : bool) (req : Request) (now : string) : M E Reply :=
  try_catch
    (match file req with
     | None => ret (BadRequest "No file uploaded")
     | Some f =>
         let emailColumn := default "email" (nonempty (body_emailColumn req)) in
         let outputFilename := "validated-" +:+ now +:+ "-" +:+ originalname f in
         stats <~ processXLSXFile trim validate readEmailsFromXLSX writeResultsToXLSX
                    (path f) (output_path outputFilename) emailColumn
                    (body_senderEmail req) ;;
         fs_unlinkSync (path f) ;;;
         ret (Completed {| total := total stats; valid := valid stats;
                           invalid := invalid stats |}
                        ("/api/download/" +:+ outputFilename) outputFilename complete)
     end)
    (λ error,
       match file req with
       | Some f =>
           (λ s, if fs_existsSync (path f) s then fs_unlinkSync (path f) s
                 else (Returned tt, s))
       | None => ret tt
       end ;;;
       ret (Failed (errorMessage_of error))).

(** The terminal event of any run of the upload handler for a session:
    [complete] with the statistics when the batch returned and the upload
    was removed, [error] with the message of what was thrown otherwise. *)
Definition terminal_of (req : Request) (now : string) (f : UploadedFile) (e : E)
  : SSEData :=
  let emailColumn := default "email" (nonempty (body_emailColumn req)) in
  let outputFilename := "validated-" +:+ now +:+ "-" +:+ originalname f in
  match processXLSXFile trim validate readEmailsFromXLSX writeResultsToXLSX
          (path f) (output_path outputFilename) emailColumn (body_senderEmail req) e with
  | (Returned stats, e1) =>
      match fs_unlinkSync (path f) e1 with
      | (Returned _, _) =>
          EvComplete {| total := total stats; valid := valid stats;
                        invalid := invalid stats |}
                     ("/api/download/" +:+ outputFilename) outputFilename
      | (Threw err, _) => EvError (errorMessage_of err)
      end
  | (Threw err, _) => EvError (errorMessage_of err)
  end.

End UploadCore.

(** A reader that fails, and uploads with and without a session. *)
Definition demo_read_failing (p : string) : M (list ValidateOptions) (list EmailRow) :=
  throw (ThrownError "File is password-protected").

Definition demo_request_plain : Request :=
  {| file := Some {| originalname := "list.xlsx"; path := "uploads/upload-1.xlsx" |};
     body_emailColumn := Some "";
     body_senderEmail := Some "me@example.com";
     body_sessionId := None |}.

Definition demo_request_late : Request :=
  {| file := Some {| originalname := "list.xlsx"; path := "uploads/upload-1.xlsx" |};
     body_emailColumn := None;
     body_senderEmail := None;
     body_sessionId := Some "s2" |}.

(** The state after the second of two registrations for session "s1". *)
Definition replaced_subscriber : ServerState :=
  (validate_emails_stream (Some "s1") 1 two_subscribers).2.

(** ** The server process over time

    Besides the registry and the responses, the process holds the close
    listeners that the stream handler has installed: [listeners !! res =
    Some sessionId] when the request of response [res] carries the listener
    that closes [sessionId]. *)
Record Process := {
  server : ServerState;
  listeners : gmap nat string;
}.

(** What can happen to the process, one synchronous step at a time: a
    stream request arrives (Express creates its response and the stream
    handler runs; the listener is installed when the handler gets that
    far); the request of a response closes (its listener, if any, runs,
    once); a batch publishes an event; a batch closes the connection of
    its session. *)
Inductive Happening :=
| Subscribes (session : option string)
             (wr : list SSEData → SSEData → option Thrown)
             (flush : option (list SSEData → option Thrown))
| Disconnects (res : nat)
| Publishes (sessionId : string) (data : SSEData)
| Finishes (sessionId : string).

Definition happen (p : Process) (h : Happening) : Process :=
  match h with
  | Subscribes session wr flush =>
      let '(res, st1) := accept wr flush (server p) in
      let '(outcome, st2) := validate_emails_stream session res st1 in
      {| server := st2;
         listeners := match outcome, nonempty session with
                      | Returned _, Some sessionId => <[res := sessionId]> (listeners p)
                      | _, _ => listeners p
                      end |}
  | Disconnects res =>
      match listeners p !! res with
      | Some sessionId =>
          {| server := (on_close sessionId res (server p)).2;
             listeners := delete res (listeners p) |}
      | None => p
      end
  | Publishes sessionId data =>
      {| server := (sendSSEMessage sessionId data (server p)).2;
         listeners := listeners p |}
  | Finishes sessionId =>
      {| server := (close_connection sessionId (server p)).2;
         listeners := listeners p |}
  end.

Definition started : Process :=
  {| server := empty_server; listeners := ∅ |}.

Definition history (hs : list Happening) : Process := fold_left happen hs started.

(** Every registered connection exists and has not been ended; no
    connection is registered under two sessions; a request's listener
    closes the only session its response can be registered under. *)
Definition registry_ok (p : Process) : Prop :=
  (∀ sid c, sseConnections (server p) !! sid = Some c →
            ∃ r, responses (server p) !! c = Some r ∧ ended r = false) ∧
  (∀ sid sid' c, sseConnections (server p) !! sid = Some c →
                 sseConnections (server p) !! sid' = Some c → sid = sid') ∧
  (∀ c sid, listeners p !! c = Some sid →
            c < length (responses (server p)) ∧
            ∀ sid', sseConnections (server p) !! sid' = Some c → sid' = sid).

(** ** functions/api/validate-emails.ts: the upload function of the
    serverless deployment *)

(** The uploaded [File] and the fields of the multipart form. *)
Record CfFile := {
  cf_name : string;
  cf_size : Z;
}.

Record FormData := {
  fd_file : option CfFile;
  fd_emailColumn : option string;
  fd_senderEmail : option string;
}.

(** The JSON body and the [Response] the function builds. *)
Inductive CfBody :=
| CfError (error : string) (message : option string)
| CfSuccess (stats : Stats) (fileData filename mimeType : string).

Record CfResponse := {
  cf_status : nat;
  cf_headers : list (string * string);
  cf_body : CfBody;
}.

Definition cf_json (status : nat) (body : CfBody) : CfResponse :=
  {| cf_status := status;
     cf_headers := [("Content-Type", "application/json")];
     cf_body := body |}.

(** [100 * 1024 * 1024]. *)
Definition maxSize : Z := 100 * 1024 * 1024.

(** [allowedExtensions.includes(ext)] for ['.xlsx', '.xls']. *)
Definition allowed_extension (ext : string) : bool :=
  String.eqb ext ".xlsx" || String.eqb ext ".xls".

Section Cloudflare.
Context {E Buffer : Type}.
Variable trim : string → string.
Variable validate : ValidateOptions → M E OutputFormat.
Variable readEmailsFromXLSX : string → M E (list EmailRow).
Variable writeResultsToXLSX : list ValidationResult → string → M E unit.
(** [request.formData()] and [file.arrayBuffer()]. *)
Variable request_formData : M E FormData.
Variable file_arrayBuffer : CfFile → M E Buffer.
(** [String.prototype.toLowerCase], [path.extname], [path.join],
    [os.tmpdir()]. *)
Variable toLowerCase : string → string.
Variable extname : string → string.
Variable path_join : string → string → string.
Variable tmpdir : string.
Variable fs_existsSync : string → E → bool.
Variable fs_mkdirSync : string → M E unit.
Variable fs_writeFileSync : string → Buffer → M E unit.
Variable fs_readFileSync : string → M E Buffer.
Variable fs_unlinkSync : string → M E unit.
(** The text of [Date.now()] and of [Math.round(Math.random() * 1e9)]. *)
Variable date_now : M E string.
Variable random_suffix : M E string.
(** [buffer.toString('base64')]. *)
Variable base64 : Buffer → string.

(** [if (!fs.existsSync(dir)) { fs.mkdirSync(dir, { recursive: true }) }]. *)
Definition ensure_dir (dir : string) : M E unit :=
  λ e, if fs_existsSync dir e then (Returned tt, e) else fs_mkdirSync dir e.

(** [if (fs.existsSync(p)) { fs.unlinkSync(p) }]. *)
Definition remove_if_exists (p : string) : M E unit :=
  λ e, if fs_existsSync p e then fs_unlinkSync p e else (Returned tt, e).

Definition cf_ok (stats : Stats) (fileData outputFilename : string) : CfResponse :=
  {| cf_status := 200;
     cf_headers := [("Content-Type", "application/json");
                    ("Access-Control-Allow-Origin", "*")];
     cf_body := CfSuccess {| total := total stats; valid := valid stats;
                             invalid := invalid stats |}
                  fileData outputFilename
                  "application/vnd.openxmlformats-officedocument.spreadsheetml.sheet" |}.

(** The part of [onRequestPost] that follows the three checks. *)
Definition cf_process (formData : FormData) (file : CfFile) (ext : string)
  : M E CfResponse :=
  let emailColumn := default "email" (nonempty (fd_emailColumn formData)) in
  let senderEmail := fd_senderEmail formData in
  buffer <~ file_arrayBuffer file ;;
  let uploadDir := path_join tmpdir "uploads" in
  let outputDir := path_join tmpdir "output" in
  ensure_dir uploadDir ;;;
  ensure_dir outputDir ;;;
  now1 <~ date_now ;;
  rnd <~ random_suffix ;;
  let uniqueSuffix := now1 +:+ "-" +:+ rnd in
  let inputFilename := "upload-" +:+ uniqueSuffix +:+ ext in
  let inputPath := path_join uploadDir inputFilename in
  fs_writeFileSync inputPath buffer ;;;
  now2 <~ date_now ;;
  let outputFilename := "validated-" +:+ now2 +:+ "-" +:+ cf_name file in
  let outputPath := path_join outputDir outputFilename in
  stats <~ processXLSXFile trim validate readEmailsFromXLSX writeResultsToXLSX
             inputPath outputPath emailColumn senderEmail ;;
  outputBuffer <~ fs_readFileSync outputPath ;;
  remove_if_exists inputPath ;;;
  remove_if_exists outputPath ;;;
  ret (cf_ok stats (base64 outputBuffer) outputFilename).

Definition onRequestPost : M E CfResponse :=
  try_catch
    (formData <~ request_formData ;;
     match fd_file formData with
     | None => ret (cf_json 400 (CfError "No file uploaded" None))
     | Some file =>
         let fileName := toLowerCase (cf_name file) in
         let ext := extname fileName in
         if negb (allowed_extension ext) then
           ret (cf_json 400 (CfError "Only .xlsx and .xls files are allowed" None))
         else if (maxSize <? cf_size file)%Z then
           ret (cf_json 400
                  (CfError "File too large"
                     (Some "File size exceeds the maximum limit of 100MB. Please use a smaller file.")))
         else cf_process formData file ext
     end)
    (λ error,
       ret (cf_json 500 (CfError "Failed to process file" (Some (errorMessage_of error))))).

End Cloudflare.

(** Only [M]-values of this shape are returned by a computation. *)
Definition returns_only {St A} (P : A → Prop) (c : M St A) : Prop :=
  ∀ s a s', c s = (Returned a, s') → P a.

(** A run of the upload function on concrete collaborators: the world is
    the list of paths written and removed. *)
Definition demo_form (size : Z) (name : string) : M (list string) FormData :=
  ret {| fd_file := Some {| cf_name := name; cf_size := size |};
         fd_emailColumn := None; fd_senderEmail := None |}.

Definition demo_extname (s : string) : string :=
  if String.eqb s "list.xlsx" then ".xlsx" else "".

Definition cf_validate (o : ValidateOptions) : M (list string) OutputFormat :=
  ret {| of_valid := true; of_reason := None; of_validators := None |}.

Definition cf_read (p : string) : M (list string) (list EmailRow) :=
  ret [ plain [("email", JStr "a@good.com")] ].

Definition cf_write (results : list ValidationResult) (p : string) : M (list string) unit :=
  λ w, (Returned tt, w ++ [p]).

Definition cf_touch (p : string) : M (list string) unit :=
  λ w, (Returned tt, w ++ [p]).

Definition cf_exists (p : string) (w : list string) : bool := bool_decide (p ∈ w).

Definition cf_readFile (p : string) : M (list string) string :=
  λ w, if bool_decide (p ∈ w) then (Returned "xlsx-bytes", w)
       else (Threw (ThrownError "ENOENT"), w).

Definition cf_unlink (p : string) : M (list string) unit :=
  λ w, (Returned tt, List.filter (λ q, negb (String.eqb p q)) w).

Definition cf_join (a b : string) : string := a +:+ "/" +:+ b.

Definition demo_cf (size : Z) (name : string) : M (list string) CfResponse :=
  onRequestPost (Buffer := string) (λ s, s) cf_validate cf_read cf_write
    (demo_form size name) (λ f, ret "bytes")
    (λ s, s) demo_extname cf_join "/tmp"
    cf_exists cf_touch (λ p b, cf_touch p) cf_readFile cf_unlink
    (ret "1700000000000") (ret "42") (λ b, b).

(** ** The upload handler of the Vercel deployment, and multer's errors *)

(** The error multer passes on: its [code] and its [message]. *)
Record MulterError := {
  me_code : option string;
  me_message : option string;
}.

(** What an upload request is answered with, in either deployment. *)
Inductive UploadAnswer :=
| MethodNotAllowed
| UploadError (error message : string)
| Answer (reply : Reply).

(** The answer to a multer error (status 400): the first middleware of
    [app.post('/api/validate-emails')] and the callback of
    [upload.single('file')] in the Vercel handler have the same text. *)
Definition upload_error_answer (err : MulterError) : UploadAnswer :=
  match me_code err with
  | Some code =>
      if String.eqb code "LIMIT_FILE_SIZE" then
        UploadError "File too large"
          "File size exceeds the maximum limit of 100MB. Please use a smaller file."
      else
        UploadError "File upload error"
          (default "Failed to upload file" (nonempty (me_message err)))
  | None =>
      UploadError "File upload error"
        (default "Failed to upload file" (nonempty (me_message err)))
  end.


Section Deployments.
Context {E : Type}.
Variable trim : string → string.
Variable validate : ValidateOptions → M E OutputFormat.
Variable readEmailsFromXLSX : string → M E (list EmailRow).
Variable writeResultsToXLSX : list ValidationResult → string → M E unit.
Variable fs_unlinkSync : string → M E unit.
Variable fs_existsSync : string → E → bool.
Variable output_path : string → string.


(** The default export of the Vercel upload handler. *)
Definition vercel_upload (method : string) (err : option MulterError) (req : Request)
    (now : string) : M E UploadAnswer :=
  if negb (String.eqb method "POST") then ret MethodNotAllowed
  else
    match err with
    | Some err => ret (upload_error_answer err)
    | None =>
        try_catch
          (match file req with
           | None => ret (Answer (BadRequest "No file uploaded"))
           | Some f =>
               let emailColumn := default "email" (nonempty (body_emailColumn req)) in
               let senderEmail := body_senderEmail req in
               let inputPath := path f in
               let outputFilename := "validated-" +:+ now +:+ "-" +:+ originalname f in
               let outputPath := output_path outputFilename in
               stats <~ processXLSXFile trim validate readEmailsFromXLSX
                          writeResultsToXLSX inputPath outputPath emailColumn
                          senderEmail ;;
               remove_if_exists fs_existsSync fs_unlinkSync inputPath ;;;
               ret (Answer
                      (Completed {| total := total stats; valid := valid stats;
                                    invalid := invalid stats |}
                                 ("/api/download/" +:+ outputFilename) outputFilename
                                 true))
           end)
          (λ error,
             let errorMessage := errorMessage_of error in
             match file req with
             | Some f => remove_if_exists fs_existsSync fs_unlinkSync (path f)
             | None => ret tt
             end ;;;
             ret (Answer (Failed errorMessage)))
    end.

End Deployments.

(** * Properties *)

(** ** Objects *)

Lemma get_set_eq (o : JsObject) k v : get (set o k v) k = v.
Proof.
  induction o as [|[k' v'] o IH]; simpl.
  - by rewrite String.eqb_refl.
  - destruct (String.eqb k' k) eqn:Hk; simpl; by rewrite Hk.
Qed.

Lemma get_set_ne (o : JsObject) k k' v : k ≠ k' → get (set o k v) k' = get o k'.
Proof.
  intros Hne. induction o as [|[k0 v0] o IH]; simpl.
  - destruct (String.eqb_spec k k'); [done | reflexivity].
  - destruct (String.eqb_spec k0 k) as [->|Hk]; simpl.
    + destruct (String.eqb_spec k k'); [done | reflexivity].
    + destruct (String.eqb_spec k0 k'); [reflexivity | apply IH].
Qed.

Lemma has_set (o : JsObject) k k' v :
  has (set o k v) k' = has o k' || String.eqb k' k.
Proof.
  unfold has, Object_keys. induction o as [|[k0 v0] o IH]; simpl.
  - by rewrite orb_false_r.
  - destruct (String.eqb_spec k0 k) as [->|Hk]; simpl.
    + destruct (String.eqb k' k); by rewrite ?orb_true_r, ?orb_false_r.
    + rewrite IH. by rewrite orb_assoc.
Qed.

Lemma result_field_false k :
  result_field k = false →
  "email" ≠ k ∧ "valid" ≠ k ∧ "reason" ≠ k ∧ "validators" ≠ k.
Proof.
  unfold result_field. rewrite !orb_false_iff.
  intros [[[H1 H2] H3] H4].
  repeat split; intros <-; by rewrite String.eqb_refl in *.
Qed.

(** ** The monad *)

Lemma for_each_app {St} (body : EmailRow → M St unit) (xs ys : list EmailRow) (s : St) :
  for_each body (xs ++ ys) s =
  (for_each body xs ;;; for_each body ys) s.
Proof.
  revert s. induction xs as [|x xs IH]; intros s; simpl.
  - reflexivity.
  - unfold bind. destruct (body x s) as [[[]|e] s1]; [|reflexivity].
    rewrite IH. reflexivity.
Qed.

Lemma bind_returned {St A B} (c : M St A) (k : A → M St B) s a s' :
  c s = (Returned a, s') → bind c k s = k a s'.
Proof. intros H. unfold bind. by rewrite H. Qed.

Lemma bind_threw {St A B} (c : M St A) (k : A → M St B) s e s' :
  c s = (Threw e, s') → bind c k s = (Threw e, s').
Proof. intros H. unfold bind. by rewrite H. Qed.

Lemma on_fst_eq {S1 S2 A} (c : M S1 A) s1 (s2 : S2) o s1' :
  c s1 = (o, s1') → on_fst c (s1, s2) = (o, (s1', s2)).
Proof. intros H. unfold on_fst; simpl. by rewrite H. Qed.

Lemma on_snd_eq {S1 S2 A} (c : M S2 A) (s1 : S1) s2 o s2' :
  c s2 = (o, s2') → on_snd c (s1, s2) = (o, (s1, s2')).
Proof. intros H. unfold on_snd; simpl. by rewrite H. Qed.

(** ** What one row contributes *)

Section RowSemantics.
Context {World : Type}.
Variable trim : string → string.
Variable validate : ValidateOptions → M World OutputFormat.

Lemma validateEmails_row_step col sender row acc w :
  validateEmails_row trim validate col sender row (acc, w) =
  (Returned tt, (acc ++ [(row_step trim validate col sender row w).1], (row_step trim validate col sender row w).2)).
Proof.
  unfold validateEmails_row, row_step.
  destruct (rejected (extract_email row col)); [reflexivity|].
  unfold try_catch, bind, on_snd, push; simpl.
  destruct (validate _ w) as [[vr|e] w']; reflexivity.
Qed.

Lemma for_each_run_rows col sender emails acc w :
  for_each (validateEmails_row trim validate col sender) emails (acc, w) =
  (Returned tt, (acc ++ (run_rows trim validate col sender emails w).1,
                 (run_rows trim validate col sender emails w).2)).
Proof.
  revert acc w. induction emails as [|row rest IH]; intros acc w; simpl.
  - by rewrite app_nil_r.
  - unfold bind. rewrite validateEmails_row_step.
    rewrite IH.
    destruct (row_step trim validate col sender row w) as [r w1]; simpl.
    destruct (run_rows trim validate col sender rest w1) as [rs w2]; simpl.
    by rewrite <- app_assoc.
Qed.

Lemma validateEmails_run_rows emails col sender w :
  validateEmails trim validate emails col sender w =
  (Returned (run_rows trim validate col sender emails w).1, (run_rows trim validate col sender emails w).2).
Proof.
  unfold validateEmails, with_results. by rewrite for_each_run_rows.
Qed.

Lemma run_rows_length col sender emails w :
  length (run_rows trim validate col sender emails w).1 = length emails.
Proof.
  revert w. induction emails as [|row rest IH]; intros w; simpl; [done|].
  destruct (row_step trim validate col sender row w) as [r w1].
  specialize (IH w1). destruct (run_rows trim validate col sender rest w1) as [rs w2].
  simpl in *. by rewrite IH.
Qed.

Lemma run_rows_app col sender xs ys w :
  run_rows trim validate col sender (xs ++ ys) w =
  let '(rs1, w1) := run_rows trim validate col sender xs w in
  let '(rs2, w2) := run_rows trim validate col sender ys w1 in
  (rs1 ++ rs2, w2).
Proof.
  revert w. induction xs as [|x xs IH]; intros w; simpl.
  - by destruct (run_rows trim validate col sender ys w).
  - destruct (row_step trim validate col sender x w) as [r w1]. rewrite IH.
    destruct (run_rows trim validate col sender xs w1) as [rs1 w2].
    by destruct (run_rows trim validate col sender ys w2).
Qed.

(** The [valid] field of every result is a boolean. *)
Lemma row_step_valid col sender row w :
  ∃ b, get (row_step trim validate col sender row w).1 "valid" = JBool b.
Proof.
  unfold row_step. destruct (rejected _).
  - exists false. simpl. unfold invalid_format_result.
    rewrite get_set_ne by done. apply get_set_eq.
  - destruct (validate _ w) as [[vr|e] w']; simpl.
    + exists (of_valid vr). unfold verdict_result.
      rewrite !get_set_ne by done. apply get_set_eq.
    + exists false. unfold error_result.
      rewrite get_set_ne by done. apply get_set_eq.
Qed.

(** Columns that are not result fields pass through unchanged. *)
Lemma row_step_passthrough col sender row w k :
  result_field k = false →
  get (row_step trim validate col sender row w).1 k = get row k ∧
  (has row k = true → has (row_step trim validate col sender row w).1 k = true).
Proof.
  intros Hk. destruct (result_field_false k Hk) as (H1 & H2 & H3 & H4).
  unfold row_step. destruct (rejected _); [|destruct (validate _ w) as [[vr|e] w']];
    simpl; unfold invalid_format_result, verdict_result, error_result;
    rewrite !get_set_ne by done; rewrite !has_set;
    (split; [reflexivity | intros ->; reflexivity]).
Qed.

End RowSemantics.

(** ** The run with a progress callback, row by row *)

Section RowSemanticsSSE.
Context {World : Type}.
Variable trim : string → string.
Variable validate : ValidateOptions → M World OutputFormat.
Variable onEmailValidated : option (@Callback World).

Lemma notify_returns (res : ValidationResult) e v r acc w :
  returns_normally onEmailValidated →
  event_of res = EvEmail e v r →
  notify onEmailValidated e v r (acc, w) = (Returned tt, (acc, notified onEmailValidated res w)).
Proof.
  intros Hcb Hev. unfold event_of in Hev. injection Hev as <- <- <-.
  unfold notify, notified. destruct onEmailValidated as [f|]; [|reflexivity].
  unfold on_snd; simpl. specialize (Hcb f eq_refl (get res "email")
    (truthy (get res "valid")) (reason_of res) w).
  destruct (f _ _ _ w) as [o w']; simpl in *. by subst o.
Qed.

(** The callback's arguments are the fields of the pushed result. *)
Lemma invalid_format_event row email :
  event_of (invalid_format_result row email) =
  EvEmail (js_or email (JStr "")) false (Some "Invalid email format").
Proof.
  unfold event_of, reason_of, invalid_format_result.
  rewrite get_set_eq. rewrite !(get_set_ne _ "reason") by done.
  rewrite get_set_eq. rewrite (get_set_ne _ "valid") by done.
  by rewrite get_set_eq.
Qed.

Lemma verdict_event row e vr :
  event_of (verdict_result row e vr) = EvEmail (JStr e) (of_valid vr) (of_reason vr).
Proof.
  unfold event_of, reason_of, verdict_result.
  rewrite !(get_set_ne _ "validators") by done.
  rewrite get_set_eq. rewrite !(get_set_ne _ "reason") by done.
  rewrite get_set_eq. rewrite (get_set_ne _ "valid") by done.
  rewrite get_set_eq. by destruct (of_reason vr).
Qed.

Lemma error_event row e error :
  event_of (error_result row e error) = EvEmail (JStr e) false (Some (error_reason error)).
Proof.
  unfold event_of, reason_of, error_result.
  rewrite get_set_eq. rewrite !(get_set_ne _ "reason") by done.
  rewrite get_set_eq. rewrite (get_set_ne _ "valid") by done.
  by rewrite get_set_eq.
Qed.

Lemma validateEmailsWithSSE_row_step col sender row acc w :
  returns_normally onEmailValidated →
  validateEmailsWithSSE_row trim validate col sender onEmailValidated row (acc, w) =
  (Returned tt, (acc ++ [(row_step_sse trim validate onEmailValidated col sender row w).1],
                 (row_step_sse trim validate onEmailValidated col sender row w).2)).
Proof.
  intros Hcb. unfold validateEmailsWithSSE_row, row_step_sse, row_step.
  destruct (rejected (extract_email row col)).
  - unfold bind, push; simpl.
    by rewrite (notify_returns _ _ _ _ _ _ Hcb (invalid_format_event row _)).
  - unfold try_catch, bind, on_snd, push; simpl.
    destruct (validate _ w) as [[vr|e] w']; simpl.
    + by rewrite (notify_returns _ _ _ _ _ _ Hcb (verdict_event row _ vr)).
    + by rewrite (notify_returns _ _ _ _ _ _ Hcb (error_event row _ e)).
Qed.

Lemma for_each_run_rows_sse col sender emails acc w :
  returns_normally onEmailValidated →
  for_each (validateEmailsWithSSE_row trim validate col sender onEmailValidated)
    emails (acc, w) =
  (Returned tt, (acc ++ (run_rows_sse trim validate onEmailValidated col sender emails w).1,
                 (run_rows_sse trim validate onEmailValidated col sender emails w).2)).
Proof.
  intros Hcb. revert acc w. induction emails as [|row rest IH]; intros acc w; simpl.
  - by rewrite app_nil_r.
  - unfold bind. rewrite validateEmailsWithSSE_row_step by done.
    rewrite IH.
    destruct (row_step_sse trim validate onEmailValidated col sender row w) as [r w1]; simpl.
    destruct (run_rows_sse trim validate onEmailValidated col sender rest w1) as [rs w2]; simpl.
    by rewrite <- app_assoc.
Qed.

Lemma validateEmailsWithSSE_run_rows emails col sender w :
  returns_normally onEmailValidated →
  validateEmailsWithSSE trim validate emails col sender onEmailValidated w =
  (Returned (run_rows_sse trim validate onEmailValidated col sender emails w).1,
   (run_rows_sse trim validate onEmailValidated col sender emails w).2).
Proof.
  intros Hcb. unfold validateEmailsWithSSE, with_results.
  by rewrite for_each_run_rows_sse.
Qed.

Lemma row_step_sse_result col sender row w :
  (row_step_sse trim validate onEmailValidated col sender row w).1 = (row_step trim validate col sender row w).1.
Proof. unfold row_step_sse. by destruct (row_step _ _ _ _ row w). Qed.

Lemma run_rows_sse_length col sender emails w :
  length (run_rows_sse trim validate onEmailValidated col sender emails w).1 = length emails.
Proof.
  revert w. induction emails as [|row rest IH]; intros w; simpl; [done|].
  destruct (row_step_sse trim validate onEmailValidated col sender row w) as [r w1].
  specialize (IH w1). destruct (run_rows_sse trim validate onEmailValidated col sender rest w1) as [rs w2].
  simpl in *. by rewrite IH.
Qed.


(** Each result, in order, is the result of its own row from some world. *)
Lemma run_rows_sse_pointwise col sender emails w :
  Forall2 (λ row r, ∃ w', r = (row_step trim validate col sender row w').1)
    emails (run_rows_sse trim validate onEmailValidated col sender emails w).1.
Proof.
  revert w. induction emails as [|row rest IH]; intros w; simpl; [constructor|].
  pose proof (row_step_sse_result col sender row w) as Hr.
  destruct (row_step_sse trim validate onEmailValidated col sender row w) as [r w1].
  specialize (IH w1). destruct (run_rows_sse trim validate onEmailValidated col sender rest w1) as [rs w2].
  simpl in *. constructor; [by exists w | done].
Qed.

End RowSemanticsSSE.

Lemma run_rows_pointwise {World} trim (validate : ValidateOptions → M World OutputFormat)
    col sender emails w :
  Forall2 (λ row r, ∃ w', r = (row_step trim validate col sender row w').1)
    emails (run_rows trim validate col sender emails w).1.
Proof.
  revert w. induction emails as [|row rest IH]; intros w; simpl; [constructor|].
  destruct (row_step trim validate col sender row w) as [r w1] eqn:Hr.
  specialize (IH w1). destruct (run_rows trim validate col sender rest w1) as [rs w2].
  simpl in *. constructor; [exists w; by rewrite Hr | done].
Qed.

(** ** C1: the statistics of a batch *)

Lemma count_valid_flag results :
  Forall (λ r, ∃ b, get r "valid" = JBool b) results →
  count_valid results = count_flag true results ∧
  count_invalid results = count_flag false results.
Proof.
  unfold count_valid, count_invalid, count_flag.
  induction 1 as [|r rs [b Hb] _ [IH1 IH2]]; simpl; [done|].
  rewrite Hb. destruct b; simpl; rewrite ?IH1, ?IH2; done.
Qed.

Lemma count_valid_invalid results :
  count_valid results + count_invalid results = length results.
Proof. unfold count_valid, count_invalid. apply List.filter_length. Qed.

Lemma pointwise_valid_bool {World} trim (validate : ValidateOptions → M World OutputFormat)
    col sender emails results :
  Forall2 (λ row r, ∃ w', r = (row_step trim validate col sender row w').1) emails results →
  Forall (λ r, ∃ b, get r "valid" = JBool b) results.
Proof.
  induction 1 as [|row r emails results [w' ->] _ IH]; constructor; [|done].
  apply row_step_valid.
Qed.

Lemma rejected_row_invalid {World} trim (validate : ValidateOptions → M World OutputFormat)
    col sender row w :
  rejected (extract_email row col) = true →
  (row_step trim validate col sender row w).1 =
    invalid_format_result row (extract_email row col) ∧
  (row_step trim validate col sender row w).2 = w.
Proof. intros H. unfold row_step. by rewrite H. Qed.

Lemma invalid_format_fields row email :
  get (invalid_format_result row email) "valid" = JBool false ∧
  get (invalid_format_result row email) "reason" = JStr "Invalid email format" ∧
  get (invalid_format_result row email) "email" = js_or email (JStr "").
Proof.
  unfold invalid_format_result. repeat split.
  - rewrite get_set_ne by done. apply get_set_eq.
  - apply get_set_eq.
  - rewrite !get_set_ne by done. apply get_set_eq.
Qed.

Section BatchStats.
Context {World : Type}.
Variable trim : string → string.
Variable validate : ValidateOptions → M World OutputFormat.
Variable readEmailsFromXLSX : string → M World (list EmailRow).
Variable writeResultsToXLSX : list ValidationResult → string → M World unit.

(** C1.  [validateEmails] always returns, with one result per input row.
    When the workbook holds the non-empty row sequence [emails] and the
    results can be written, [processXLSXFile] returns statistics whose
    [total] is the number of input rows, whose [valid] and [invalid] add
    up to [total], [valid] being the number of results with [valid] true
    and [invalid] the number with [valid] false; a row whose address was
    rejected at extraction has a result, with [valid] false. *)
Theorem C1_batch_stats inputPath outputPath col sender w emails w1 :
  readEmailsFromXLSX inputPath w = (Returned emails, w1) →
  emails ≠ [] →
  (∀ results w2,
      validateEmails trim validate emails col sender w1 = (Returned results, w2) →
      (writeResultsToXLSX results outputPath w2).1 = Returned tt) →
  ∃ results w2 stats w3,
    validateEmails trim validate emails col sender w1 = (Returned results, w2) ∧
    length results = length emails ∧
    processXLSXFile trim validate readEmailsFromXLSX writeResultsToXLSX
      inputPath outputPath col sender w = (Returned stats, w3) ∧
    total stats = length emails ∧
    valid stats + invalid stats = total stats ∧
    valid stats = count_flag true results ∧
    invalid stats = count_flag false results ∧
    Forall2 (λ row r, rejected (extract_email row col) = true →
                      get r "valid" = JBool false) emails results.
Proof.
  intros Hread Hne Hwrite.
  pose proof (validateEmails_run_rows trim validate emails col sender w1) as Hrun.
  pose proof (run_rows_length trim validate col sender emails w1) as Hlen.
  pose proof (run_rows_pointwise trim validate col sender emails w1) as Hpt.
  destruct (run_rows trim validate col sender emails w1) as [results w2]; simpl in *.
  specialize (Hwrite results w2 Hrun).
  destruct (writeResultsToXLSX results outputPath w2) as [ow w3] eqn:Hw.
  simpl in Hwrite; subst ow.
  destruct (count_valid_flag results) as [Hv Hi];
    [by eapply pointwise_valid_bool|].
  exists results, w2,
    {| total := length results; valid := count_valid results;
       invalid := count_invalid results |}, w3.
  repeat split; simpl; try done.
  - unfold processXLSXFile, bind. rewrite Hread.
    destruct emails as [|row rest]; [done|]. simpl.
    rewrite Hrun, Hw. reflexivity.
  - apply count_valid_invalid.
  - eapply Forall2_impl; [exact Hpt|].
    intros row r [w' ->] Hrej.
    destruct (rejected_row_invalid trim validate col sender row w' Hrej) as [-> _].
    apply invalid_format_fields.
Qed.

End BatchStats.

Lemma C1_batch_stats_witness :
  ∃ results w2 stats w3,
    validateEmails demo_trim demo_validate demo_rows "email" None [] = (Returned results, w2) ∧
    length results = length demo_rows ∧
    processXLSXFile demo_trim demo_validate demo_read demo_write
      "in.xlsx" "out.xlsx" "email" None [] = (Returned stats, w3) ∧
    total stats = length demo_rows ∧
    valid stats + invalid stats = total stats ∧
    valid stats = count_flag true results ∧
    invalid stats = count_flag false results ∧
    Forall2 (λ row r, rejected (extract_email row "email") = true →
                      get r "valid" = JBool false) demo_rows results.
Proof.
  apply (C1_batch_stats demo_trim demo_validate demo_read demo_write
           "in.xlsx" "out.xlsx" "email" None [] demo_rows []).
  - reflexivity.
  - discriminate.
  - intros results w2 _. reflexivity.
Defined.

Example demo_stats :
  (processXLSXFile demo_trim demo_validate demo_read demo_write
     "in.xlsx" "out.xlsx" "email" None []).1
  = Returned {| total := 5; valid := 1; invalid := 4 |}.
Proof. vm_compute. reflexivity. Qed.

(** ** C9: columns that pass through *)

Lemma pointwise_passes_through {World} trim
    (validate : ValidateOptions → M World OutputFormat) col sender emails results :
  Forall2 (λ row r, ∃ w', r = (row_step trim validate col sender row w').1) emails results →
  Forall2 passes_through emails results.
Proof.
  intros H. eapply Forall2_impl; [exact H|].
  intros row r [w' ->] k Hk. by apply row_step_passthrough.
Qed.

Lemma demo_callback_returns : returns_normally (Some demo_callback).
Proof. intros f [= <-] e v r w. reflexivity. Defined.

Section Passthrough.
Context {World : Type}.
Variable trim : string → string.
Variable validate : ValidateOptions → M World OutputFormat.
Variable onEmailValidated : option (@Callback World).

(** C9.  In the results of [validateEmails], and in those of
    [validateEmailsWithSSE] run with a callback that returns, the result
    at each position holds every column of the input row at that position
    other than [email], [valid], [reason] and [validators], with the value
    the row had. *)
Theorem C9_passthrough emails col sender w :
  returns_normally onEmailValidated →
  (∃ results w',
      validateEmails trim validate emails col sender w = (Returned results, w') ∧
      Forall2 passes_through emails results) ∧
  (∃ results w',
      validateEmailsWithSSE trim validate emails col sender onEmailValidated w
        = (Returned results, w') ∧
      Forall2 passes_through emails results).
Proof.
  intros Hcb. split.
  - eexists _, _. split; [apply validateEmails_run_rows|].
    eapply pointwise_passes_through, run_rows_pointwise.
  - eexists _, _. split; [by apply validateEmailsWithSSE_run_rows|].
    eapply pointwise_passes_through, run_rows_sse_pointwise.
Qed.

End Passthrough.

Lemma C9_passthrough_witness :
  (∃ results w',
      validateEmails demo_trim demo_validate_sse demo_rows "email" None ([], [])
        = (Returned results, w') ∧
      Forall2 passes_through demo_rows results) ∧
  (∃ results w',
      validateEmailsWithSSE demo_trim demo_validate_sse demo_rows "email" None
        (Some demo_callback) ([], []) = (Returned results, w') ∧
      Forall2 passes_through demo_rows results).
Proof.
  apply (C9_passthrough demo_trim demo_validate_sse (Some demo_callback)
           demo_rows "email" None ([], [])).
  exact demo_callback_returns.
Defined.

Example demo_passthrough :
  (validateEmails demo_trim demo_validate
     [ plain [("id", JNum 4); ("email", JStr "bad"); ("reason", JStr "mine")] ]
     "email" None []).1
  = Returned [ [("id", JNum 4); ("email", JStr "bad"); ("reason", JStr "regex");
                ("valid", JBool false); ("validators", JValidators fails_regex)] ].
Proof. vm_compute. reflexivity. Qed.

(** ** C6: rows without a usable address *)

Lemma rejected_iff email : rejected email = true ↔ unusable email.
Proof.
  unfold rejected. destruct email as [| |b|n| |s|t|v|name]; simpl;
    try (split; [done | by rewrite ?orb_true_r]).
  rewrite orb_false_r, negb_involutive.
  split; [by intros ?%String.eqb_eq | by intros ->].
Qed.



Section RejectedRows.
Context {World : Type}.
Variable trim : string → string.
Variable validate : ValidateOptions → M World OutputFormat.
Variable onEmailValidated : option (@Callback World).



End RejectedRows.



(** ** C5: a validation that throws *)

Lemma error_result_fields row e error :
  get (error_result row e error) "valid" = JBool false ∧
  get (error_result row e error) "reason"
  = JStr ("Validation error: " +:+ errorMessage_of error) ∧
  get (error_result row e error) "email" = JStr e.
Proof.
  unfold error_result, error_reason. repeat split.
  - rewrite get_set_ne by done. apply get_set_eq.
  - apply get_set_eq.
  - rewrite !get_set_ne by done. apply get_set_eq.
Qed.

Section ThrowingValidation.
Context {World : Type}.
Variable trim : string → string.
Variable validate : ValidateOptions → M World OutputFormat.
Variable onEmailValidated : option (@Callback World).



End ThrowingValidation.



(** ** A callback with a state of its own

    The callback the server passes writes to subscribers' connections and
    touches nothing [validate] depends on: the world is a pair, [validate]
    acts on the first component and the callback on the second. *)

Section ProductWorld.
Context {W S : Type}.
Variable trim : string → string.
Variable validate : ValidateOptions → M W OutputFormat.
Variable cb : JsVal → bool → option string → M S unit.

Lemma lifted_callback_returns :
  (∀ e v r s, (cb e v r s).1 = Returned tt) →
  returns_normally (Some (lifted_callback (W := W) cb)).
Proof.
  intros Hcb f [= <-] e v r [w s]. unfold lifted_callback, on_snd; simpl.
  specialize (Hcb e v r s). by destruct (cb e v r s).
Qed.

Lemma row_step_product col sender row w s :
  row_step trim (lifted_validate (S := S) validate) col sender row (w, s) =
  let '(r, w') := row_step trim validate col sender row w in (r, (w', s)).
Proof.
  unfold row_step. destruct (rejected _); [reflexivity|].
  unfold lifted_validate, on_fst; simpl.
  by destruct (validate _ w) as [[vr|e] w'].
Qed.

Lemma run_rows_sse_product col sender emails w s :
  run_rows_sse trim (lifted_validate (S := S) validate) (Some (lifted_callback (W := W) cb)) col sender emails (w, s) =
  let '(rs, w') := run_rows trim validate col sender emails w in
  (rs, (w', fold_left (told cb) rs s)).
Proof.
  revert w s. induction emails as [|row rest IH]; intros w s; simpl; [reflexivity|].
  unfold row_step_sse. rewrite row_step_product.
  destruct (row_step trim validate col sender row w) as [r w1].
  assert (notified (Some (lifted_callback (W := W) cb)) r (w1, s) = (w1, told cb s r)) as ->.
  { unfold notified, lifted_callback, told, on_snd; simpl.
    by destruct (cb _ _ _ s). }
  rewrite IH. by destruct (run_rows trim validate col sender rest w1).
Qed.

Lemma validateEmailsWithSSE_product emails col sender w s :
  (∀ e v r s, (cb e v r s).1 = Returned tt) →
  validateEmailsWithSSE trim (lifted_validate (S := S) validate) emails col sender
    (Some (lifted_callback (W := W) cb)) (w, s) =
  let '(rs, w') := run_rows trim validate col sender emails w in
  (Returned rs, (w', fold_left (told cb) rs s)).
Proof.
  intros Hcb.
  rewrite validateEmailsWithSSE_run_rows by by apply lifted_callback_returns.
  rewrite run_rows_sse_product.
  by destruct (run_rows trim validate col sender emails w).
Qed.

End ProductWorld.

Lemma validateEmailsWithSSE_no_callback {World} trim
    (validate : ValidateOptions → M World OutputFormat) emails col sender w :
  validateEmailsWithSSE trim validate emails col sender None w =
  validateEmails trim validate emails col sender w.
Proof.
  rewrite validateEmailsWithSSE_run_rows by (intros f [=]).
  rewrite validateEmails_run_rows.
  assert (∀ w, run_rows_sse trim validate None col sender emails w
               = run_rows trim validate col sender emails w) as ->; [|done].
  induction emails as [|row rest IH]; intros w'; simpl; [done|].
  unfold row_step_sse, notified.
  destruct (row_step trim validate col sender row w') as [r w1].
  by rewrite IH.
Qed.

(** ** C2: the run with and without a progress callback *)

Section Equivalence.
Context {W S : Type}.
Variable trim : string → string.
Variable validate : ValidateOptions → M W OutputFormat.
Variable cb : JsVal → bool → option string → M S unit.

(** C2, amended.  Let [validate] act on a world that the callback cannot
    touch, so that it behaves the same in both runs, and let the callback
    return normally whenever it is called.  Then for all rows, column name
    and sender, [validateEmailsWithSSE] with that callback returns exactly
    the results of [validateEmails], leaves [validate]'s world in the same
    state, and hence yields the same counts; without a callback the two
    functions coincide. *)
Theorem C2_same_results emails col sender w s :
  (∀ e v r s, (cb e v r s).1 = Returned tt) →
  ∃ results w' s',
    validateEmails trim validate emails col sender w = (Returned results, w') ∧
    validateEmailsWithSSE trim (lifted_validate validate) emails col sender
      (Some (lifted_callback cb)) (w, s) = (Returned results, (w', s')) ∧
    validateEmailsWithSSE trim validate emails col sender None w
    = (Returned results, w').
Proof.
  intros Hcb.
  exists (run_rows trim validate col sender emails w).1,
    (run_rows trim validate col sender emails w).2,
    (fold_left (told cb) (run_rows trim validate col sender emails w).1 s).
  rewrite validateEmailsWithSSE_no_callback.
  rewrite validateEmails_run_rows.
  rewrite validateEmailsWithSSE_product by done.
  by destruct (run_rows trim validate col sender emails w).
Qed.

End Equivalence.

Lemma C2_same_results_witness :
  ∃ results w' s',
    validateEmails demo_trim demo_validate demo_rows "email" None []
    = (Returned results, w') ∧
    validateEmailsWithSSE demo_trim (lifted_validate demo_validate) demo_rows "email" None
      (Some (lifted_callback demo_log_callback)) ([], []) = (Returned results, (w', s')) ∧
    validateEmailsWithSSE demo_trim demo_validate demo_rows "email" None None []
    = (Returned results, w').
Proof.
  apply (C2_same_results demo_trim demo_validate demo_log_callback demo_rows
           "email" None [] []).
  intros e v r s. reflexivity.
Defined.

(** C2 as stated fails for a callback that can throw: the call made after
    the verdict was pushed is inside the [try], so its exception is handled
    like a failed validation and a second result is pushed for the same
    row.  One valid row gives one result without the callback and two with
    it. *)
Lemma C2_counterexample :
  let emails : list EmailRow := [ plain [("email", JStr "a@good.com")] ] in
  ∃ r1 r2,
    (validateEmails demo_trim demo_validate emails "email" None []).1
    = Returned [r1] ∧
    (validateEmailsWithSSE demo_trim (lifted_validate demo_validate) emails "email" None
       (Some (lifted_callback picky_callback)) ([], [])).1
    = Returned [r1; r2] ∧
    get r1 "valid" = JBool true ∧
    get r2 "valid" = JBool false ∧
    (validateEmailsWithSSE demo_trim (lifted_validate demo_validate) emails "email" None
       (Some (lifted_callback picky_callback)) ([], [])).1
    ≠ (validateEmails demo_trim demo_validate emails "email" None []).1.
Proof.
  eexists _, _. vm_compute. repeat split. discriminate.
Qed.

(** ** C7: which address is submitted, and in what order *)

Lemma get_first_field row : get_computed row (head (Object_keys row)) = first_field row.
Proof.
  destruct row as [[|[k v] columns] others]; unfold first_field; simpl; [reflexivity|].
  unfold get_computed, row_get; simpl. by rewrite String.eqb_refl.
Qed.

Lemma get_app_absent (o o' : JsObject) k : has o k = false → get (o ++ o') k = get o' k.
Proof.
  unfold has, Object_keys. induction o as [|[k' v] o IH]; simpl; [done|].
  rewrite orb_false_iff. intros [Hk Hrest].
  rewrite String.eqb_sym, Hk. by apply IH.
Qed.

Lemma get_absent (o : JsObject) k : has o k = false → get o k = inherited k.
Proof. intros H. rewrite <- (app_nil_r o). by rewrite get_app_absent. Qed.

Lemma row_get_absent (row : EmailRow) k : absent row k = true → row_get row k = JUndefined.
Proof.
  unfold absent. rewrite negb_true_iff, !orb_false_iff. intros [[Hc Hh] Hp].
  unfold row_get. rewrite (get_app_absent _ _ _ Hc), (get_absent _ _ Hh).
  unfold inherited. by rewrite Hp.
Qed.

Lemma row_get_inherited (row : EmailRow) k :
  has row k = false → has (hidden row) k = false →
  existsb (String.eqb k) Object_prototype = true →
  row_get row k = JBuiltin k.
Proof.
  intros Hc Hh Hp.
  unfold row_get. rewrite (get_app_absent _ _ _ Hc), (get_absent _ _ Hh).
  unfold inherited. by rewrite Hp.
Qed.

Lemma extract_email_spec row col :
  extract_email row col =
  if truthy (row_get row col) then row_get row col else first_field row.
Proof. unfold extract_email, js_or. by rewrite get_first_field. Qed.

Lemma row_step_email {World} trim (validate : ValidateOptions → M World OutputFormat)
    col sender row w :
  get (row_step trim validate col sender row w).1 "email" = recorded_email trim col row.
Proof.
  unfold row_step, recorded_email. destruct (rejected _).
  - apply invalid_format_fields.
  - destruct (validate _ w) as [[vr|e] w']; simpl.
    + unfold verdict_result. rewrite !get_set_ne by done. apply get_set_eq.
    + apply error_result_fields.
Qed.

Lemma logged_calls {World} trim (validate : ValidateOptions → M World OutputFormat)
    col sender emails calls w :
  (run_rows trim (logged validate) col sender emails (calls, w)).2.1
  = calls ++ omap (submitted trim col sender) emails.
Proof.
  revert calls w. induction emails as [|row rest IH]; intros calls w; simpl.
  - by rewrite app_nil_r.
  - unfold row_step, submitted.
    destruct (rejected (extract_email row col)).
    + specialize (IH calls w).
      destruct (run_rows trim (logged validate) col sender rest (calls, w)) as [rs w2].
      exact IH.
    + unfold logged at 1; simpl.
      destruct (validate _ w) as [[vr|e] w1];
        specialize (IH (calls ++ [validate_options (trim (str_of (extract_email row col))) sender]) w1);
        destruct (run_rows trim (logged validate) col sender rest _) as [rs w2];
        simpl in *; rewrite IH; by rewrite <- app_assoc.
Qed.

Section Extraction.
Context {World S : Type}.
Variable trim : string → string.
Variable validate : ValidateOptions → M World OutputFormat.
Variable cb : JsVal → bool → option string → M S unit.

(** C7, amended.  The value taken from a row is [row[emailColumn]] when
    that value is truthy, and the value of the row's first field
    otherwise, that is, when [row[emailColumn]] finds no property or finds
    a falsy value (the empty string, 0, [false], [null]).
    [row[emailColumn]] is a property read: for a name that is not a
    column it still finds a property that is not enumerable or one that
    the row inherits from [Object.prototype]; the value taken is then that
    property, a truthy value that is not a string, so that the row is
    rejected and nothing is submitted for it.  When the value taken is a
    non-empty string, [validate] is called with it, trimmed.  Rows are
    visited in input order: the calls [validate] receives are those of the
    rows that are not rejected, in row order, and the result at each
    position records the address of the row at that position; this holds
    with and without a callback that returns. *)
Theorem C7_extraction_and_order emails col sender w s :
  (∀ e v r s, (cb e v r s).1 = Returned tt) →
  (∀ row : EmailRow,
      (truthy (row_get row col) = true → extract_email row col = row_get row col) ∧
      (truthy (row_get row col) = false → extract_email row col = first_field row) ∧
      (absent row col = true → extract_email row col = first_field row) ∧
      (has row col = false → has (hidden row) col = false →
       existsb (String.eqb col) Object_prototype = true →
       extract_email row col = JBuiltin col) ∧
      (truthy (row_get row col) = true → is_string (row_get row col) = false →
       submitted trim col sender row = None ∧
       recorded_email trim col row = row_get row col) ∧
      (∀ address, extract_email row col = JStr address → address ≠ "" →
       submitted trim col sender row = Some (validate_options (trim address) sender) ∧
       recorded_email trim col row = JStr (trim address))) ∧
  (∃ results calls w',
      validateEmails trim (logged validate) emails col sender ([], w)
      = (Returned results, (calls, w')) ∧
      calls = omap (submitted trim col sender) emails ∧
      Forall2 (λ row r, get r "email" = recorded_email trim col row) emails results) ∧
  (∃ results calls w' s',
      validateEmailsWithSSE trim (lifted_validate (logged validate)) emails col sender
        (Some (lifted_callback cb)) (([], w), s)
      = (Returned results, ((calls, w'), s')) ∧
      calls = omap (submitted trim col sender) emails ∧
      Forall2 (λ row r, get r "email" = recorded_email trim col row) emails results).
Proof.
  intros Hcb.
  pose proof (logged_calls trim validate col sender emails [] w) as Hcalls.
  pose proof (run_rows_pointwise trim (logged validate) col sender emails ([], w)) as Hpt.
  assert (Forall2 (λ row r, get r "email" = recorded_email trim col row) emails
            (run_rows trim (logged validate) col sender emails ([], w)).1) as Hemail.
  { eapply Forall2_impl; [exact Hpt|]. intros row r [w' ->]. apply row_step_email. }
  split; [|split].
  - intros row. split; [|split; [|split; [|split; [|split]]]].
    + rewrite extract_email_spec. by intros ->.
    + rewrite extract_email_spec. by intros ->.
    + intros Habs. rewrite extract_email_spec. by rewrite (row_get_absent row col Habs).
    + intros Hc Hh Hp. rewrite extract_email_spec.
      by rewrite (row_get_inherited row col Hc Hh Hp).
    + intros Ht Hs. unfold submitted, recorded_email.
      rewrite extract_email_spec, Ht.
      assert (rejected (row_get row col) = true) as ->.
      { unfold rejected. by rewrite Hs, orb_true_r. }
      split; [reflexivity|]. unfold js_or. by rewrite Ht.
    + intros address Ha Hne. unfold submitted, recorded_email. rewrite Ha.
      assert (rejected (JStr address) = false) as ->.
      { unfold rejected; simpl. rewrite orb_false_r, negb_involutive.
        by apply String.eqb_neq. }
      done.
  - rewrite validateEmails_run_rows.
    destruct (run_rows trim (logged validate) col sender emails ([], w))
      as [results [calls w']]; simpl in *.
    by exists results, calls, w'.
  - rewrite validateEmailsWithSSE_product by done.
    destruct (run_rows trim (logged validate) col sender emails ([], w))
      as [results [calls w']]; simpl in *.
    by eexists results, calls, w', _.
Qed.

End Extraction.

Lemma C7_extraction_and_order_witness :
  ∃ results calls w',
    validateEmails demo_trim (logged demo_validate) demo_rows "email" None ([], [])
    = (Returned results, (calls, w')) ∧
    calls = omap (submitted demo_trim "email" None) demo_rows ∧
    vo_email <$> calls = ["a@good.com"; "bad"; "user@disposable.test"; "boom@slow.test"] ∧
    Forall2 (λ row r, get r "email" = recorded_email demo_trim "email" row)
      demo_rows results.
Proof.
  destruct (proj1 (proj2
    (C7_extraction_and_order demo_trim demo_validate demo_log_callback demo_rows
       "email" None [] [] ltac:(intros; reflexivity))))
    as (results & calls & w' & Hrun & Hcalls & Hemail).
  exists results, calls, w'. repeat split; try done.
  rewrite Hcalls. reflexivity.
Defined.

(** C7 as stated fails in both directions.  A row in which the named
    column is present but empty is not rejected: the address of its first
    field is submitted.  A row in which the named column is absent does not
    fall back to its first field when the name is that of a property every
    row inherits, or of the mark the workbook reader leaves on a row: the
    value taken is that property, the row is rejected, and [validate] is
    not called. *)
Lemma C7_counterexample :
  let row : EmailRow := plain [("name", JStr "bob@example.com"); ("email", JStr "")] in
  let marked : EmailRow := sheet_row 1 [("address", JStr "ann@example.com")] in
  (has row "email" = true ∧
   row_get row "email" = JStr "" ∧
   extract_email row "email" = JStr "bob@example.com" ∧
   extract_email row "email" ≠ row_get row "email" ∧
   (validateEmails demo_trim (logged demo_validate) [row] "email" None ([], [])).2.1
   = [validate_options "bob@example.com" None]) ∧
  (has marked "constructor" = false ∧
   first_field marked = JStr "ann@example.com" ∧
   extract_email marked "constructor" = JBuiltin "constructor" ∧
   validateEmails demo_trim (logged demo_validate) [marked] "constructor" None ([], [])
   = (Returned [ [("address", JStr "ann@example.com");
                  ("email", JBuiltin "constructor"); ("valid", JBool false);
                  ("reason", JStr "Invalid email format")] ], ([], []))) ∧
  (has marked "__rowNum__" = false ∧
   extract_email marked "__rowNum__" = JNum 1 ∧
   validateEmails demo_trim (logged demo_validate) [marked] "__rowNum__" None ([], [])
   = (Returned [ [("address", JStr "ann@example.com");
                  ("email", JNum 1); ("valid", JBool false);
                  ("reason", JStr "Invalid email format")] ], ([], []))) ∧
  validateEmails demo_trim (logged demo_validate) [marked] "email" None ([], [])
  = (Returned [ [("address", JStr "ann@example.com");
                 ("email", JStr "ann@example.com"); ("valid", JBool false);
                 ("reason", JStr "regex"); ("validators", JValidators fails_regex)] ],
     ([validate_options "ann@example.com" None],
      [validate_options "ann@example.com" None])).
Proof.
  repeat split. discriminate.
Qed.

(** ** The registry *)

Lemma update_response_connections res f st :
  sseConnections (update_response res f st) = sseConnections st.
Proof. reflexivity. Qed.

Lemma update_response_eq res f st r :
  responses st !! res = Some r →
  responses (update_response res f st) !! res = Some (f r).
Proof.
  intros H. unfold update_response; simpl. rewrite H.
  apply list_lookup_insert_eq. by eapply lookup_lt_Some.
Qed.

Lemma update_response_ne res res' f st :
  res ≠ res' →
  responses (update_response res f st) !! res' = responses st !! res'.
Proof.
  intros Hne. unfold update_response; simpl.
  destruct (responses st !! res); [|done]. by apply list_lookup_insert_ne.
Qed.

Lemma update_response_missing res f st :
  responses st !! res = None → update_response res f st = st.
Proof. intros H. unfold update_response. rewrite H. by destruct st. Qed.

Lemma sendSSEMessage_returns sessionId data st :
  (sendSSEMessage sessionId data st).1 = Returned tt.
Proof.
  unfold sendSSEMessage. destruct (sseConnections st !! sessionId) as [c|]; [|done].
  unfold try_catch, bind, res_write, res_flush_if_available, connections_delete.
  destruct (responses st !! c) as [r|] eqn:Hr.
  - destruct (wr r (chunks r) data); [done|].
    rewrite (update_response_eq c _ st r Hr).
    destruct (flush (add_chunk data r)) as [fl|]; [|done].
    by destruct (fl _).
  - by rewrite Hr.
Qed.

Lemma sendSSEMessage_absent sessionId data st :
  sseConnections st !! sessionId = None →
  sendSSEMessage sessionId data st = (Returned tt, st).
Proof. intros H. unfold sendSSEMessage. by rewrite H. Qed.

Lemma without_lookup sessionId st : sseConnections (without sessionId st) !! sessionId = None.
Proof. apply lookup_delete_eq. Qed.

(** C4.  [sendSSEMessage] never raises.  When the session has no entry it
    leaves the state as it is.  When the entry exists and writing to its
    connection throws, or the write returns and the flush throws, the
    entry is removed (nothing else changes beyond what was written) and
    the call returns normally; from then on every publish for that session
    leaves the state as it is. *)
Theorem C4_publish_best_effort sessionId data st :
  (sendSSEMessage sessionId data st).1 = Returned tt ∧
  (sseConnections st !! sessionId = None →
     sendSSEMessage sessionId data st = (Returned tt, st)) ∧
  (∀ c r e,
     sseConnections st !! sessionId = Some c →
     responses st !! c = Some r →
     wr r (chunks r) data = Some e →
     sendSSEMessage sessionId data st = (Returned tt, without sessionId st) ∧
     ∀ data', sendSSEMessage sessionId data' (without sessionId st)
              = (Returned tt, without sessionId st)) ∧
  (∀ c r fl e,
     sseConnections st !! sessionId = Some c →
     responses st !! c = Some r →
     wr r (chunks r) data = None →
     flush r = Some fl →
     fl (chunks r ++ [data]) = Some e →
     let st' := without sessionId (update_response c (add_chunk data) st) in
     sendSSEMessage sessionId data st = (Returned tt, st') ∧
     ∀ data', sendSSEMessage sessionId data' st' = (Returned tt, st')).
Proof.
  split; [apply sendSSEMessage_returns|].
  split; [apply sendSSEMessage_absent|].
  split.
  - intros c r e Hc Hr Hwr. split.
    + unfold sendSSEMessage. rewrite Hc.
      unfold try_catch, bind, res_write. by rewrite Hr, Hwr.
    + intros data'. apply sendSSEMessage_absent, without_lookup.
  - intros c r fl e Hc Hr Hwr Hfl Hthrow st'. split.
    + unfold sendSSEMessage. rewrite Hc.
      unfold try_catch, bind, res_write, res_flush_if_available.
      rewrite Hr, Hwr. rewrite (update_response_eq c _ st r Hr).
      simpl. rewrite Hfl, Hthrow. reflexivity.
    + intros data'. apply sendSSEMessage_absent, without_lookup.
Qed.

Lemma C4_publish_best_effort_witness :
  let st0 := (accept broken_wr None empty_server).2 in
  let st1 := (connections_set "s1" 0 st0).2 in
  sseConnections st1 !! "s1" = Some 0 ∧
  sendSSEMessage "s1" (EvStart 3) st1 = (Returned tt, without "s1" st1) ∧
  sseConnections (without "s1" st1) !! "s1" = None ∧
  sendSSEMessage "s1" (EvStart 3) empty_server = (Returned tt, empty_server).
Proof.
  split; [reflexivity|]. split; [|split; [reflexivity|]].
  - eapply (proj1 (proj2 (proj2 (C4_publish_best_effort "s1" (EvStart 3) _)))).
    + reflexivity.
    + reflexivity.
    + reflexivity.
  - apply (proj1 (proj2 (C4_publish_best_effort "s1" (EvStart 3) empty_server))).
    reflexivity.
Defined.

(** ** Registering a subscriber *)

Lemma update_response_Some res f st r :
  responses st !! res = Some r →
  update_response res f st =
  {| sseConnections := sseConnections st; responses := <[res := f r]> (responses st) |}.
Proof. intros H. unfold update_response. by rewrite H. Qed.

Lemma nonempty_Some s : s ≠ "" → nonempty (Some s) = Some s.
Proof. intros H. simpl. by destruct (String.eqb_spec s ""). Qed.

Lemma update_response_twice res f g st :
  update_response res f (update_response res g st)
  = update_response res (λ r, f (g r)) st.
Proof.
  destruct (responses st !! res) as [r|] eqn:Hr.
  - rewrite (update_response_Some res g st r Hr).
    rewrite (update_response_Some res _ st r Hr).
    unfold update_response; simpl.
    rewrite list_lookup_insert_eq by by eapply lookup_lt_Some.
    by rewrite list_insert_insert_eq.
  - rewrite (update_response_missing res g st Hr).
    by rewrite !(update_response_missing res _ st Hr).
Qed.

Lemma validate_emails_stream_registers sessionId res resp st :
  sessionId ≠ "" →
  responses st !! res = Some resp →
  wr resp (chunks resp) (EvConnected sessionId) = None →
  validate_emails_stream (Some sessionId) res st
  = (Returned tt, registered sessionId res resp st).
Proof.
  intros Hsid Hres Hwr. unfold validate_emails_stream.
  rewrite (nonempty_Some _ Hsid).
  assert (res < length (responses st)) as Hlt by by eapply lookup_lt_Some.
  unfold bind, setHeader, connections_set.
  rewrite !update_response_twice.
  rewrite (update_response_Some res _ st resp Hres).
  unfold res_write, set_connections; simpl.
  rewrite list_lookup_insert_eq by done.
  change (wr (add_header _ _ (add_header _ _ (add_header _ _ (add_header _ _ resp)))))
    with (wr resp).
  change (chunks (add_header _ _ (add_header _ _ (add_header _ _ (add_header _ _ resp)))))
    with (chunks resp).
  rewrite Hwr.
  erewrite update_response_Some by (simpl; by apply list_lookup_insert_eq).
  simpl. by rewrite list_insert_insert_eq.
Qed.

(** C3, amended.  A registration for a session identifier that already
    has a subscriber does not fail: the handler returns normally, sends no
    error status, and the registry entry of the identifier now names the
    new subscriber's connection.  The first subscriber's connection is
    left as it was (neither written to nor ended) but is no longer the
    one the registry gives for that session. *)
Theorem C3_second_registration_replaces sessionId st first second resp :
  sessionId ≠ "" →
  sseConnections st !! sessionId = Some first →
  first ≠ second →
  responses st !! second = Some resp →
  wr resp (chunks resp) (EvConnected sessionId) = None →
  ∃ st' resp',
    validate_emails_stream (Some sessionId) second st = (Returned tt, st') ∧
    sseConnections st' !! sessionId = Some second ∧
    responses st' !! first = responses st !! first ∧
    responses st' !! second = Some resp' ∧
    chunks resp' = chunks resp ++ [EvConnected sessionId] ∧
    status resp' = status resp ∧
    ended resp' = ended resp.
Proof.
  intros Hsid Hfirst Hne Hres Hwr.
  exists (registered sessionId second resp st),
    (add_chunk (EvConnected sessionId) (sse_headers resp)).
  split; [by apply validate_emails_stream_registers|].
  unfold registered; simpl. repeat split.
  - apply lookup_insert_eq.
  - by apply list_lookup_insert_ne.
  - apply list_lookup_insert_eq. by eapply lookup_lt_Some.
Qed.

Lemma C3_second_registration_replaces_witness :
  sseConnections two_subscribers !! "s1" = Some 0 ∧
  ∃ st' resp',
    validate_emails_stream (Some "s1") 1 two_subscribers = (Returned tt, st') ∧
    sseConnections st' !! "s1" = Some 1 ∧
    responses st' !! 0 = responses two_subscribers !! 0 ∧
    responses st' !! 1 = Some resp' ∧
    chunks resp' = [] ++ [EvConnected "s1"] ∧
    status resp' = None ∧
    ended resp' = false.
Proof.
  split; [reflexivity|].
  apply (C3_second_registration_replaces "s1" two_subscribers 0 1
           (fresh_response working_wr None)).
  - discriminate.
  - reflexivity.
  - lia.
  - reflexivity.
  - reflexivity.
Defined.

(** C3 as stated fails: registering "s1" twice without a close in between
    raises nothing on the second call, which answers with the event stream
    and not with an error status, and the registry entry that named the
    first connection names the second one afterwards. *)
Lemma C3_counterexample :
  let second := validate_emails_stream (Some "s1") 1 two_subscribers in
  sseConnections two_subscribers !! "s1" = Some 0 ∧
  second.1 = Returned tt ∧
  (status <$> responses second.2 !! 1) = Some None ∧
  (chunks <$> responses second.2 !! 1) = Some [EvConnected "s1"] ∧
  sseConnections second.2 !! "s1" = Some 1 ∧
  sseConnections second.2 !! "s1" ≠ sseConnections two_subscribers !! "s1".
Proof.
  repeat split. discriminate.
Qed.

(** ** What can happen to the registry over time *)

Lemma extends_refl res st : extends res st st.
Proof. intros r Hr. by exists r. Qed.

Lemma extends_trans res st1 st2 st3 :
  extends res st1 st2 → extends res st2 st3 → extends res st1 st3.
Proof.
  intros H12 H23 r Hr. destruct (H12 r Hr) as (r2 & Hr2 & Hp2).
  destruct (H23 r2 Hr2) as (r3 & Hr3 & Hp3). exists r3. split; [done|].
  by etrans.
Qed.

Lemma update_response_extends res0 f res st :
  (∀ r, chunks r `prefix_of` chunks (f r)) →
  extends res st (update_response res0 f st).
Proof.
  intros Hf r Hr. destruct (decide (res0 = res)) as [->|Hne].
  - exists (f r). split; [by apply update_response_eq | apply Hf].
  - exists r. split; [by rewrite update_response_ne | done].
Qed.

Lemma monotone_ret {A} (a : A) : monotone (ret a).
Proof. intros res st. apply extends_refl. Qed.

Lemma monotone_bind {A B} (c : M ServerState A) (k : A → M ServerState B) :
  monotone c → (∀ a, monotone (k a)) → monotone (bind c k).
Proof.
  intros Hc Hk res st. unfold bind. specialize (Hc res st).
  destruct (c st) as [[a|e] s1]; simpl in *; [|done].
  eapply extends_trans; [exact Hc | apply Hk].
Qed.

Lemma monotone_try_catch {A} (c : M ServerState A) (h : Thrown → M ServerState A) :
  monotone c → (∀ e, monotone (h e)) → monotone (try_catch c h).
Proof.
  intros Hc Hh res st. unfold try_catch. specialize (Hc res st).
  destruct (c st) as [[a|e] s1]; simpl in *; [done|].
  eapply extends_trans; [exact Hc | apply Hh].
Qed.

Lemma monotone_setHeader res name value : monotone (setHeader res name value).
Proof. intros res' st. by apply update_response_extends. Qed.

Lemma monotone_res_write res data : monotone (res_write res data).
Proof.
  intros res' st. unfold res_write.
  destruct (responses st !! res) as [r|]; [|apply extends_refl].
  destruct (wr r (chunks r) data); [apply extends_refl|].
  apply update_response_extends. intros r'. by apply prefix_app_r.
Qed.

Lemma monotone_res_flush res : monotone (res_flush_if_available res).
Proof.
  intros res' st. unfold res_flush_if_available.
  destruct (responses st !! res) as [r|]; [|apply extends_refl].
  destruct (flush r) as [fl|]; [|apply extends_refl].
  destruct (fl (chunks r)); apply extends_refl.
Qed.

Lemma monotone_res_end res : monotone (res_end res).
Proof. intros res' st. by apply update_response_extends. Qed.

Lemma monotone_res_status_json res code : monotone (res_status_json res code).
Proof. intros res' st. by apply update_response_extends. Qed.

Lemma monotone_connections_set sessionId res : monotone (connections_set sessionId res).
Proof. intros res' st r Hr. by exists r. Qed.

Lemma monotone_connections_delete sessionId : monotone (connections_delete sessionId).
Proof. intros res' st r Hr. by exists r. Qed.

Create HintDb monotone.
#[local] Hint Resolve monotone_ret monotone_setHeader monotone_res_write
  monotone_res_flush monotone_res_end monotone_res_status_json
  monotone_connections_set monotone_connections_delete : monotone.

Lemma monotone_sendSSEMessage sessionId data : monotone (sendSSEMessage sessionId data).
Proof.
  intros res st. unfold sendSSEMessage.
  destruct (sseConnections st !! sessionId) as [c|]; [|apply extends_refl].
  apply monotone_try_catch; [apply monotone_bind|]; auto with monotone.
Qed.

Lemma monotone_close_connection sessionId : monotone (close_connection sessionId).
Proof.
  intros res st. unfold close_connection.
  destruct (sseConnections st !! sessionId) as [c|]; [|apply extends_refl].
  apply monotone_bind; auto with monotone.
Qed.

Lemma monotone_validate_emails_stream session res :
  monotone (validate_emails_stream session res).
Proof.
  unfold validate_emails_stream. destruct (nonempty session); [|auto with monotone].
  repeat (apply monotone_bind; [auto with monotone | intros _]).
  auto with monotone.
Qed.

Lemma monotone_on_close sessionId res : monotone (on_close sessionId res).
Proof. unfold on_close. apply monotone_bind; auto with monotone. Qed.

Lemma step_extends res st op : extends res st (step st op).
Proof.
  destruct op as [w f|session r|sid r|sid data|sid]; unfold step.
  - intros r Hr. exists r. split; [|done]. simpl. by apply lookup_app_l_Some.
  - apply monotone_validate_emails_stream.
  - apply monotone_on_close.
  - apply monotone_sendSSEMessage.
  - apply monotone_close_connection.
Qed.

Lemma run_ops_extends res ops st : extends res st (run_ops ops st).
Proof.
  revert st. induction ops as [|op ops IH]; intros st; simpl.
  - apply extends_refl.
  - eapply extends_trans; [apply step_extends | apply IH].
Qed.

(** ** C10: the first event a subscriber receives *)

(** C10.  When the stream handler runs for a session identifier on the
    response object of its request, on which nothing has been written, and
    its write succeeds, the handler returns with the identifier registered
    to that response and with exactly one event written on it, the
    [connected] event carrying the identifier.  The write is the step that
    follows the registration inside the handler, and whatever happens to
    the server afterwards (publishing by any batch included), that event
    stays the first one on the response. *)
Theorem C10_connected_first sessionId res resp st :
  sessionId ≠ "" →
  responses st !! res = Some resp →
  chunks resp = [] →
  wr resp [] (EvConnected sessionId) = None →
  ∃ st',
    validate_emails_stream (Some sessionId) res st = (Returned tt, st') ∧
    sseConnections st' !! sessionId = Some res ∧
    (chunks <$> responses st' !! res) = Some [EvConnected sessionId] ∧
    ∀ ops, ∃ r,
      responses (run_ops ops st') !! res = Some r ∧
      head (chunks r) = Some (EvConnected sessionId).
Proof.
  intros Hsid Hres Hfresh Hwr.
  assert (res < length (responses st)) as Hlt by by eapply lookup_lt_Some.
  exists (registered sessionId res resp st).
  split; [apply validate_emails_stream_registers; by rewrite ?Hfresh|].
  assert (responses (registered sessionId res resp st) !! res
          = Some (add_chunk (EvConnected sessionId) (sse_headers resp))) as Hnow.
  { unfold registered; simpl. by apply list_lookup_insert_eq. }
  split; [apply lookup_insert_eq|]. split.
  - rewrite Hnow. simpl. by rewrite Hfresh.
  - intros ops.
    destruct (run_ops_extends res ops _ _ Hnow) as (r & Hr & Hpre).
    exists r. split; [done|].
    simpl in Hpre. rewrite Hfresh in Hpre. simpl in Hpre.
    destruct Hpre as [k ->]. reflexivity.
Qed.

Lemma C10_connected_first_witness :
  let st0 := (accept working_wr None empty_server).2 in
  ∃ st',
    validate_emails_stream (Some "s1") 0 st0 = (Returned tt, st') ∧
    sseConnections st' !! "s1" = Some 0 ∧
    (chunks <$> responses st' !! 0) = Some [EvConnected "s1"] ∧
    ∀ ops, ∃ r,
      responses (run_ops ops st') !! 0 = Some r ∧
      head (chunks r) = Some (EvConnected "s1").
Proof.
  apply (C10_connected_first "s1" 0 (fresh_response working_wr None)).
  - discriminate.
  - reflexivity.
  - reflexivity.
  - reflexivity.
Defined.

Example subscriber_sees_connected_then_events :
  let st0 := (accept working_wr None empty_server).2 in
  let st := run_ops [OpStream (Some "s1") 0; OpPublish "s1" (EvStart 2);
                     OpPublish "s2" (EvStart 9);
                     OpPublish "s1" (EvEmail (JStr "a@good.com") true None)] st0 in
  (chunks <$> responses st !! 0)
  = Some [EvConnected "s1"; EvStart 2; EvEmail (JStr "a@good.com") true None].
Proof. reflexivity. Qed.

(** ** Publishing to a subscriber whose connection works *)

Lemma update_response_ext res f g st :
  (∀ r, f r = g r) → update_response res f st = update_response res g st.
Proof.
  intros H. unfold update_response.
  destruct (responses st !! res) as [r|]; [|done]. by rewrite H.
Qed.

Lemma healthy_update sessionId c st f :
  (∀ r, wr (f r) = wr r ∧ flush (f r) = flush r) →
  healthy sessionId c st → healthy sessionId c (update_response c f st).
Proof.
  intros Hf [Hc (r & Hr & Hw & Hfl)]. split; [done|].
  exists (f r). split; [by apply update_response_eq|].
  destruct (Hf r) as [Hwr Hflush]. split.
  - intros written data. by rewrite Hwr.
  - intros fl. rewrite Hflush. apply Hfl.
Qed.

Lemma sendSSEMessage_healthy sessionId c data st :
  healthy sessionId c st →
  sendSSEMessage sessionId data st
  = (Returned tt, update_response c (add_chunks [data]) st).
Proof.
  intros [Hc (r & Hr & Hw & Hfl)]. unfold sendSSEMessage. rewrite Hc.
  unfold try_catch, bind, res_write, res_flush_if_available.
  rewrite Hr, Hw. rewrite (update_response_eq c _ st r Hr).
  change (flush (add_chunk data r)) with (flush r).
  destruct (flush r) as [fl|] eqn:Hflush; [rewrite (Hfl fl eq_refl)|]; reflexivity.
Qed.

Lemma add_chunks_twice c l1 l2 st :
  update_response c (add_chunks l2) (update_response c (add_chunks l1) st)
  = update_response c (add_chunks (l1 ++ l2)) st.
Proof.
  rewrite update_response_twice. apply update_response_ext.
  intros r. unfold add_chunks; simpl. by rewrite <- app_assoc.
Qed.

Lemma close_connection_healthy sessionId c st :
  healthy sessionId c st →
  close_connection sessionId st
  = (Returned tt, without sessionId (update_response c mark_ended st)).
Proof. intros [Hc _]. unfold close_connection. by rewrite Hc. Qed.

(** ** C8: the events of one run *)



Lemma close_connection_returns sessionId st :
  (close_connection sessionId st).1 = Returned tt.
Proof. unfold close_connection. by destruct (sseConnections st !! sessionId). Qed.

(** What a publish leaves as it is: the entries of the other sessions, and
    every response but the one registered for the session. *)
Lemma sendSSEMessage_frame sessionId data st :
  let st' := (sendSSEMessage sessionId data st).2 in
  (∀ other, other ≠ sessionId →
            sseConnections st' !! other = sseConnections st !! other) ∧
  (∀ res, sseConnections st !! sessionId ≠ Some res →
          responses st' !! res = responses st !! res) ∧
  length (responses st') = length (responses st).
Proof.
  intros st'. subst st'. unfold sendSSEMessage.
  destruct (sseConnections st !! sessionId) as [c|] eqn:Hc; [|done].
  unfold try_catch, bind, res_write, res_flush_if_available, connections_delete.
  assert (∀ f, length (responses (update_response c f st)) = length (responses st))
    as Hlen.
  { intros f. unfold update_response; simpl.
    destruct (responses st !! c); [apply length_insert | done]. }
  destruct (responses st !! c) as [r|] eqn:Hr.
  - destruct (wr r (chunks r) data) as [e|].
    + cbn [fst snd]. repeat split; try done.
      intros other Hne. by apply lookup_delete_ne.
    + rewrite (update_response_eq c _ st r Hr).
      change (flush (add_chunk data r)) with (flush r).
      destruct (flush r) as [fl|];
        [destruct (fl (chunks (add_chunk data r))) as [e|]|]; cbn [fst snd].
      * split; [intros other Hne; by apply lookup_delete_ne|].
        split; [|apply Hlen].
        intros res Hres. apply update_response_ne. by intros ->.
      * split; [done|]. split; [|apply Hlen].
        intros res Hres. apply update_response_ne. by intros ->.
      * split; [done|]. split; [|apply Hlen].
        intros res Hres. apply update_response_ne. by intros ->.
  - rewrite Hr. by cbn [fst snd].
Qed.

Lemma on_close_state sessionId res st :
  on_close sessionId res st
  = (Returned tt, update_response res mark_ended (without sessionId st)).
Proof. reflexivity. Qed.

Lemma sendSSEMessage_shrinks sessionId data st :
  let st' := (sendSSEMessage sessionId data st).2 in
  (∀ sid c, sseConnections st' !! sid = Some c → sseConnections st !! sid = Some c) ∧
  (∀ c r, responses st !! c = Some r →
          ∃ r', responses st' !! c = Some r' ∧ ended r' = ended r).
Proof.
  intros st'. subst st'. unfold sendSSEMessage.
  destruct (sseConnections st !! sessionId) as [c0|] eqn:Hc;
    [|split; [done | intros c r Hr; by exists r]].
  assert (∀ c r, responses st !! c = Some r →
            ∃ r', responses (update_response c0 (add_chunk data) st) !! c = Some r' ∧
                  ended r' = ended r) as Hupd.
  { intros c r Hr. destruct (decide (c0 = c)) as [->|Hne].
    - exists (add_chunk data r). split; [by apply update_response_eq | done].
    - exists r. split; [by rewrite update_response_ne | done]. }
  assert (∀ (m : gmap string nat) sid c,
            delete sessionId m !! sid = Some c → m !! sid = Some c) as Hdel.
  { intros m sid c. destruct (decide (sessionId = sid)) as [->|Hne].
    - by rewrite lookup_delete_eq.
    - by rewrite lookup_delete_ne. }
  unfold try_catch, bind, res_write, res_flush_if_available, connections_delete.
  destruct (responses st !! c0) as [r0|] eqn:Hr0.
  - destruct (wr r0 (chunks r0) data) as [e|].
    + cbn [fst snd]. split; [apply Hdel | intros c r Hr; by exists r].
    + rewrite (update_response_eq c0 _ st r0 Hr0).
      change (flush (add_chunk data r0)) with (flush r0).
      destruct (flush r0) as [fl|];
        [destruct (fl (chunks (add_chunk data r0))) as [e|]|]; cbn [fst snd];
        (split; [first [apply Hdel | done] | exact Hupd]).
  - rewrite Hr0. cbn [fst snd]. split; [done | intros c r Hr; by exists r].
Qed.

Lemma nonempty_inv session sid : nonempty session = Some sid → session = Some sid ∧ sid ≠ "".
Proof.
  destruct session as [s|]; simpl; [|done].
  destruct (String.eqb_spec s ""); [done|]. by intros [= <-].
Qed.

(** The state the stream handler leaves: the entry of the session names
    the response, on which alone something may have changed. *)
Lemma validate_emails_stream_frame sessionId res st :
  sessionId ≠ "" →
  let st' := (validate_emails_stream (Some sessionId) res st).2 in
  sseConnections st' = <[sessionId := res]> (sseConnections st) ∧
  ∀ c, c ≠ res → responses st' !! c = responses st !! c.
Proof.
  intros Hsid st'. subst st'.
  unfold validate_emails_stream. rewrite (nonempty_Some _ Hsid).
  unfold bind, setHeader, connections_set. rewrite !update_response_twice.
  unfold res_write. cbn [responses set_connections].
  destruct (responses (update_response res _ st) !! res) as [r|] eqn:Hr.
  - destruct (wr r (chunks r) (EvConnected sessionId)) as [e|]; cbn [fst snd].
    + split; [reflexivity|]. intros c Hc. cbn [responses set_connections].
      by rewrite update_response_ne.
    + split; [reflexivity|]. intros c Hc.
      rewrite update_response_ne by done. cbn [responses set_connections].
      by rewrite update_response_ne.
  - cbn [fst snd]. split; [reflexivity|]. intros c Hc.
    cbn [responses set_connections]. by rewrite update_response_ne.
Qed.





(** A step that is not a registration for a session leaves the session
    without an entry. *)
Lemma step_does_not_register sessionId op st :
  does_not_register sessionId op →
  sseConnections st !! sessionId = None →
  sseConnections (step st op) !! sessionId = None.
Proof.
  intros Hop Habs.
  destruct op as [w fl|session res|sid res|sid data|sid]; unfold step.
  - done.
  - simpl in Hop. destruct (nonempty session) as [sid|] eqn:Hsession.
    + destruct (nonempty_inv _ _ Hsession) as [-> Hne].
      destruct (validate_emails_stream_frame sid res st Hne) as [Hconn _].
      rewrite Hconn. rewrite lookup_insert_ne; [done|]. by intros ->.
    + unfold validate_emails_stream. by rewrite Hsession.
  - rewrite on_close_state. cbn [snd]. rewrite update_response_connections.
    unfold without; simpl. destruct (decide (sid = sessionId)) as [->|Hn].
    + apply lookup_delete_eq.
    + by rewrite lookup_delete_ne.
  - pose proof (sendSSEMessage_shrinks sid data st) as [Hsub _].
    destruct (sseConnections (sendSSEMessage sid data st).2 !! sessionId) as [c|] eqn:Hc;
      [|done].
    apply Hsub in Hc. by rewrite Habs in Hc.
  - unfold close_connection.
    destruct (sseConnections st !! sid) as [c0|] eqn:Hc0; [|done].
    change ((res_end c0 ;;; connections_delete sid) st)
      with (Returned tt, without sid (update_response c0 mark_ended st)).
    cbn [snd]. unfold without; simpl.
    destruct (decide (sid = sessionId)) as [->|Hn].
    + apply lookup_delete_eq.
    + by rewrite lookup_delete_ne.
Qed.

Lemma run_ops_app ops ops' st : run_ops (ops ++ ops') st = run_ops ops' (run_ops ops st).
Proof. apply fold_left_app. Qed.

Section EventOrder.
Context {E : Type}.
Variable trim : string → string.
Variable validate : ValidateOptions → M E OutputFormat.
Variable readEmailsFromXLSX : string → M E (list EmailRow).
Variable writeResultsToXLSX : list ValidationResult → string → M E unit.
Variable fs_unlinkSync : string → M E unit.
Variable fs_existsSync : string → E → bool.
Variable output_path : string → string.
Variable arrivals : E → list ServerOp * E.

Lemma publish_terminal_healthy sessionId c data (e : E) st :
  healthy sessionId c st →
  publish_terminal (Some sessionId) data (e, st)
  = (Returned tt,
     (e, without sessionId (update_response c (λ r, mark_ended (add_chunks [data] r)) st))).
Proof.
  intros Hst. unfold publish_terminal.
  rewrite (bind_returned _ _ _ _ _
             (on_snd_eq _ e _ _ _ (sendSSEMessage_healthy sessionId c _ st Hst))).
  rewrite (on_snd_eq _ e _ _ _
             (close_connection_healthy sessionId c _
                (healthy_update sessionId c st (add_chunks [data])
                   ltac:(done) Hst))).
  by rewrite update_response_twice.
Qed.

Lemma publish_terminal_state sessionId data (e : E) st :
  publish_terminal (Some sessionId) data (e, st)
  = (Returned tt, (e, (close_connection sessionId (sendSSEMessage sessionId data st).2).2)).
Proof.
  unfold publish_terminal, bind, on_snd. cbn [fst snd].
  pose proof (sendSSEMessage_returns sessionId data st) as H1.
  destruct (sendSSEMessage sessionId data st) as [o1 st1]. simpl in H1. subst o1.
  cbn [fst snd].
  pose proof (close_connection_returns sessionId st1) as H2.
  destruct (close_connection sessionId st1) as [o2 st2]. simpl in H2. by subst o2.
Qed.


(** The handler without arrivals is the handler run on its own. *)
Lemma post_validate_emails_isolated req now e st :
  post_validate_emails_live trim validate readEmailsFromXLSX writeResultsToXLSX
    fs_unlinkSync fs_existsSync output_path no_arrivals req now (e, st)
  = post_validate_emails trim validate readEmailsFromXLSX writeResultsToXLSX
      fs_unlinkSync fs_existsSync output_path req now (e, st).
Proof.
  unfold post_validate_emails_live, post_validate_emails.
  destruct (file req) as [f|]; [|reflexivity].
  assert (wait_for_subscriber no_arrivals (nonempty (body_sessionId req)) (e, st)
          = (Returned tt, (e, st))) as Hwait.
  { unfold wait_for_subscriber. destruct (nonempty (body_sessionId req)) as [sid|]; [|done].
    cbn [snd]. by destruct (sseConnections st !! sid). }
  unfold try_catch at 1 2.
  rewrite (bind_returned _ _ _ _ _ Hwait). reflexivity.
Qed.

(** With a subscriber registered and a workbook that has no rows or cannot
    be read, the handler is never suspended: whatever would arrive, it
    runs as on its own. *)
Lemma post_validate_emails_unsuspended req now f sessionId c e st :
  file req = Some f →
  nonempty (body_sessionId req) = Some sessionId →
  sseConnections st !! sessionId = Some c →
  (∀ emails e1, readEmailsFromXLSX (path f) e = (Returned emails, e1) → emails = []) →
  post_validate_emails_live trim validate readEmailsFromXLSX writeResultsToXLSX
    fs_unlinkSync fs_existsSync output_path arrivals req now (e, st)
  = post_validate_emails trim validate readEmailsFromXLSX writeResultsToXLSX
      fs_unlinkSync fs_existsSync output_path req now (e, st).
Proof.
  intros Hfile Hsid Hc Hrows.
  unfold post_validate_emails_live, post_validate_emails.
  rewrite Hfile, Hsid.
  assert (wait_for_subscriber arrivals (Some sessionId) (e, st) = (Returned tt, (e, st)))
    as Hwait by (unfold wait_for_subscriber; cbn [snd]; by rewrite Hc).
  unfold try_catch at 1 2.
  rewrite (bind_returned _ _ _ _ _ Hwait).
  assert (∀ outputPath col sender,
            run_with_sse_live trim validate readEmailsFromXLSX writeResultsToXLSX arrivals
              (path f) outputPath col sender sessionId (e, st)
            = run_with_sse trim validate readEmailsFromXLSX writeResultsToXLSX
                (path f) outputPath col sender sessionId (e, st)) as Hrun.
  { intros outputPath col sender.
    unfold run_with_sse_live, run_with_sse, processXLSXFileWithSSE.
    destruct (readEmailsFromXLSX (path f) e) as [[emails|err] e1] eqn:Hread.
    - rewrite (Hrows emails e1 eq_refl) in *.
      by rewrite !(bind_returned _ _ _ _ _ (on_fst_eq _ _ st _ _ Hread)).
    - by rewrite !(bind_threw _ _ _ _ _ (on_fst_eq _ _ st _ _ Hread)). }
  unfold bind at 1 6. rewrite Hrun. reflexivity.
Qed.

Section Rows.
Variable sessionId : string.
(** What is known of the server state once the events [evs] have been
    published: it survives what arrives, and follows each publish. *)
Variable known : list SSEData → ServerState → Prop.
Hypothesis known_arrivals :
  ∀ evs st e, known evs st → known evs (run_ops (arrivals e).1 st).
Hypothesis known_publish :
  ∀ evs st data, known evs st → known (evs ++ [data]) (sendSSEMessage sessionId data st).2.

Lemma row_step_live col sender row e st evs :
  known evs st →
  ∃ st1,
    row_step trim (λ o, awaited arrivals (validate o)) col sender row (e, st)
    = ((row_step trim (λ o, then_arrivals arrivals (validate o)) col sender row e).1,
       ((row_step trim (λ o, then_arrivals arrivals (validate o)) col sender row e).2, st1)) ∧
    known evs st1.
Proof using known_arrivals.
  intros Hst. unfold row_step.
  destruct (rejected (extract_email row col)); [by exists st|].
  unfold awaited, then_arrivals. cbn [fst snd].
  destruct (validate _ e) as [[vr|err] e1];
    pose proof (known_arrivals evs st e1 Hst) as Hst1;
    destruct (arrivals e1) as [ops e2]; cbn [fst snd] in *;
    by exists (run_ops ops st).
Qed.

Lemma run_rows_sse_live col sender emails e st evs :
  known evs st →
  ∃ st',
    run_rows_sse trim (λ o, awaited arrivals (validate o))
      (Some (lifted_callback (W := E)
               (λ email valid reason, sendSSEMessage sessionId (EvEmail email valid reason))))
      col sender emails (e, st)
    = ((run_rows trim (λ o, then_arrivals arrivals (validate o)) col sender emails e).1,
       ((run_rows trim (λ o, then_arrivals arrivals (validate o)) col sender emails e).2, st')) ∧
    known (evs ++ (event_of <$> (run_rows trim (λ o, then_arrivals arrivals (validate o))
                                   col sender emails e).1)) st'.
Proof using known_arrivals known_publish.
  revert e st evs. induction emails as [|row rest IH]; intros e st evs Hst.
  - exists st. split; [reflexivity|]. simpl. by rewrite app_nil_r.
  - simpl. unfold row_step_sse.
    destruct (row_step_live col sender row e st evs Hst) as (st1 & Hrow & Hst1).
    rewrite Hrow.
    destruct (row_step trim (λ o, then_arrivals arrivals (validate o)) col sender row e)
      as [r e1]. cbn [fst snd].
    assert (notified (Some (lifted_callback (W := E)
                      (λ email valid reason,
                         sendSSEMessage sessionId (EvEmail email valid reason))))
              r (e1, st1)
            = (e1, (sendSSEMessage sessionId (event_of r) st1).2)) as ->.
    { unfold notified, lifted_callback, on_snd, event_of. cbn [fst snd].
      by destruct (sendSSEMessage sessionId _ st1). }
    destruct (IH e1 _ _ (known_publish evs st1 (event_of r) Hst1)) as (st' & Hrest & Hst').
    rewrite Hrest.
    destruct (run_rows trim (λ o, then_arrivals arrivals (validate o)) col sender rest e1)
      as [rs e2]. cbn [fst snd] in *.
    exists st'. split; [reflexivity|].
    by rewrite <- app_assoc in Hst'.
Qed.

Lemma run_with_sse_live_general inputPath outputPath col sender e st :
  known [] st →
  ∃ st',
    run_with_sse_live trim validate readEmailsFromXLSX writeResultsToXLSX arrivals
      inputPath outputPath col sender sessionId (e, st)
    = (let '(o, e1) := processXLSXFile trim (λ o, then_arrivals arrivals (validate o))
                         readEmailsFromXLSX writeResultsToXLSX
                         inputPath outputPath col sender e in
       (o, (e1, st'))) ∧
    known (published trim (λ o, then_arrivals arrivals (validate o)) readEmailsFromXLSX
             inputPath col sender e) st'.
Proof using known_arrivals known_publish.
  intros Hst.
  unfold run_with_sse_live, processXLSXFileWithSSE, processXLSXFile, published.
  destruct (readEmailsFromXLSX inputPath e) as [[emails|err] e1] eqn:Hread.
  - rewrite (bind_returned _ _ _ _ _ (on_fst_eq _ _ st _ _ Hread)).
    rewrite (bind_returned _ _ _ _ _ Hread).
    assert (∀ data st0,
              send_if (Some (λ data, on_snd (sendSSEMessage sessionId data))) data (e1, st0)
              = (Returned tt, (e1, (sendSSEMessage sessionId data st0).2))) as Hsend.
    { intros data st0. unfold send_if, on_snd. cbn [fst snd].
      pose proof (sendSSEMessage_returns sessionId data st0) as H.
      destruct (sendSSEMessage sessionId data st0) as [o s]. simpl in H. by subst o. }
    destruct (length emails =? 0)%nat.
    + rewrite (bind_returned _ _ _ _ _ (Hsend _ st)).
      eexists. split; [reflexivity|].
      exact (known_publish [] st _ Hst).
    + rewrite (bind_returned _ _ _ _ _ (Hsend _ st)).
      pose proof (known_publish [] st (EvStart (length emails)) Hst) as Hst1.
      cbn [app] in Hst1.
      set (st1 := (sendSSEMessage sessionId (EvStart (length emails)) st).2) in *.
      change (validateEmailsWithSSE trim (λ o, awaited arrivals (validate o)) emails col sender
                (Some (λ email valid reason, send_if _ (EvEmail email valid reason))))
        with (validateEmailsWithSSE trim (λ o, awaited arrivals (validate o)) emails col sender
                (Some (lifted_callback (W := E)
                         (λ email valid reason,
                            sendSSEMessage sessionId (EvEmail email valid reason))))).
      unfold bind at 1.
      rewrite validateEmailsWithSSE_run_rows
        by (apply lifted_callback_returns; intros; apply sendSSEMessage_returns).
      destruct (run_rows_sse_live col sender emails e1 st1 _ Hst1) as (st2 & Hrows & Hst2).
      rewrite Hrows. unfold bind at 2. rewrite validateEmails_run_rows.
      destruct (run_rows trim (λ o, then_arrivals arrivals (validate o)) col sender emails e1)
        as [results e2]. cbn [fst snd] in *.
      exists st2. split; [|exact Hst2].
      unfold bind, on_fst, ret. cbn [fst snd].
      by destruct (writeResultsToXLSX results outputPath e2) as [[[]|err] e3].
  - rewrite (bind_threw _ _ _ _ _ (on_fst_eq _ _ st _ _ Hread)).
    rewrite (bind_threw _ _ _ _ _ Hread).
    by exists st.
Qed.

(** The handler for a session, from the state [(e0, st0)] in which it
    starts the batch: outside the registry it does what [upload_core]
    does, and on the registry it publishes the events of the batch, then
    the terminal event, and closes the connection. *)
Lemma post_validate_emails_live_session req now f e st e0 st0 :
  file req = Some f →
  nonempty (body_sessionId req) = Some sessionId →
  wait_for_subscriber arrivals (Some sessionId) (e, st) = (Returned tt, (e0, st0)) →
  known [] st0 →
  let col := default "email" (nonempty (body_emailColumn req)) in
  ∃ st1,
    known (published trim (λ o, then_arrivals arrivals (validate o)) readEmailsFromXLSX
             (path f) col (body_senderEmail req) e0) st1 ∧
    post_validate_emails_live trim validate readEmailsFromXLSX writeResultsToXLSX
      fs_unlinkSync fs_existsSync output_path arrivals req now (e, st)
    = (let '(o, e') := upload_core trim (λ o, then_arrivals arrivals (validate o))
                         readEmailsFromXLSX writeResultsToXLSX
                         fs_unlinkSync fs_existsSync output_path true req now e0 in
       (o, (e',
            (close_connection sessionId
               (sendSSEMessage sessionId
                  (terminal_of trim (λ o, then_arrivals arrivals (validate o))
                     readEmailsFromXLSX writeResultsToXLSX fs_unlinkSync output_path
                     req now f e0) st1).2).2))).
Proof using known_arrivals known_publish.
  intros Hfile Hsid Hwait Hst0 col.
  set (fn := "validated-" +:+ now +:+ "-" +:+ originalname f).
  destruct (run_with_sse_live_general (path f) (output_path fn) col
              (body_senderEmail req) e0 st0 Hst0) as (st1 & Hrun & Hst1).
  exists st1. split; [exact Hst1|].
  unfold post_validate_emails_live, upload_core, terminal_of, try_catch.
  rewrite Hfile, Hsid. fold col fn.
  rewrite (bind_returned _ _ _ _ _ Hwait).
  unfold bind at 1. rewrite Hrun.
  unfold bind, ret, on_fst.
  destruct (processXLSXFile _ _ _ _ _ _ _ _ e0) as [[stats|err] e1].
  - cbn [fst snd].
    destruct (fs_unlinkSync (path f) e1) as [[[]|err] e2];
      rewrite publish_terminal_state.
    + reflexivity.
    + cbn [fst snd]. destruct (fs_existsSync (path f) e2); [|reflexivity].
      by destruct (fs_unlinkSync (path f) e2) as [[[]|err'] e3].
  - rewrite publish_terminal_state. cbn [fst snd].
    destruct (fs_existsSync (path f) e1); [|reflexivity].
    by destruct (fs_unlinkSync (path f) e1) as [[[]|err'] e3].
Qed.

End Rows.


End EventOrder.

Lemma working_reliable : reliable (add_chunk (EvConnected "s1")
                                     (sse_headers (fresh_response working_wr None))).
Proof. split; [reflexivity | intros fl [=]]. Defined.





Example demo_event_stream :
  (chunks <$> responses (demo_post ([], one_subscriber)).2.2 !! 0)
  = Some [ EvConnected "s1";
           EvStart 5;
           EvEmail (JStr "a@good.com") true None;
           EvEmail (JStr "bad") false (Some "regex");
           EvEmail (JStr "user@disposable.test") false (Some "disposable");
           EvEmail (JNum 7) false (Some "Invalid email format");
           EvEmail (JStr "boom@slow.test") false
             (Some "Validation error: connect ETIMEDOUT");
           EvComplete {| total := 5; valid := 1; invalid := 4 |}
             "/api/download/validated-1700000000000-list.xlsx"
             "validated-1700000000000-list.xlsx" ].
Proof. vm_compute. reflexivity. Qed.

(** * Further properties of the batch functions *)

Section BatchMore.
Context {World : Type}.
Variable trim : string → string.
Variable validate : ValidateOptions → M World OutputFormat.
Variable readEmailsFromXLSX : string → M World (list EmailRow).
Variable writeResultsToXLSX : list ValidationResult → string → M World unit.

(** X1.  A batch over a concatenation is the batch over the first part
    followed, from the world it leaves, by the batch over the second: the
    results are the two result sequences, one after the other. *)
Theorem validateEmails_concat xs ys col sender w :
  ∃ rs1 w1 rs2 w2,
    validateEmails trim validate xs col sender w = (Returned rs1, w1) ∧
    validateEmails trim validate ys col sender w1 = (Returned rs2, w2) ∧
    validateEmails trim validate (xs ++ ys) col sender w = (Returned (rs1 ++ rs2), w2).
Proof.
  rewrite !validateEmails_run_rows, run_rows_app.
  destruct (run_rows trim validate col sender xs w) as [rs1 w1]; simpl.
  exists rs1, w1, (run_rows trim validate col sender ys w1).1,
    (run_rows trim validate col sender ys w1).2.
  rewrite validateEmails_run_rows.
  by destruct (run_rows trim validate col sender ys w1).
Qed.

(** X2.  Every call the batch makes to [validate] enables all five
    validators and names as sender the given sender address when there is
    a non-empty one, and the address under validation otherwise; there is
    one call per row that is not rejected, hence at most one per row. *)
Theorem validate_calls_shape emails col sender w :
  ∃ results calls w',
    validateEmails trim (logged validate) emails col sender ([], w)
    = (Returned results, (calls, w')) ∧
    length calls
    = length (List.filter (λ row, negb (rejected (extract_email row col))) emails) ∧
    (length calls ≤ length emails)%nat ∧
    Forall (λ o,
              vo_validateRegex o = true ∧ vo_validateMx o = true ∧
              vo_validateTypo o = true ∧ vo_validateDisposable o = true ∧
              vo_validateSMTP o = true ∧
              (nonempty sender = None → vo_sender o = vo_email o) ∧
              (∀ s, nonempty sender = Some s → vo_sender o = s)) calls.
Proof.
  rewrite validateEmails_run_rows.
  pose proof (logged_calls trim validate col sender emails [] w) as Hcalls.
  destruct (run_rows trim (logged validate) col sender emails ([], w))
    as [results [calls w']]; simpl in Hcalls.
  exists results, calls, w'. split; [done|]. subst calls.
  assert (∀ row, rejected (extract_email row col) = true →
                 submitted trim col sender row = None) as Hnone
    by (intros row H; unfold submitted; by rewrite H).
  assert (∀ row, rejected (extract_email row col) = false →
                 submitted trim col sender row
                 = Some (validate_options (trim (str_of (extract_email row col))) sender))
    as Hsome by (intros row H; unfold submitted; by rewrite H).
  split; [|split].
  - induction emails as [|row rest IH]; [done|].
    cbn [omap list_omap List.filter].
    destruct (rejected (extract_email row col)) eqn:Hrej.
    + rewrite (Hnone row Hrej). exact IH.
    + rewrite (Hsome row Hrej). simpl. by rewrite IH.
  - induction emails as [|row rest IH]; [done|].
    cbn [omap list_omap].
    destruct (rejected (extract_email row col)) eqn:Hrej.
    + rewrite (Hnone row Hrej). simpl. lia.
    + rewrite (Hsome row Hrej). simpl. lia.
  - induction emails as [|row rest IH]; [constructor|].
    cbn [omap list_omap].
    destruct (rejected (extract_email row col)) eqn:Hrej.
    + rewrite (Hnone row Hrej). exact IH.
    + rewrite (Hsome row Hrej). constructor; [|exact IH].
      simpl. repeat split; try done.
      * unfold sender_or. destruct sender as [s|]; [|done]. simpl.
        by destruct (String.eqb s "").
      * intros s. unfold sender_or. destruct sender as [s'|]; [|done]. simpl.
        destruct (String.eqb s' ""); [done|]. by intros [= ->].
Qed.

(** X3.  When [validate] returns a verdict for a row with a usable
    address, the result recorded for the row reads back exactly that
    verdict: [email] is the trimmed address, and [valid], [reason] and
    [validators] are the ones [validate] returned; the rows before and
    after are processed as usual. *)
Theorem verdict_recorded row col sender pre post w rs1 w1 vr w1' :
  rejected (extract_email row col) = false →
  validateEmails trim validate pre col sender w = (Returned rs1, w1) →
  validate (validate_options (trim (str_of (extract_email row col))) sender) w1
  = (Returned vr, w1') →
  ∃ r rs2 w2,
    validateEmails trim validate post col sender w1' = (Returned rs2, w2) ∧
    validateEmails trim validate (pre ++ row :: post) col sender w
    = (Returned (rs1 ++ r :: rs2), w2) ∧
    get r "email" = JStr (trim (str_of (extract_email row col))) ∧
    get r "valid" = JBool (of_valid vr) ∧
    get r "reason" = of_opt_string (of_reason vr) ∧
    get r "validators" = of_opt_validators (of_validators vr).
Proof.
  intros Hrej Hpre Hval.
  rewrite validateEmails_run_rows in Hpre. injection Hpre as Hrs1 Hw1.
  set (addr := trim (str_of (extract_email row col))) in *.
  exists (verdict_result row addr vr),
    (run_rows trim validate col sender post w1').1,
    (run_rows trim validate col sender post w1').2.
  split; [apply validateEmails_run_rows|]. split.
  - rewrite validateEmails_run_rows, run_rows_app.
    destruct (run_rows trim validate col sender pre w) as [rs1' w1'']; simpl in *.
    subst rs1' w1''. unfold row_step. rewrite Hrej. fold addr. rewrite Hval.
    by destruct (run_rows trim validate col sender post w1').
  - unfold verdict_result. repeat split.
    + rewrite !get_set_ne by done. apply get_set_eq.
    + rewrite !get_set_ne by done. apply get_set_eq.
    + rewrite get_set_ne by done. apply get_set_eq.
    + apply get_set_eq.
Qed.

(** X4.  For a workbook without rows [processXLSXFile] returns zero
    statistics from the world the read left: neither [validate] nor the
    writer is called, so no output file is produced. *)
Theorem processXLSXFile_empty inputPath outputPath col sender w w1 :
  readEmailsFromXLSX inputPath w = (Returned [], w1) →
  processXLSXFile trim validate readEmailsFromXLSX writeResultsToXLSX
    inputPath outputPath col sender w
  = (Returned {| total := 0; valid := 0; invalid := 0 |}, w1).
Proof. intros Hread. unfold processXLSXFile. by rewrite (bind_returned _ _ _ _ _ Hread). Qed.

(** X5.  An exception that leaves [processXLSXFile] was thrown by the
    reading of the workbook or by the writing of the results; an exception
    of [validate] never leaves it. *)
Theorem processXLSXFile_throws_only_io inputPath outputPath col sender w e w' :
  processXLSXFile trim validate readEmailsFromXLSX writeResultsToXLSX
    inputPath outputPath col sender w = (Threw e, w') →
  readEmailsFromXLSX inputPath w = (Threw e, w') ∨
  ∃ emails w1 results w2,
    readEmailsFromXLSX inputPath w = (Returned emails, w1) ∧
    validateEmails trim validate emails col sender w1 = (Returned results, w2) ∧
    writeResultsToXLSX results outputPath w2 = (Threw e, w').
Proof.
  unfold processXLSXFile, bind.
  destruct (readEmailsFromXLSX inputPath w) as [[emails|e0] w1] eqn:Hread.
  - destruct emails as [|row rest]; [discriminate|]. simpl.
    rewrite validateEmails_run_rows.
    pose proof (validateEmails_run_rows trim validate (row :: rest) col sender w1) as Hrun.
    destruct (run_rows trim validate col sender (row :: rest) w1) as [results w2].
    simpl in *.
    destruct (writeResultsToXLSX results outputPath w2) as [[[]|e1] w3] eqn:Hw;
      [discriminate|].
    intros [= -> ->]. right. by exists (row :: rest), w1, results, w2.
  - intros [= -> ->]. by left.
Qed.

End BatchMore.

Lemma processXLSXFile_empty_witness :
  processXLSXFile demo_trim demo_validate demo_read_empty demo_failing_write
    "in.xlsx" "out.xlsx" "email" None []
  = (Returned {| total := 0; valid := 0; invalid := 0 |}, []).
Proof.
  apply (processXLSXFile_empty demo_trim demo_validate demo_read_empty
           demo_failing_write "in.xlsx" "out.xlsx" "email" None [] []).
  reflexivity.
Defined.

Lemma processXLSXFile_throws_only_io_witness :
  ∃ w',
    processXLSXFile demo_trim demo_validate demo_read demo_failing_write
      "in.xlsx" "out.xlsx" "email" None []
    = (Threw (ThrownError "ENOSPC: no space left on device"), w') ∧
    (demo_read "in.xlsx" [] = (Threw (ThrownError "ENOSPC: no space left on device"), w') ∨
     ∃ emails w1 results w2,
       demo_read "in.xlsx" [] = (Returned emails, w1) ∧
       validateEmails demo_trim demo_validate emails "email" None w1
       = (Returned results, w2) ∧
       demo_failing_write results "out.xlsx" w2
       = (Threw (ThrownError "ENOSPC: no space left on device"), w')).
Proof.
  eexists. split; [vm_compute; reflexivity|].
  apply (processXLSXFile_throws_only_io demo_trim demo_validate demo_read
           demo_failing_write "in.xlsx" "out.xlsx" "email" None []).
  vm_compute. reflexivity.
Defined.

Lemma verdict_recorded_witness :
  let row : EmailRow := plain [("email", JStr " user@disposable.test "); ("name", JStr "Cy")] in
  ∃ r rs2 w2,
    validateEmails demo_trim demo_validate [] "email" None
      [validate_options "user@disposable.test" None] = (Returned rs2, w2) ∧
    validateEmails demo_trim demo_validate ([] ++ row :: []) "email" None []
    = (Returned ([] ++ r :: rs2), w2) ∧
    get r "email" = JStr "user@disposable.test" ∧
    get r "valid" = JBool false ∧
    get r "reason" = JStr "disposable" ∧
    get r "validators" = JValidators fails_disposable.
Proof.
  intros row.
  destruct (verdict_recorded demo_trim demo_validate row "email" None [] [] [] [] []
              {| of_valid := false; of_reason := Some "disposable";
                 of_validators := Some fails_disposable |}
              [validate_options "user@disposable.test" None]
              eq_refl eq_refl eq_refl)
    as (r & rs2 & w2 & Hpost & Hall & He & Hv & Hr & Hvs).
  exists r, rs2, w2.
  split; [exact Hpost|]. split; [exact Hall|]. split; [exact He|].
  split; [exact Hv|]. split; [exact Hr | exact Hvs].
Defined.

(** * When the progress callback throws *)

Section CallbackFailure.
Context {World : Type}.
Variable trim : string → string.
Variable validate : ValidateOptions → M World OutputFormat.
Variable f : @Callback World.

(** X6.  The report of a rejected row is made outside any [try]: when the
    callback throws there, the exception leaves [validateEmailsWithSSE]
    and the results gathered so far are not returned. *)
Theorem callback_failure_aborts row col sender pre post w rs1 w1 e w1' :
  unusable (extract_email row col) →
  validateEmailsWithSSE trim validate pre col sender (Some f) w = (Returned rs1, w1) →
  f (js_or (extract_email row col) (JStr "")) false (Some "Invalid email format") w1
  = (Threw e, w1') →
  validateEmailsWithSSE trim validate (pre ++ row :: post) col sender (Some f) w
  = (Threw e, w1').
Proof.
  intros Hun%rejected_iff Hpre Hf.
  unfold validateEmailsWithSSE, with_results in *.
  destruct (for_each _ pre ([], w)) as [[[]|e0] [acc wa]] eqn:Hrun; [|discriminate].
  injection Hpre as -> ->.
  rewrite for_each_app, (bind_returned _ _ _ _ _ Hrun). simpl.
  assert (validateEmailsWithSSE_row trim validate col sender (Some f) row (rs1, w1)
          = (Threw e, (rs1 ++ [invalid_format_result row (extract_email row col)], w1')))
    as Hrow.
  { unfold validateEmailsWithSSE_row. rewrite Hun.
    unfold bind, push, notify, on_snd; simpl. by rewrite Hf. }
  by rewrite (bind_threw _ _ _ _ _ Hrow).
Qed.

(** X7.  The report of a verdict is made inside the [try], after the
    verdict was pushed: when the callback throws there, the [catch]
    pushes a second result for the same row, with [valid] false and the
    callback's message as a validation error, and reports that one.  A
    batch of one such row returns two results. *)
Theorem callback_failure_after_verdict row col sender w vr w1 e w2 w3 :
  rejected (extract_email row col) = false →
  let address := trim (str_of (extract_email row col)) in
  validate (validate_options address sender) w = (Returned vr, w1) →
  f (JStr address) (of_valid vr) (of_reason vr) w1 = (Threw e, w2) →
  f (JStr address) false (Some (error_reason e)) w2 = (Returned tt, w3) →
  (∀ acc,
      validateEmailsWithSSE_row trim validate col sender (Some f) row (acc, w)
      = (Returned tt,
         (acc ++ [verdict_result row address vr; error_result row address e], w3))) ∧
  validateEmailsWithSSE trim validate [row] col sender (Some f) w
  = (Returned [verdict_result row address vr; error_result row address e], w3) ∧
  get (error_result row address e) "valid" = JBool false ∧
  get (error_result row address e) "reason"
  = JStr ("Validation error: " +:+ errorMessage_of e).
Proof.
  intros Hrej address Hval Hthrow Hagain.
  assert (∀ acc,
      validateEmailsWithSSE_row trim validate col sender (Some f) row (acc, w)
      = (Returned tt,
         (acc ++ [verdict_result row address vr; error_result row address e], w3)))
    as Hrow.
  { intros acc. unfold validateEmailsWithSSE_row. rewrite Hrej. fold address.
    unfold try_catch, notify.
    rewrite (bind_returned _ _ _ _ _ (on_snd_eq _ acc _ _ _ Hval)).
    rewrite (bind_returned _ _ (acc, w1) tt
               (acc ++ [verdict_result row address vr], w1) eq_refl).
    rewrite (on_snd_eq _ _ _ _ _ Hthrow).
    rewrite (bind_returned _ _ (acc ++ [verdict_result row address vr], w2) tt
               ((acc ++ [verdict_result row address vr])
                  ++ [error_result row address e], w2) eq_refl).
    rewrite (on_snd_eq _ _ _ _ _ Hagain).
    by rewrite <- app_assoc. }
  split; [exact Hrow|]. split.
  - unfold validateEmailsWithSSE, with_results. simpl.
    unfold bind. by rewrite Hrow.
  - destruct (error_result_fields row address e) as (Hv & Hr & _). by split.
Qed.

End CallbackFailure.

Lemma callback_failure_aborts_witness :
  validateEmailsWithSSE demo_trim demo_validate
    ([ plain [("email", JStr "bad")] ] ++ plain [("name", JNum 7); ("email", JStr "")] :: demo_rows)
    "email" None (Some picky_callback_aborting) []
  = (Threw (ThrownError "subscriber gone"), [validate_options "bad" None]).
Proof.
  eapply (callback_failure_aborts demo_trim demo_validate picky_callback_aborting
            (plain [("name", JNum 7); ("email", JStr "")]) "email" None
            [ plain [("email", JStr "bad")] ] demo_rows []).
  - exact I.
  - reflexivity.
  - reflexivity.
Defined.

Lemma callback_failure_after_verdict_witness :
  ∃ r1 r2 w3,
    validateEmailsWithSSE demo_trim demo_validate [ plain [("email", JStr "a@good.com")] ]
      "email" None (Some picky_callback_here) []
    = (Returned [r1; r2], w3) ∧
    get r1 "valid" = JBool true ∧
    get r2 "valid" = JBool false ∧
    get r2 "reason" = JStr "Validation error: subscriber gone".
Proof.
  destruct (callback_failure_after_verdict demo_trim demo_validate picky_callback_here
              (plain [("email", JStr "a@good.com")]) "email" None []
              {| of_valid := true; of_reason := None; of_validators := Some all_pass |}
              [validate_options "a@good.com" None]
              (ThrownError "subscriber gone")
              [validate_options "a@good.com" None]
              [validate_options "a@good.com" None]
              eq_refl eq_refl eq_refl eq_refl)
    as (_ & Hbatch & Hv & Hr).
  eexists _, _, _. split; [exact Hbatch|]. split; [reflexivity|].
  split; [exact Hv | exact Hr].
Defined.

(** * The file-level run with and without [sendSSE] *)

Lemma run_rows_sse_silent {World} trim (validate : ValidateOptions → M World OutputFormat)
    (f : @Callback World) col sender emails w :
  (∀ e v r w, f e v r w = (Returned tt, w)) →
  run_rows_sse trim validate (Some f) col sender emails w
  = run_rows trim validate col sender emails w.
Proof.
  intros Hf. revert w. induction emails as [|row rest IH]; intros w; simpl; [done|].
  unfold row_step_sse, notified.
  destruct (row_step trim validate col sender row w) as [r w1].
  rewrite Hf. simpl. by rewrite IH.
Qed.

Section FileLevel.
Context {W S : Type}.
Variable trim : string → string.
Variable validate : ValidateOptions → M W OutputFormat.
Variable readEmailsFromXLSX : string → M W (list EmailRow).
Variable writeResultsToXLSX : list ValidationResult → string → M W unit.
Variable send : SSEData → M S unit.

Lemma fold_told_events results s :
  fold_left (told (λ e v r, send (EvEmail e v r))) results s
  = fold_left (λ s d, (send d s).2) (event_of <$> results) s.
Proof.
  revert s. induction results as [|r rs IH]; intros s; simpl; [done|].
  by rewrite IH.
Qed.

(** X8.  With no [sendSSE], [processXLSXFileWithSSE] is
    [processXLSXFile]: same outcome, same final world. *)
Theorem processXLSXFileWithSSE_without_sendSSE inputPath outputPath col sender sessionId w :
  processXLSXFileWithSSE trim validate readEmailsFromXLSX writeResultsToXLSX
    inputPath outputPath col sender sessionId None w
  = processXLSXFile trim validate readEmailsFromXLSX writeResultsToXLSX
      inputPath outputPath col sender w.
Proof.
  unfold processXLSXFileWithSSE, processXLSXFile.
  destruct (readEmailsFromXLSX inputPath w) as [[emails|e] w1] eqn:Hread.
  - rewrite !(bind_returned _ _ _ _ _ Hread).
    destruct (length emails =? 0)%nat; [done|].
    unfold send_if at 1.
    rewrite (bind_returned _ _ w1 tt w1 eq_refl).
    unfold bind at 1 3.
    rewrite validateEmailsWithSSE_run_rows by (intros f [= <-]; done).
    rewrite validateEmails_run_rows.
    by rewrite (run_rows_sse_silent trim validate
                  (λ email valid reason, send_if None (EvEmail email valid reason))).
  - by rewrite !(bind_threw _ _ _ _ _ Hread).
Qed.

Lemma processXLSXFileWithSSE_product inputPath outputPath col sender sessionId w s :
  (∀ d s, (send d s).1 = Returned tt) →
  processXLSXFileWithSSE trim (lifted_validate validate)
    (λ p, on_fst (readEmailsFromXLSX p)) (λ r p, on_fst (writeResultsToXLSX r p))
    inputPath outputPath col sender sessionId (Some (λ d, on_snd (send d))) (w, s)
  = let '(o, w') := processXLSXFile trim validate readEmailsFromXLSX writeResultsToXLSX
                      inputPath outputPath col sender w in
    (o, (w', fold_left (λ s d, (send d s).2)
               (published trim validate readEmailsFromXLSX inputPath col sender w) s)).
Proof.
  intros Hsend.
  assert (∀ d s, send d s = (Returned tt, (send d s).2)) as Hsend'.
  { intros d s0. specialize (Hsend d s0). destruct (send d s0) as [o s1].
    simpl in *. by subst o. }
  unfold processXLSXFileWithSSE, processXLSXFile, published.
  destruct (readEmailsFromXLSX inputPath w) as [[emails|e] w1] eqn:Hread.
  - rewrite (bind_returned _ _ _ _ _ (on_fst_eq _ _ s _ _ Hread)).
    rewrite (bind_returned _ _ _ _ _ Hread).
    destruct (length emails =? 0)%nat.
    + unfold send_if.
      rewrite (bind_returned _ _ _ _ _ (on_snd_eq _ w1 _ _ _ (Hsend' _ s))).
      reflexivity.
    + unfold send_if at 1.
      rewrite (bind_returned _ _ _ _ _ (on_snd_eq _ w1 _ _ _ (Hsend' _ s))).
      change (validateEmailsWithSSE trim (lifted_validate validate) emails col sender
                (Some (λ email valid reason, send_if _ (EvEmail email valid reason))))
        with (validateEmailsWithSSE trim (lifted_validate validate) emails col sender
                (Some (lifted_callback (λ e v r, send (EvEmail e v r))))).
      unfold bind at 1.
      rewrite validateEmailsWithSSE_product by (intros; apply Hsend).
      rewrite validateEmails_run_rows. unfold bind at 2.
      rewrite validateEmails_run_rows.
      destruct (run_rows trim validate col sender emails w1) as [results w2].
      simpl. rewrite fold_told_events.
      unfold bind, on_fst; simpl.
      by destruct (writeResultsToXLSX results outputPath w2) as [[[]|err] w3].
  - rewrite (bind_threw _ _ _ _ _ (on_fst_eq _ _ s _ _ Hread)).
    by rewrite (bind_threw _ _ _ _ _ Hread).
Qed.

(** X9.  Let [sendSSE] work on a state of its own and always return.  Then
    [processXLSXFileWithSSE] ends as [processXLSXFile] does (same
    statistics or same exception, same final world), and what it has sent,
    in order, is: nothing when the workbook could not be read; one [error]
    event when it holds no rows; otherwise one [start] event with the
    number of rows, then one [email] event per result in result order. *)
Theorem processXLSXFileWithSSE_streams inputPath outputPath col sender sessionId w s :
  (∀ d s, (send d s).1 = Returned tt) →
  processXLSXFileWithSSE trim (lifted_validate validate)
    (λ p, on_fst (readEmailsFromXLSX p)) (λ r p, on_fst (writeResultsToXLSX r p))
    inputPath outputPath col sender sessionId (Some (λ d, on_snd (send d))) (w, s)
  = let '(o, w') := processXLSXFile trim validate readEmailsFromXLSX writeResultsToXLSX
                      inputPath outputPath col sender w in
    (o, (w', fold_left (λ s d, (send d s).2)
               (published trim validate readEmailsFromXLSX inputPath col sender w) s)).
Proof. apply processXLSXFileWithSSE_product. Qed.

End FileLevel.

Lemma processXLSXFileWithSSE_streams_witness :
  processXLSXFileWithSSE demo_trim (lifted_validate demo_validate)
    (λ p, on_fst (demo_read p)) (λ r p, on_fst (demo_write r p))
    "in.xlsx" "out.xlsx" "email" None "s1" (Some (λ d, on_snd (demo_send d))) ([], [])
  = let '(o, w') := processXLSXFile demo_trim demo_validate demo_read demo_write
                      "in.xlsx" "out.xlsx" "email" None [] in
    (o, (w', fold_left (λ s d, (demo_send d s).2)
               (published demo_trim demo_validate demo_read "in.xlsx" "email" None []) [])).
Proof.
  apply (processXLSXFileWithSSE_streams demo_trim demo_validate demo_read demo_write
           demo_send "in.xlsx" "out.xlsx" "email" None "s1" [] []).
  intros d s. reflexivity.
Defined.

Example demo_published :
  published demo_trim demo_validate demo_read "in.xlsx" "email" None []
  = [ EvStart 5;
      EvEmail (JStr "a@good.com") true None;
      EvEmail (JStr "bad") false (Some "regex");
      EvEmail (JStr "user@disposable.test") false (Some "disposable");
      EvEmail (JNum 7) false (Some "Invalid email format");
      EvEmail (JStr "boom@slow.test") false (Some "Validation error: connect ETIMEDOUT") ] ∧
  published demo_trim demo_validate demo_read_empty "in.xlsx" "email" None []
  = [ EvError "No emails found in the file" ].
Proof. split; vm_compute; reflexivity. Qed.

(** * The upload handler in the remaining cases *)

Lemma run_rows_lifted {W S} trim (validate : ValidateOptions → M W OutputFormat)
    col sender emails w (s : S) :
  run_rows trim (lifted_validate validate) col sender emails (w, s) =
  let '(rs, w') := run_rows trim validate col sender emails w in (rs, (w', s)).
Proof.
  revert w. induction emails as [|row rest IH]; intros w; simpl; [done|].
  rewrite row_step_product.
  destruct (row_step trim validate col sender row w) as [r w1].
  rewrite IH. by destruct (run_rows trim validate col sender rest w1).
Qed.

Lemma processXLSXFile_lifted {W S} trim (validate : ValidateOptions → M W OutputFormat)
    (readEmailsFromXLSX : string → M W (list EmailRow))
    (writeResultsToXLSX : list ValidationResult → string → M W unit)
    inputPath outputPath col sender w (s : S) :
  processXLSXFile trim (λ o, on_fst (validate o))
    (λ p, on_fst (readEmailsFromXLSX p)) (λ r p, on_fst (writeResultsToXLSX r p))
    inputPath outputPath col sender (w, s)
  = let '(o, w') := processXLSXFile trim validate readEmailsFromXLSX writeResultsToXLSX
                      inputPath outputPath col sender w in
    (o, (w', s)).
Proof.
  unfold processXLSXFile.
  destruct (readEmailsFromXLSX inputPath w) as [[emails|e] w1] eqn:Hread.
  - rewrite (bind_returned _ _ _ _ _ (on_fst_eq _ _ s _ _ Hread)).
    rewrite (bind_returned _ _ _ _ _ Hread).
    destruct (length emails =? 0)%nat; [done|].
    unfold bind at 1 3.
    change (validateEmails trim (λ o, on_fst (validate o)))
      with (validateEmails trim (lifted_validate (S := S) validate)).
    rewrite !validateEmails_run_rows, run_rows_lifted.
    destruct (run_rows trim validate col sender emails w1) as [results w2]. simpl.
    unfold bind, on_fst; simpl.
    by destruct (writeResultsToXLSX results outputPath w2) as [[[]|err] w3].
  - rewrite (bind_threw _ _ _ _ _ (on_fst_eq _ _ s _ _ Hread)).
    by rewrite (bind_threw _ _ _ _ _ Hread).
Qed.

Lemma fold_send_absent sessionId evs st :
  sseConnections st !! sessionId = None →
  fold_left (λ s d, (sendSSEMessage sessionId d s).2) evs st = st.
Proof.
  intros Habs. induction evs as [|d evs IH]; simpl; [done|].
  by rewrite (sendSSEMessage_absent _ _ _ Habs).
Qed.

Lemma fold_send_healthy sessionId c evs st :
  healthy sessionId c st →
  fold_left (λ s d, (sendSSEMessage sessionId d s).2) evs st
  = update_response c (add_chunks evs) st.
Proof.
  revert st. induction evs as [|d evs IH]; intros st Hst; simpl.
  - destruct Hst as [_ (r & Hr & _)].
    rewrite (update_response_Some c _ st r Hr).
    unfold add_chunks. rewrite app_nil_r.
    destruct st as [conns rsp]; simpl in *. f_equal.
    symmetry. rewrite list_insert_id; [done|]. rewrite Hr. by destruct r.
  - rewrite (sendSSEMessage_healthy sessionId c _ st Hst). simpl.
    rewrite IH by (apply healthy_update; [done | exact Hst]).
    apply (add_chunks_twice c [d]).
Qed.

Lemma close_connection_absent sessionId st :
  sseConnections st !! sessionId = None →
  close_connection sessionId st = (Returned tt, st).
Proof. intros H. unfold close_connection. by rewrite H. Qed.

Section UploadMore.
Context {E : Type}.
Variable trim : string → string.
Variable validate : ValidateOptions → M E OutputFormat.
Variable readEmailsFromXLSX : string → M E (list EmailRow).
Variable writeResultsToXLSX : list ValidationResult → string → M E unit.
Variable fs_unlinkSync : string → M E unit.
Variable fs_existsSync : string → E → bool.
Variable output_path : string → string.
Variable arrivals : E → list ServerOp * E.

Lemma run_with_sse_general inputPath outputPath col sender sessionId e st :
  run_with_sse trim validate readEmailsFromXLSX writeResultsToXLSX
    inputPath outputPath col sender sessionId (e, st)
  = let '(o, e1) := processXLSXFile trim validate readEmailsFromXLSX writeResultsToXLSX
                      inputPath outputPath col sender e in
    (o, (e1, fold_left (λ s d, (sendSSEMessage sessionId d s).2)
               (published trim validate readEmailsFromXLSX inputPath col sender e) st)).
Proof.
  unfold run_with_sse.
  change (λ o, on_fst (validate o)) with (lifted_validate (S := ServerState) validate).
  apply (processXLSXFileWithSSE_product trim validate readEmailsFromXLSX
           writeResultsToXLSX (sendSSEMessage sessionId)).
  intros d s. apply sendSSEMessage_returns.
Qed.

Lemma publish_terminal_absent sessionId data (e : E) st :
  sseConnections st !! sessionId = None →
  publish_terminal (Some sessionId) data (e, st) = (Returned tt, (e, st)).
Proof.
  intros Habs. unfold publish_terminal.
  rewrite (bind_returned _ _ _ _ _
             (on_snd_eq _ e _ _ _ (sendSSEMessage_absent sessionId data st Habs))).
  by rewrite (on_snd_eq _ e _ _ _ (close_connection_absent sessionId st Habs)).
Qed.

(** The handler when no event can reach anyone: no session in the request,
    or a session nobody is registered for. *)
Lemma post_validate_emails_quiet req now e st :
  (∀ sid, nonempty (body_sessionId req) = Some sid → sseConnections st !! sid = None) →
  post_validate_emails trim validate readEmailsFromXLSX writeResultsToXLSX
    fs_unlinkSync fs_existsSync output_path req now (e, st)
  = on_fst (upload_core trim validate readEmailsFromXLSX writeResultsToXLSX
              fs_unlinkSync fs_existsSync output_path
              (bool_decide (is_Some (nonempty (body_sessionId req)))) req now) (e, st).
Proof.
  intros Habs. unfold post_validate_emails, upload_core, on_fst, try_catch. simpl.
  destruct (file req) as [f|]; [|reflexivity].
  set (col := default "email" (nonempty (body_emailColumn req))).
  set (fn := "validated-" +:+ now +:+ "-" +:+ originalname f).
  assert (∀ (k : Stats → M (E * ServerState) Reply),
            bind (match nonempty (body_sessionId req) with
                  | Some sid =>
                      run_with_sse trim validate readEmailsFromXLSX writeResultsToXLSX
                        (path f) (output_path fn) col (body_senderEmail req) sid
                  | None =>
                      run_without_sse trim validate readEmailsFromXLSX writeResultsToXLSX
                        (path f) (output_path fn) col (body_senderEmail req)
                  end) k (e, st)
            = match processXLSXFile trim validate readEmailsFromXLSX writeResultsToXLSX
                      (path f) (output_path fn) col (body_senderEmail req) e with
              | (Returned stats, e1) => k stats (e1, st)
              | (Threw err, e1) => (Threw err, (e1, st))
              end) as Hrun.
  { intros k. unfold bind.
    destruct (nonempty (body_sessionId req)) as [sid|] eqn:Hsid.
    - rewrite run_with_sse_general.
      rewrite (fold_send_absent sid _ st (Habs sid eq_refl)).
      by destruct (processXLSXFile _ _ _ _ _ _ _ _ e) as [[stats|err] e1].
    - unfold run_without_sse. rewrite processXLSXFile_lifted.
      by destruct (processXLSXFile _ _ _ _ _ _ _ _ e) as [[stats|err] e1]. }
  assert (∀ data (e0 : E),
            publish_terminal (nonempty (body_sessionId req)) data (e0, st)
            = (Returned tt, (e0, st))) as Hpub.
  { intros data e0. destruct (nonempty (body_sessionId req)) as [sid|] eqn:Hsid.
    - apply publish_terminal_absent. by apply Habs.
    - reflexivity. }
  rewrite Hrun. unfold bind, ret. simpl.
  destruct (processXLSXFile _ _ _ _ _ _ _ _ e) as [[stats|err] e1].
  - destruct (fs_unlinkSync (path f) e1) as [[[]|err] e2]; rewrite Hpub.
    + reflexivity.
    + simpl. destruct (fs_existsSync (path f) e2); [|reflexivity].
      by destruct (fs_unlinkSync (path f) e2) as [[[]|err'] e3].
  - rewrite Hpub. simpl.
    destruct (fs_existsSync (path f) e1); [|reflexivity].
    by destruct (fs_unlinkSync (path f) e1) as [[[]|err'] e3].
Qed.

(** X10.  An upload that names no session leaves the registry and every
    subscriber's response as they were, whatever happens to the batch; when
    the batch returns and the upload is removed, the answer carries the
    statistics of [processXLSXFile], the download link of the output file
    and [complete] false. *)
Theorem upload_without_session req now e st :
  nonempty (body_sessionId req) = None →
  ∃ outcome e',
    post_validate_emails trim validate readEmailsFromXLSX writeResultsToXLSX
      fs_unlinkSync fs_existsSync output_path req now (e, st)
    = (outcome, (e', st)) ∧
    ∀ f stats e1 e2,
      file req = Some f →
      let outputFilename := "validated-" +:+ now +:+ "-" +:+ originalname f in
      processXLSXFile trim validate readEmailsFromXLSX writeResultsToXLSX
        (path f) (output_path outputFilename)
        (default "email" (nonempty (body_emailColumn req))) (body_senderEmail req) e
      = (Returned stats, e1) →
      fs_unlinkSync (path f) e1 = (Returned tt, e2) →
      outcome = Returned (Completed stats ("/api/download/" +:+ outputFilename)
                            outputFilename false) ∧
      e' = e2.
Proof.
  intros Hsid.
  rewrite post_validate_emails_quiet by (intros sid; by rewrite Hsid).
  rewrite Hsid. unfold on_fst. simpl.
  destruct (upload_core _ _ _ _ _ _ _ false req now e) as [outcome e'] eqn:Hcore.
  exists outcome, e'. split; [done|].
  intros f stats e1 e2 Hfile Hrun Hunlink.
  unfold upload_core, try_catch in Hcore. rewrite Hfile in Hcore.
  rewrite (bind_returned _ _ _ _ _ Hrun) in Hcore.
  rewrite (bind_returned _ _ _ _ _ Hunlink) in Hcore.
  injection Hcore as <- <-. by destruct stats.
Qed.

(** X11.  Let an upload name a session that has no subscriber, and let no
    subscriber register for that session while the handler is suspended,
    at its 500 ms pause or while an address is validated.  Then nothing
    the handler publishes reaches anyone: the server state at the end is
    the result of the steps that arrived in the meantime and of nothing
    else, the session is still without an entry, and the answer and the
    effects outside are those of the batch run after the pause, with
    [complete] true. *)
Theorem upload_for_absent_subscriber req now f sessionId e st :
  file req = Some f →
  nonempty (body_sessionId req) = Some sessionId →
  sseConnections st !! sessionId = None →
  (∀ e0, Forall (does_not_register sessionId) (arrivals e0).1) →
  ∃ ops,
    Forall (λ op, ∃ e0, op ∈ (arrivals e0).1) ops ∧
    post_validate_emails_live trim validate readEmailsFromXLSX writeResultsToXLSX
      fs_unlinkSync fs_existsSync output_path arrivals req now (e, st)
    = (let '(outcome, e') :=
         upload_core trim (λ o, then_arrivals arrivals (validate o))
           readEmailsFromXLSX writeResultsToXLSX fs_unlinkSync fs_existsSync
           output_path true req now (arrivals e).2 in
       (outcome, (e', run_ops ops st))) ∧
    sseConnections (run_ops ops st) !! sessionId = None.
Proof.
  intros Hfile Hsid Habs Hquiet.
  set (known := λ (evs : list SSEData) (st' : ServerState),
         sseConnections st' !! sessionId = None ∧
         ∃ ops, Forall (λ op, ∃ e0, op ∈ (arrivals e0).1) ops ∧ st' = run_ops ops st).
  assert (∀ ops st', Forall (does_not_register sessionId) ops →
            sseConnections st' !! sessionId = None →
            sseConnections (run_ops ops st') !! sessionId = None) as Hkeep.
  { intros ops st' Hops. revert st'.
    induction Hops as [|op ops Hop _ IH]; intros st' Hst'; [done|].
    apply IH. by apply step_does_not_register. }
  assert (∀ evs st' e0, known evs st' → known evs (run_ops (arrivals e0).1 st')) as Harr.
  { intros evs st' e0 [Hnone (ops & Hops & ->)]. split.
    - by apply Hkeep.
    - exists (ops ++ (arrivals e0).1). split; [|by rewrite run_ops_app].
      apply Forall_app. split; [done|].
      apply Forall_forall. intros op Hin. by exists e0. }
  assert (∀ evs st' data, known evs st' →
            known (evs ++ [data]) (sendSSEMessage sessionId data st').2) as Hpub.
  { intros evs st' data [Hnone Hops].
    by rewrite (sendSSEMessage_absent sessionId data st' Hnone). }
  assert (wait_for_subscriber arrivals (Some sessionId) (e, st)
          = (Returned tt, ((arrivals e).2, run_ops (arrivals e).1 st))) as Hwait.
  { unfold wait_for_subscriber, suspended. cbn [fst snd]. rewrite Habs.
    by destruct (arrivals e). }
  assert (known [] (run_ops (arrivals e).1 st)) as Hst0.
  { apply Harr. split; [done|]. by exists []. }
  destruct (post_validate_emails_live_session trim validate readEmailsFromXLSX
              writeResultsToXLSX fs_unlinkSync fs_existsSync output_path arrivals
              sessionId known Harr Hpub req now f e st _ _ Hfile Hsid Hwait Hst0)
    as (st1 & [Hnone (ops & Hops & ->)] & Hpost).
  exists ops. split; [exact Hops|]. split; [|exact Hnone].
  rewrite Hpost.
  rewrite (sendSSEMessage_absent sessionId _ _ Hnone). cbn [snd].
  by rewrite (close_connection_absent sessionId _ Hnone).
Qed.

(** The handler for a session whose subscriber is registered on a
    connection that works. *)
Lemma post_validate_emails_session req now f sessionId c e st :
  file req = Some f →
  nonempty (body_sessionId req) = Some sessionId →
  healthy sessionId c st →
  post_validate_emails trim validate readEmailsFromXLSX writeResultsToXLSX
    fs_unlinkSync fs_existsSync output_path req now (e, st)
  = let '(o, e') := upload_core trim validate readEmailsFromXLSX writeResultsToXLSX
                      fs_unlinkSync fs_existsSync output_path true req now e in
    (o, (e',
         without sessionId
           (update_response c
              (λ r, mark_ended
                      (add_chunks
                         (published trim validate readEmailsFromXLSX (path f)
                            (default "email" (nonempty (body_emailColumn req)))
                            (body_senderEmail req) e
                          ++ [terminal_of trim validate readEmailsFromXLSX
                                writeResultsToXLSX fs_unlinkSync output_path
                                req now f e]) r)) st))).
Proof.
  intros Hfile Hsid Hst.
  unfold post_validate_emails, upload_core, terminal_of, try_catch.
  rewrite Hfile, Hsid.
  set (col := default "email" (nonempty (body_emailColumn req))).
  set (fn := "validated-" +:+ now +:+ "-" +:+ originalname f).
  set (evs := published trim validate readEmailsFromXLSX (path f) col
                (body_senderEmail req) e).
  assert (healthy sessionId c (update_response c (add_chunks evs) st)) as Hst2
    by (apply healthy_update; [done | exact Hst]).
  assert (∀ data (e0 : E),
            publish_terminal (Some sessionId) data
              (e0, update_response c (add_chunks evs) st)
            = (Returned tt,
               (e0, without sessionId
                      (update_response c
                         (λ r, mark_ended (add_chunks (evs ++ [data]) r)) st))))
    as Hpub.
  { intros data e0. rewrite (publish_terminal_healthy sessionId c data e0 _ Hst2).
    do 3 f_equal. rewrite update_response_twice. apply update_response_ext.
    intros r. unfold mark_ended, add_chunks; simpl. by rewrite <- app_assoc. }
  unfold bind at 1. rewrite run_with_sse_general.
  rewrite (fold_send_healthy sessionId c _ st Hst). fold evs.
  unfold bind, ret, on_fst.
  destruct (processXLSXFile _ _ _ _ _ _ _ _ e) as [[stats|err] e1].
  - cbn [fst snd].
    destruct (fs_unlinkSync (path f) e1) as [[[]|err] e2]; rewrite Hpub.
    + reflexivity.
    + cbn [fst snd]. destruct (fs_existsSync (path f) e2); [|reflexivity].
      by destruct (fs_unlinkSync (path f) e2) as [[[]|err'] e3].
  - rewrite Hpub. cbn [fst snd].
    destruct (fs_existsSync (path f) e1); [|reflexivity].
    by destruct (fs_unlinkSync (path f) e1) as [[[]|err'] e3].
Qed.


Lemma processXLSXFile_unreadable inputPath outputPath col sender e err e1 :
  readEmailsFromXLSX inputPath e = (Threw err, e1) →
  processXLSXFile trim validate readEmailsFromXLSX writeResultsToXLSX
    inputPath outputPath col sender e
  = (Threw err, e1).
Proof. intros H. unfold processXLSXFile. by rewrite (bind_threw _ _ _ _ _ H). Qed.


(** X13.  When the workbook cannot be read and the subscriber's connection
    works, the subscriber receives exactly one event, the [error] event
    with the message of the exception, and no [start]; the connection is
    then ended and deregistered.  An answer, if the handler gives one, is
    the failure with that message. *)
Theorem upload_unreadable_workbook req now f sessionId c resp e st err e1 :
  file req = Some f →
  nonempty (body_sessionId req) = Some sessionId →
  sseConnections st !! sessionId = Some c →
  responses st !! c = Some resp →
  reliable resp →
  readEmailsFromXLSX (path f) e = (Threw err, e1) →
  ∃ outcome e' st' resp',
    post_validate_emails trim validate readEmailsFromXLSX writeResultsToXLSX
      fs_unlinkSync fs_existsSync output_path req now (e, st)
    = (outcome, (e', st')) ∧
    responses st' !! c = Some resp' ∧
    chunks resp' = chunks resp ++ [EvError (errorMessage_of err)] ∧
    ended resp' = true ∧
    sseConnections st' !! sessionId = None ∧
    (∀ reply, outcome = Returned reply → reply = Failed (errorMessage_of err)) ∧
    (fs_existsSync (path f) e1 = false →
       outcome = Returned (Failed (errorMessage_of err)) ∧ e' = e1).
Proof.
  intros Hfile Hsid Hc Hresp Hrel Hread.
  assert (healthy sessionId c st) as Hst by (split; [done | by exists resp]).
  rewrite (post_validate_emails_session req now f sessionId c e st Hfile Hsid Hst).
  unfold upload_core, terminal_of, published, try_catch. rewrite Hfile, Hread.
  rewrite (processXLSXFile_unreadable _ _ _ _ _ _ _ Hread).
  rewrite (bind_threw _ _ _ _ _
             (processXLSXFile_unreadable _ _ _ _ _ _ _ Hread)).
  unfold bind, ret.
  destruct (fs_existsSync (path f) e1) eqn:Hex.
  - destruct (fs_unlinkSync (path f) e1) as [[[]|err'] e3];
      eexists _, _, _, _; (split; [reflexivity|]);
      (split; [exact (update_response_eq c _ st resp Hresp)|]);
      (split; [reflexivity|]); (split; [reflexivity|]);
      (split; [apply without_lookup|]); (split; [|done]).
    + by intros reply [= <-].
    + by intros reply [=].
  - eexists _, _, _, _. split; [reflexivity|]. split.
    { exact (update_response_eq c _ st resp Hresp). }
    split; [reflexivity|]. split; [reflexivity|].
    split; [apply without_lookup|]. split; [by intros reply [= <-] | done].
Qed.

End UploadMore.

Lemma upload_without_session_witness :
  ∃ outcome e',
    post_validate_emails demo_trim demo_validate demo_read demo_write
      demo_unlink demo_exists demo_output_path demo_request_plain "1700000000000"
      ([], one_subscriber)
    = (outcome, (e', one_subscriber)) ∧
    outcome = Returned (Completed {| total := 5; valid := 1; invalid := 4 |}
                          "/api/download/validated-1700000000000-list.xlsx"
                          "validated-1700000000000-list.xlsx" false).
Proof.
  destruct (upload_without_session demo_trim demo_validate demo_read demo_write
              demo_unlink demo_exists demo_output_path demo_request_plain
              "1700000000000" [] one_subscriber eq_refl)
    as (outcome & e' & Hpost & Hreply).
  exists outcome, e'. split; [exact Hpost|].
  edestruct (Hreply {| originalname := "list.xlsx"; path := "uploads/upload-1.xlsx" |})
    as [Ho _].
  - reflexivity.
  - vm_compute. reflexivity.
  - reflexivity.
  - exact Ho.
Defined.

Lemma demo_reconnect_not_for_s2 calls :
  Forall (does_not_register "s2") (demo_reconnect calls).1.
Proof.
  unfold demo_reconnect. cbn [fst].
  destruct (length calls =? 1)%nat; repeat constructor; discriminate.
Defined.

Lemma upload_for_absent_subscriber_witness :
  sseConnections one_subscriber !! "s2" = None ∧
  ∃ ops,
    Forall (λ op, ∃ e0, op ∈ (demo_reconnect e0).1) ops ∧
    demo_post_live demo_reconnect demo_request_late ([], one_subscriber)
    = (let '(outcome, e') :=
         upload_core demo_trim (λ o, then_arrivals demo_reconnect (demo_validate o))
           demo_read demo_write demo_unlink demo_exists demo_output_path true
           demo_request_late "1700000000000" (demo_reconnect []).2 in
       (outcome, (e', run_ops ops one_subscriber))) ∧
    sseConnections (run_ops ops one_subscriber) !! "s2" = None.
Proof.
  split; [reflexivity|].
  apply (upload_for_absent_subscriber demo_trim demo_validate demo_read demo_write
           demo_unlink demo_exists demo_output_path demo_reconnect demo_request_late
           "1700000000000"
           {| originalname := "list.xlsx"; path := "uploads/upload-1.xlsx" |}
           "s2" [] one_subscriber).
  - reflexivity.
  - reflexivity.
  - reflexivity.
  - exact demo_reconnect_not_for_s2.
Defined.

(** A subscriber that registers during the pause is served: it receives
    the events of the run and its connection is ended by the handler. *)
Example latecomer_is_served :
  let st' := (demo_post_live demo_latecomer demo_request_late ([], one_subscriber)).2.2 in
  sseConnections one_subscriber !! "s2" = None ∧
  (chunks <$> responses st' !! 1)
  = Some [ EvConnected "s2";
           EvStart 5;
           EvEmail (JStr "a@good.com") true None;
           EvEmail (JStr "bad") false (Some "regex");
           EvEmail (JStr "user@disposable.test") false (Some "disposable");
           EvEmail (JNum 7) false (Some "Invalid email format");
           EvEmail (JStr "boom@slow.test") false
             (Some "Validation error: connect ETIMEDOUT");
           EvComplete {| total := 5; valid := 1; invalid := 4 |}
             "/api/download/validated-1700000000000-list.xlsx"
             "validated-1700000000000-list.xlsx" ] ∧
  (ended <$> responses st' !! 1) = Some true ∧
  sseConnections st' !! "s2" = None.
Proof.
  vm_compute. repeat split.
Qed.


Lemma upload_unreadable_workbook_witness :
  ∃ outcome e' st' resp',
    post_validate_emails demo_trim demo_validate demo_read_failing demo_write
      demo_unlink demo_exists demo_output_path demo_request "1700000000000"
      ([], one_subscriber)
    = (outcome, (e', st')) ∧
    responses st' !! 0 = Some resp' ∧
    chunks resp' = [EvConnected "s1"] ++ [EvError "File is password-protected"] ∧
    ended resp' = true ∧
    sseConnections st' !! "s1" = None ∧
    (∀ reply, outcome = Returned reply → reply = Failed "File is password-protected").
Proof.
  destruct (upload_unreadable_workbook demo_trim demo_validate demo_read_failing
              demo_write demo_unlink demo_exists demo_output_path demo_request
              "1700000000000"
              {| originalname := "list.xlsx"; path := "uploads/upload-1.xlsx" |}
              "s1" 0 _ [] one_subscriber (ThrownError "File is password-protected") []
              eq_refl eq_refl eq_refl eq_refl working_reliable eq_refl)
    as (outcome & e' & st' & resp' & Hpost & Hresp & Hchunks & Hended & Hgone & Hreply & _).
  exists outcome, e', st', resp'.
  split; [exact Hpost|]. split; [exact Hresp|]. split; [exact Hchunks|].
  split; [exact Hended|]. split; [exact Hgone | exact Hreply].
Defined.

(** * Closing, and what a publish touches *)

(** X14.  Closing is idempotent.  After the handler's closing block has
    run for a session, running it again changes nothing and a publish for
    the session changes nothing; the same holds for a second run of a
    request's close listener. *)
Theorem closing_is_idempotent sessionId res st :
  let st1 := (close_connection sessionId st).2 in
  let st2 := (on_close sessionId res st).2 in
  close_connection sessionId st1 = (Returned tt, st1) ∧
  (∀ data, sendSSEMessage sessionId data st1 = (Returned tt, st1)) ∧
  on_close sessionId res st2 = (Returned tt, st2) ∧
  (∀ data, sendSSEMessage sessionId data st2 = (Returned tt, st2)).
Proof.
  intros st1 st2.
  assert (sseConnections st1 !! sessionId = None) as H1.
  { subst st1. unfold close_connection.
    destruct (sseConnections st !! sessionId) as [c|] eqn:Hc; [|done].
    apply lookup_delete_eq. }
  assert (sseConnections st2 !! sessionId = None) as H2.
  { subst st2. rewrite on_close_state. apply lookup_delete_eq. }
  split; [by apply close_connection_absent|].
  split; [intros data; by apply sendSSEMessage_absent|].
  split; [|intros data; by apply sendSSEMessage_absent].
  subst st2. rewrite !on_close_state. cbn [snd]. f_equal.
  unfold without at 1. rewrite update_response_connections.
  unfold without at 1. cbn [sseConnections set_connections].
  rewrite delete_delete_eq.
  unfold update_response, set_connections; simpl.
  destruct (responses st !! res) as [r|] eqn:Hr.
  - rewrite list_lookup_insert_eq by by eapply lookup_lt_Some.
    by rewrite list_insert_insert_eq.
  - by rewrite Hr.
Qed.

(** X15.  The close listener of a request removes whatever entry its
    session identifier has at that time.  When a later subscriber has
    registered under the same identifier, the first subscriber's
    disconnect removes the later subscriber's entry; the later connection
    is left open and untouched, and publishes for the session no longer
    reach it. *)
Theorem stale_close_removes_new_subscriber sessionId first second st :
  sseConnections st !! sessionId = Some second →
  first ≠ second →
  ∃ st',
    on_close sessionId first st = (Returned tt, st') ∧
    sseConnections st' !! sessionId = None ∧
    responses st' !! second = responses st !! second ∧
    ∀ data, sendSSEMessage sessionId data st' = (Returned tt, st').
Proof.
  intros Hc Hne. eexists. split; [apply on_close_state|].
  assert (sseConnections (update_response first mark_ended (without sessionId st))
            !! sessionId = None) as Hgone by apply lookup_delete_eq.
  split; [exact Hgone|]. split.
  - by rewrite update_response_ne.
  - intros data. by apply sendSSEMessage_absent.
Qed.

(** X16.  A publish for one session leaves the registry entries of all
    other sessions as they are, and changes no response but the one
    registered for that session; no response is created or removed. *)
Theorem publish_touches_one_session sessionId data st :
  let st' := (sendSSEMessage sessionId data st).2 in
  (∀ other, other ≠ sessionId →
            sseConnections st' !! other = sseConnections st !! other) ∧
  (∀ res, sseConnections st !! sessionId ≠ Some res →
          responses st' !! res = responses st !! res) ∧
  length (responses st') = length (responses st).
Proof. apply sendSSEMessage_frame. Qed.

(** X17.  Delivery is first in, first out: publishing a sequence of events
    for a session whose connection works appends exactly those events, in
    that order, to what was written on the connection, and keeps the
    session registered. *)
Theorem publish_in_order sessionId c resp evs st :
  sseConnections st !! sessionId = Some c →
  responses st !! c = Some resp →
  reliable resp →
  let st' := fold_left (λ s d, (sendSSEMessage sessionId d s).2) evs st in
  sseConnections st' !! sessionId = Some c ∧
  ∃ resp', responses st' !! c = Some resp' ∧
           chunks resp' = chunks resp ++ evs ∧
           ended resp' = ended resp.
Proof.
  intros Hc Hresp Hrel st'. subst st'.
  rewrite (fold_send_healthy sessionId c evs st)
    by (split; [done | by exists resp]).
  split; [done|]. exists (add_chunks evs resp).
  split; [by apply update_response_eq | done].
Qed.

Lemma stale_close_removes_new_subscriber_witness :
  sseConnections replaced_subscriber !! "s1" = Some 1 ∧
  ∃ st',
    on_close "s1" 0 replaced_subscriber = (Returned tt, st') ∧
    sseConnections st' !! "s1" = None ∧
    responses st' !! 1 = responses replaced_subscriber !! 1 ∧
    ∀ data, sendSSEMessage "s1" data st' = (Returned tt, st').
Proof.
  split; [reflexivity|].
  apply (stale_close_removes_new_subscriber "s1" 0 1 replaced_subscriber).
  - reflexivity.
  - lia.
Defined.

Lemma publish_in_order_witness :
  let evs := [EvStart 2; EvEmail (JStr "a@good.com") true None;
              EvEmail (JStr "bad") false (Some "regex")] in
  let st' := fold_left (λ s d, (sendSSEMessage "s1" d s).2) evs one_subscriber in
  sseConnections st' !! "s1" = Some 0 ∧
  ∃ resp', responses st' !! 0 = Some resp' ∧
           chunks resp' = [EvConnected "s1"] ++ evs ∧
           ended resp' = false.
Proof.
  exact (publish_in_order "s1" 0 _ _ one_subscriber eq_refl eq_refl working_reliable).
Defined.

(** * An invariant of the registry *)

(** A step that only removes registry entries and listeners, keeps every
    response, and ends only responses that are then unregistered. *)
Lemma registry_ok_shrinks p p' :
  (∀ sid c, sseConnections (server p') !! sid = Some c →
            sseConnections (server p) !! sid = Some c) →
  (∀ c r, responses (server p) !! c = Some r →
          ∃ r', responses (server p') !! c = Some r' ∧
                (ended r' = ended r ∨ ∀ sid, sseConnections (server p') !! sid ≠ Some c)) →
  (∀ c sid, listeners p' !! c = Some sid → listeners p !! c = Some sid) →
  registry_ok p → registry_ok p'.
Proof.
  intros Hsub Hresp Hlis (H1 & H2 & H3). split; [|split].
  - intros sid c Hc. destruct (H1 sid c (Hsub _ _ Hc)) as (r & Hr & Hend).
    destruct (Hresp c r Hr) as (r' & Hr' & [He|Hno]).
    + exists r'. split; [done|]. by rewrite He.
    + by destruct (Hno sid).
  - intros sid sid' c Hc Hc'. eapply H2; by apply Hsub.
  - intros c sid Hl. destruct (H3 c sid (Hlis _ _ Hl)) as [Hlt Hown]. split.
    + destruct (lookup_lt_is_Some_2 _ _ Hlt) as [r Hr].
      destruct (Hresp c r Hr) as (r' & Hr' & _). by eapply lookup_lt_Some.
    + intros sid' Hc. apply Hown. by apply Hsub.
Qed.

Lemma validate_emails_stream_state sessionId res st :
  sessionId ≠ "" →
  ∃ f, (∀ r, ended (f r) = ended r) ∧
       (validate_emails_stream (Some sessionId) res st).2
       = set_connections (<[sessionId := res]> (sseConnections st))
           (update_response res f st).
Proof.
  intros Hsid. unfold validate_emails_stream. rewrite (nonempty_Some _ Hsid).
  unfold bind, setHeader, connections_set. rewrite !update_response_twice.
  fold (sse_headers). unfold res_write. cbn [responses set_connections].
  destruct (responses (update_response res _ st) !! res) as [r|] eqn:Hr.
  - destruct (wr r (chunks r) (EvConnected sessionId)) as [e|]; cbn [fst snd].
    + by exists (λ r, add_header "Access-Control-Allow-Origin" "*"
                      (add_header "Connection" "keep-alive"
                         (add_header "Cache-Control" "no-cache"
                            (add_header "Content-Type" "text/event-stream" r)))).
    + exists (λ r, add_chunk (EvConnected sessionId)
                     (add_header "Access-Control-Allow-Origin" "*"
                        (add_header "Connection" "keep-alive"
                           (add_header "Cache-Control" "no-cache"
                              (add_header "Content-Type" "text/event-stream" r))))).
      split; [done|].
      unfold set_connections, update_response; simpl.
      unfold update_response in Hr; simpl in Hr.
      destruct (responses st !! res) as [r0|] eqn:Hr0.
      * rewrite list_lookup_insert_eq by by eapply lookup_lt_Some.
        by rewrite list_insert_insert_eq.
      * by rewrite Hr0.
  - cbn [fst snd].
    by exists (λ r, add_header "Access-Control-Allow-Origin" "*"
                      (add_header "Connection" "keep-alive"
                         (add_header "Cache-Control" "no-cache"
                            (add_header "Content-Type" "text/event-stream" r)))).
Qed.

Lemma happen_ok p h : registry_ok p → registry_ok (happen p h).
Proof.
  intros Hok. pose proof Hok as (H1 & H2 & H3).
  assert (∀ sid c, sseConnections (server p) !! sid = Some c →
                   c < length (responses (server p))) as Hlt.
  { intros sid c Hc. destruct (H1 sid c Hc) as (r & Hr & _). by eapply lookup_lt_Some. }
  destruct h as [session w fl|res|sid data|sid]; unfold happen.
  - (* a stream request arrives *)
    unfold accept.
    set (res := length (responses (server p))).
    set (st1 := {| sseConnections := sseConnections (server p);
                   responses := responses (server p) ++ [fresh_response w fl] |}).
    assert (∀ c r, responses (server p) !! c = Some r → responses st1 !! c = Some r)
      as Hold by (intros c r Hr; by apply lookup_app_l_Some).
    assert (responses st1 !! res = Some (fresh_response w fl)) as Hnew.
    { unfold st1, res; simpl. rewrite lookup_app_r by lia.
      by rewrite Nat.sub_diag. }
    destruct (nonempty session) as [sid|] eqn:Hs.
    + destruct (nonempty_inv _ _ Hs) as [-> Hne].
      destruct (validate_emails_stream_state sid res st1 Hne) as (f & Hf & Hst).
      destruct (validate_emails_stream (Some sid) res st1) as [o st2].
      simpl in Hst. subst st2.
      assert (∀ s c, <[sid := res]> (sseConnections (server p)) !! s = Some c →
                (s = sid ∧ c = res) ∨ (s ≠ sid ∧ sseConnections (server p) !! s = Some c))
        as Hentry.
      { intros s c. destruct (decide (sid = s)) as [->|Hn].
        - rewrite lookup_insert_eq. intros [= <-]. by left.
        - rewrite lookup_insert_ne by done. intros Hc. right. by split. }
      assert (length (responses (update_response res f st1))
              = S (length (responses (server p)))) as Hlen.
      { rewrite (update_response_Some res f st1 _ Hnew). cbn [responses].
        rewrite length_insert. unfold st1. cbn [responses].
        rewrite length_app. simpl. lia. }
      split; [|split]; cbn [server listeners sseConnections responses set_connections].
      * intros s c [[-> ->]|[Hn Hc]]%Hentry.
        -- exists (f (fresh_response w fl)).
           split; [by apply update_response_eq | by rewrite Hf].
        -- destruct (H1 s c Hc) as (r & Hr & Hend). exists r. split; [|done].
           rewrite update_response_ne by (specialize (Hlt s c Hc); unfold res; lia).
           by apply Hold.
      * intros s s' c [[-> ->]|[Hn Hc]]%Hentry [[-> Hc']|[Hn' Hc']]%Hentry; try done.
        -- specialize (Hlt s' res Hc'). unfold res in Hlt. lia.
        -- subst c. specialize (Hlt s res Hc). unfold res in Hlt. lia.
        -- by eapply H2.
      * intros c s Hl.
        assert (listeners p !! c = Some s ∨ (c = res ∧ s = sid)) as [Hl'|[-> ->]].
        { destruct o as [[]|e]; [|by left].
          destruct (decide (res = c)) as [<-|Hn].
          - rewrite lookup_insert_eq in Hl. injection Hl as <-. by right.
          - rewrite lookup_insert_ne in Hl by done. by left. }
        -- destruct (H3 c s Hl') as [Hc Hown]. split; [rewrite Hlen; lia|].
           intros s' [[-> ->]|[Hn Hc']]%Hentry; [unfold res in Hc; lia|].
           by apply Hown.
        -- split; [rewrite Hlen; unfold res; lia|].
           intros s' [[-> _]|[Hn Hc']]%Hentry; [done|].
           specialize (Hlt s' res Hc'). unfold res in Hlt. lia.
    + assert (validate_emails_stream session res st1
              = (Returned tt, update_response res (reply_with 400) st1)) as Hst
        by (unfold validate_emails_stream; by rewrite Hs).
      rewrite Hst.
      apply (registry_ok_shrinks p); [done| |done|done].
      * intros c r Hr. exists r. split; [|by left].
        cbn [server]. rewrite update_response_ne; [by apply Hold|].
        apply lookup_lt_Some in Hr. unfold res. lia.
  - (* the request of a response closes *)
    destruct (listeners p !! res) as [sid|] eqn:Hl; [|done].
    destruct (H3 res sid Hl) as [Hres Hown].
    rewrite on_close_state. cbn [snd].
    assert (∀ s c, delete sid (sseConnections (server p)) !! s = Some c →
                   s ≠ sid ∧ sseConnections (server p) !! s = Some c) as Hdel.
    { intros s c. destruct (decide (sid = s)) as [->|Hn].
      - by rewrite lookup_delete_eq.
      - rewrite lookup_delete_ne by done. intros Hc. by split. }
    apply (registry_ok_shrinks p); [| | |done]; cbn [server listeners].
    + intros s c Hc. by apply Hdel in Hc as [_ Hc].
    + intros c r Hr. destruct (decide (res = c)) as [<-|Hn].
      * exists (mark_ended r). split; [by apply update_response_eq|]. right.
        intros s Hc. apply Hdel in Hc as [Hn Hc]. by apply Hn, Hown.
      * exists r. split; [by rewrite update_response_ne | by left].
    + intros c s. destruct (decide (res = c)) as [<-|Hn].
      * by rewrite lookup_delete_eq.
      * by rewrite lookup_delete_ne.
  - (* a batch publishes *)
    destruct (sendSSEMessage_shrinks sid data (server p)) as [Hsub Hresp].
    apply (registry_ok_shrinks p); [done| |done|done]; cbn [server].
    intros c r Hr. destruct (Hresp c r Hr) as (r' & Hr' & He). exists r'.
    split; [done | by left].
  - (* a batch closes the connection of its session *)
    unfold close_connection.
    destruct (sseConnections (server p) !! sid) as [c0|] eqn:Hc0;
      [|by destruct p].
    assert (∀ s c, delete sid (sseConnections (server p)) !! s = Some c →
                   s ≠ sid ∧ sseConnections (server p) !! s = Some c) as Hdel.
    { intros s c. destruct (decide (sid = s)) as [->|Hn].
      - by rewrite lookup_delete_eq.
      - rewrite lookup_delete_ne by done. intros Hc. by split. }
    change ((res_end c0 ;;; connections_delete sid) (server p))
      with (Returned tt, without sid (update_response c0 mark_ended (server p))).
    cbn [snd].
    apply (registry_ok_shrinks p); [| |done|done]; cbn [server].
    + intros s c Hc. by apply Hdel in Hc as [_ Hc].
    + intros c r Hr. destruct (decide (c0 = c)) as [<-|Hn].
      * exists (mark_ended r).
        split; [exact (update_response_eq c0 mark_ended (server p) r Hr)|]. right.
        intros s Hc. apply Hdel in Hc as [Hn Hc]. apply Hn. by eapply H2.
      * exists r. split; [|by left].
        exact (eq_trans (update_response_ne c0 c mark_ended (server p) Hn) Hr).
Qed.

(** X18.  Whatever sequence of subscriptions, disconnections, publishes
    and closings the server has seen since it started, every registered
    connection exists and has not been ended, so that a publish never
    writes on an ended response; no connection is registered under two
    sessions; and a listener still installed on a request closes the only
    session its response can be registered under. *)
Theorem registry_invariant hs :
  let p := history hs in
  (∀ sid c, sseConnections (server p) !! sid = Some c →
            ∃ r, responses (server p) !! c = Some r ∧ ended r = false) ∧
  (∀ sid sid' c, sseConnections (server p) !! sid = Some c →
                 sseConnections (server p) !! sid' = Some c → sid = sid') ∧
  (∀ c sid, listeners p !! c = Some sid →
            c < length (responses (server p)) ∧
            ∀ sid', sseConnections (server p) !! sid' = Some c → sid' = sid).
Proof.
  unfold history.
  assert (∀ p, registry_ok p → registry_ok (fold_left happen hs p)) as Hall.
  { induction hs as [|h hs IH]; intros p Hp; simpl; [done|].
    by apply IH, happen_ok. }
  apply Hall. split; [|split]; simpl.
  - intros sid c. by rewrite lookup_empty.
  - intros sid sid' c. by rewrite lookup_empty.
  - intros c sid. by rewrite lookup_empty.
Qed.

Example history_with_reconnect :
  let p := history [Subscribes (Some "s1") working_wr None;
                    Publishes "s1" (EvStart 1);
                    Subscribes (Some "s1") working_wr None;
                    Disconnects 0;
                    Publishes "s1" (EvEmail (JStr "a@good.com") true None)] in
  sseConnections (server p) !! "s1" = None ∧
  (chunks <$> responses (server p) !! 0) = Some [EvConnected "s1"; EvStart 1] ∧
  (chunks <$> responses (server p) !! 1) = Some [EvConnected "s1"] ∧
  (ended <$> responses (server p) !! 1) = Some false.
Proof. vm_compute. repeat split. Qed.

(** * The upload function of the serverless deployment *)

Lemma returns_only_ret {St A} (P : A → Prop) (a : A) :
  P a → returns_only (St := St) P (ret a).
Proof. intros HP s a' s' [= <- _]. exact HP. Qed.

Lemma returns_only_bind {St A B} (P : B → Prop) (c : M St A) (k : A → M St B) :
  (∀ a, returns_only P (k a)) → returns_only P (bind c k).
Proof.
  intros Hk s b s'. unfold bind.
  destruct (c s) as [[a|e] s1]; [apply Hk | discriminate].
Qed.

Section CloudflareProperties.
Context {E Buffer : Type}.
Variable trim : string → string.
Variable validate : ValidateOptions → M E OutputFormat.
Variable readEmailsFromXLSX : string → M E (list EmailRow).
Variable writeResultsToXLSX : list ValidationResult → string → M E unit.
Variable request_formData : M E FormData.
Variable file_arrayBuffer : CfFile → M E Buffer.
Variable toLowerCase : string → string.
Variable extname : string → string.
Variable path_join : string → string → string.
Variable tmpdir : string.
Variable fs_existsSync : string → E → bool.
Variable fs_mkdirSync : string → M E unit.
Variable fs_writeFileSync : string → Buffer → M E unit.
Variable fs_readFileSync : string → M E Buffer.
Variable fs_unlinkSync : string → M E unit.
Variable date_now : M E string.
Variable random_suffix : M E string.
Variable base64 : Buffer → string.

Abbreviation post :=
  (onRequestPost trim validate readEmailsFromXLSX writeResultsToXLSX
     request_formData file_arrayBuffer toLowerCase extname path_join tmpdir
     fs_existsSync fs_mkdirSync fs_writeFileSync fs_readFileSync fs_unlinkSync
     date_now random_suffix base64).

Lemma cf_process_returns_200 formData file ext :
  returns_only (λ r, cf_status r = 200)
    (cf_process trim validate readEmailsFromXLSX writeResultsToXLSX
       file_arrayBuffer path_join tmpdir fs_existsSync fs_mkdirSync
       fs_writeFileSync fs_readFileSync fs_unlinkSync date_now random_suffix
       base64 formData file ext).
Proof.
  unfold cf_process.
  repeat (apply returns_only_bind; intros ?).
  by apply returns_only_ret.
Qed.

(** X19.  The upload function never throws: whatever its collaborators
    do, it returns a response, and that response has status 200, or status
    400, or is the status 500 response with the error "Failed to process
    file" and a message. *)
Theorem onRequestPost_always_answers e :
  ∃ resp e',
    post e = (Returned resp, e') ∧
    (cf_status resp = 200 ∨ cf_status resp = 400 ∨
     ∃ message, resp = cf_json 500 (CfError "Failed to process file" (Some message))).
Proof.
  unfold onRequestPost, try_catch.
  match goal with |- context [match ?c e with _ => _ end] =>
    destruct (c e) as [[resp|err] e'] eqn:Hbody end.
  - exists resp, e'. split; [done|].
    revert Hbody. unfold bind.
    destruct (request_formData e) as [[formData|err] e1]; [|discriminate].
    destruct (fd_file formData) as [file|]; [|intros [= <- _]; by right; left].
    destruct (negb (allowed_extension (extname (toLowerCase (cf_name file)))));
      [intros [= <- _]; by right; left|].
    destruct (maxSize <? cf_size file)%Z; [intros [= <- _]; by right; left|].
    intros Hproc. left. by eapply cf_process_returns_200.
  - eexists _, _. split; [reflexivity|]. right. right. by eexists.
Qed.

(** X20.  The three checks come first and in this order: a missing file,
    then an extension other than .xlsx and .xls, then a size above
    104857600 bytes.  A request that fails one of them is answered with
    status 400 and its own message, from the world the parsing of the form
    left: nothing is written to disk and nothing is validated. *)
Theorem onRequestPost_rejections e formData e1 :
  request_formData e = (Returned formData, e1) →
  (fd_file formData = None →
     post e = (Returned (cf_json 400 (CfError "No file uploaded" None)), e1)) ∧
  (∀ file,
     fd_file formData = Some file →
     allowed_extension (extname (toLowerCase (cf_name file))) = false →
     post e = (Returned (cf_json 400
                           (CfError "Only .xlsx and .xls files are allowed" None)), e1)) ∧
  (∀ file,
     fd_file formData = Some file →
     allowed_extension (extname (toLowerCase (cf_name file))) = true →
     (104857600 < cf_size file)%Z →
     post e = (Returned (cf_json 400
                  (CfError "File too large"
                     (Some "File size exceeds the maximum limit of 100MB. Please use a smaller file."))),
               e1)).
Proof.
  intros Hform. unfold onRequestPost, try_catch.
  rewrite (bind_returned _ _ _ _ _ Hform).
  split; [|split].
  - by intros ->.
  - intros file -> Hext. by rewrite Hext.
  - intros file -> Hext Hsize. rewrite Hext. simpl.
    assert ((maxSize <? cf_size file)%Z = true) as ->; [|done].
    apply Z.ltb_lt. unfold maxSize. lia.
Qed.

(** X21.  The size limit is inclusive: an upload with an allowed extension
    and a size of at most 104857600 bytes is never answered with status
    400; it is processed, and answered with 200 or, when a step throws,
    with 500. *)
Theorem onRequestPost_size_limit e formData e1 file :
  request_formData e = (Returned formData, e1) →
  fd_file formData = Some file →
  allowed_extension (extname (toLowerCase (cf_name file))) = true →
  (cf_size file ≤ 104857600)%Z →
  ∃ resp e',
    post e = (Returned resp, e') ∧
    (cf_status resp = 200 ∨ cf_status resp = 500) ∧
    post e
    = try_catch
        (cf_process trim validate readEmailsFromXLSX writeResultsToXLSX
           file_arrayBuffer path_join tmpdir fs_existsSync fs_mkdirSync
           fs_writeFileSync fs_readFileSync fs_unlinkSync date_now random_suffix
           base64 formData file (extname (toLowerCase (cf_name file))))
        (λ error,
           ret (cf_json 500 (CfError "Failed to process file"
                               (Some (errorMessage_of error))))) e1.
Proof.
  intros Hform Hfile Hext Hsize.
  assert ((maxSize <? cf_size file)%Z = false) as Hle
    by (apply Z.ltb_ge; unfold maxSize; lia).
  assert (post e
          = try_catch
              (cf_process trim validate readEmailsFromXLSX writeResultsToXLSX
                 file_arrayBuffer path_join tmpdir fs_existsSync fs_mkdirSync
                 fs_writeFileSync fs_readFileSync fs_unlinkSync date_now random_suffix
                 base64 formData file (extname (toLowerCase (cf_name file))))
              (λ error,
                 ret (cf_json 500 (CfError "Failed to process file"
                                     (Some (errorMessage_of error))))) e1) as Heq.
  { unfold onRequestPost, try_catch.
    rewrite (bind_returned _ _ _ _ _ Hform). rewrite Hfile. cbv zeta.
    rewrite Hext, Hle. reflexivity. }
  rewrite Heq. unfold try_catch.
  match goal with |- context [match ?c e1 with _ => _ end] =>
    destruct (c e1) as [[resp|err] e'] eqn:Hbody end.
  - exists resp, e'. split; [done|]. split; [|done].
    left. by eapply cf_process_returns_200.
  - eexists _, _. split; [reflexivity|]. split; [by right | done].
Qed.

End CloudflareProperties.

Lemma onRequestPost_rejections_witness :
  demo_cf 104857601 "list.xlsx" []
  = (Returned (cf_json 400
                 (CfError "File too large"
                    (Some "File size exceeds the maximum limit of 100MB. Please use a smaller file."))),
     []).
Proof.
  apply (proj2 (proj2
    (onRequestPost_rejections (Buffer := string) (λ s, s) cf_validate cf_read cf_write
       (demo_form 104857601 "list.xlsx") (λ f, ret "bytes")
       (λ s, s) demo_extname cf_join "/tmp"
       cf_exists cf_touch (λ p b, cf_touch p) cf_readFile cf_unlink
       (ret "1700000000000") (ret "42") (λ b, b) [] _ [] eq_refl))
    {| cf_name := "list.xlsx"; cf_size := 104857601 |}).
  - reflexivity.
  - reflexivity.
  - simpl. lia.
Defined.

Lemma onRequestPost_size_limit_witness :
  ∃ resp e',
    demo_cf 104857600 "list.xlsx" [] = (Returned resp, e') ∧
    (cf_status resp = 200 ∨ cf_status resp = 500).
Proof.
  destruct (onRequestPost_size_limit (Buffer := string) (λ s, s) cf_validate cf_read
              cf_write (demo_form 104857600 "list.xlsx") (λ f, ret "bytes")
              (λ s, s) demo_extname cf_join "/tmp"
              cf_exists cf_touch (λ p b, cf_touch p) cf_readFile cf_unlink
              (ret "1700000000000") (ret "42") (λ b, b) [] _ []
              {| cf_name := "list.xlsx"; cf_size := 104857600 |}
              eq_refl eq_refl eq_refl ltac:(simpl; lia))
    as (resp & e' & Hpost & Hstatus & _).
  exists resp, e'. split; [exact Hpost | exact Hstatus].
Defined.

Example demo_cf_runs :
  ∃ data name mime,
    demo_cf 104857600 "list.xlsx" []
    = (Returned {| cf_status := 200;
                   cf_headers := [("Content-Type", "application/json");
                                  ("Access-Control-Allow-Origin", "*")];
                   cf_body := CfSuccess {| total := 1; valid := 1; invalid := 0 |}
                                data name mime |},
       ["/tmp/uploads"; "/tmp/output"]) ∧
    (demo_cf 10 "notes.txt" []).1
    = Returned (cf_json 400 (CfError "Only .xlsx and .xls files are allowed" None)).
Proof. eexists _, _, _. split; vm_compute; reflexivity. Qed.

(** * The two deployments of the upload handler *)

Section DeploymentsAgree.
Context {E : Type}.
Variable trim : string → string.
Variable validate : ValidateOptions → M E OutputFormat.
Variable readEmailsFromXLSX : string → M E (list EmailRow).
Variable writeResultsToXLSX : list ValidationResult → string → M E unit.
Variable fs_unlinkSync : string → M E unit.
Variable fs_existsSync : string → E → bool.
Variable output_path : string → string.


End DeploymentsAgree.


Example demo_vercel :
  (vercel_upload demo_trim demo_validate demo_read demo_write demo_unlink demo_exists
     demo_output_path "POST" None demo_request "1700000000000" []).1
  = Returned (Answer (Completed {| total := 5; valid := 1; invalid := 4 |}
                        "/api/download/validated-1700000000000-list.xlsx"
                        "validated-1700000000000-list.xlsx" true)) ∧
  (vercel_upload demo_trim demo_validate demo_read demo_write demo_unlink demo_exists
     demo_output_path "GET" None demo_request "1700000000000" [])
  = (Returned MethodNotAllowed, []) ∧
  upload_error_answer {| me_code := Some "LIMIT_FILE_SIZE"; me_message := Some "File too large" |}
  = UploadError "File too large"
      "File size exceeds the maximum limit of 100MB. Please use a smaller file.".
Proof. repeat split; vm_compute; reflexivity. Qed.
